(** * SNGAN generator / discriminator (models/sngan.py): a shallow embedding

    The networks of [models/sngan.py] are compositions of tensor
    transformations supplied by the tensor library.  The embedding has three
    layers:

    - scalars: an arbitrary carrier [F] with the arithmetic the library's
      kernels use (class [Scalar]); the real numbers are one instance, the
      reals extended by the infinities and NaN of IEEE 754 another;
    - tensors and the library's primitives ([Linear], [Conv2d],
      [BatchNorm2d], [Upsample], [AvgPool2d], [view], broadcasting
      arithmetic, spectral normalisation), with [None] standing for a raised
      exception;
    - the modules of the file itself: per Python class a Rocq module with
      the record [t] of its attributes, [init] and [forward].

    Parameters and buffers live in a store indexed by their qualified name, so
    that two uses of one module object read the same entries.  A forward pass
    is modelled by the value it returns; the library's updates of running
    statistics and power-iteration vectors during the pass are not tracked. *)

From Stdlib Require Import String Reals Lra.
From Stdlib Require Import List Arith Lia ZArith Bool.
Import ListNotations.

Set Implicit Arguments.

Local Open Scope nat_scope.

(** ** Scalars *)

Class Scalar (F : Type) : Type := {
  fzero : F;
  fadd : F -> F -> F;
  fsub : F -> F -> F;
  fmul : F -> F -> F;
  fdiv : F -> F -> F;
  fmax : F -> F -> F;
  fsqrt : F -> F;
  ftanh : F -> F;
  fofnat : nat -> F;
  bn_eps : F;  (* BatchNorm2d's eps, 1e-5 *)
  sn_eps : F   (* spectral_norm's eps, 1e-12 *)
}.

(** ** The option monad for operations that may raise *)

Definition bind {A B : Type} (m : option A) (k : A -> option B) : option B :=
  match m with
  | Some a => k a
  | None => None
  end.

Notation "x <- m ;; k" := (bind m (fun x => k))
  (at level 61, m at next level, right associativity).

(** ** Shapes and index arithmetic *)

Definition numel_of (s : list nat) : nat := fold_right Nat.mul 1 s.

(** Row-major multi-index of a flat offset, and back. *)
Fixpoint unravel (s : list nat) (o : nat) : list nat :=
  match s with
  | [] => []
  | d :: s' => (o / numel_of s') mod d :: unravel s' o
  end.

Fixpoint ravel (s idx : list nat) : nat :=
  match s, idx with
  | _ :: s', i :: idx' => i * numel_of s' + ravel s' idx'
  | _, _ => 0
  end.

Definition offset4 (C H W n c i j : nat) : nat := ((n * C + c) * H + i) * W + j.

(** Broadcasting of two shapes, aligned on the last dimension. *)
Fixpoint broadcast_rev (a b : list nat) : option (list nat) :=
  match a, b with
  | [], _ => Some b
  | _, [] => Some a
  | x :: a', y :: b' =>
      r <- broadcast_rev a' b' ;;
      if x =? y then Some (x :: r)
      else if x =? 1 then Some (y :: r)
      else if y =? 1 then Some (x :: r)
      else None
  end.

Definition broadcast_shapes (a b : list nat) : option (list nat) :=
  option_map (@rev nat) (broadcast_rev (rev a) (rev b)).

(** Offset, in an operand of shape [sa], of the element that is broadcast to
    offset [o] of the result of shape [s]. *)
Definition bcast_offset (sa s : list nat) (o : nat) : nat :=
  let idx := skipn (length s - length sa) (unravel s o) in
  ravel sa (map (fun di => if fst di =? 1 then 0 else snd di) (combine sa idx)).

(** ** Tensors *)

Section Tensors.

Context {F : Type} {SF : Scalar F}.

Record Tensor : Type := mkTensor {
  shape : list nat;
  data : list F        (* row-major, contiguous *)
}.

Definition numel (t : Tensor) : nat := numel_of (shape t).

Definition item (t : Tensor) (o : nat) : F := nth o (data t) fzero.

Definition tabulate (s : list nat) (f : nat -> F) : Tensor :=
  mkTensor s (map f (seq 0 (numel_of s))).

(** A rank 4 tensor given element by element. *)
Definition tabulate4 (N C H W : nat) (g : nat -> nat -> nat -> nat -> F)
  : Tensor :=
  tabulate [N; C; H; W] (fun o =>
    g (o / (C * H * W)) ((o / (H * W)) mod C) ((o / W) mod H) (o mod W)).

Definition wf (t : Tensor) : Prop := length (data t) = numel t.

(** [t[n, c, i, j]] of a rank 4 tensor and [t[r, k]] of a rank 2 tensor. *)
Definition get4 (t : Tensor) (n c i j : nat) : F :=
  match shape t with
  | [_; C; H; W] => item t (offset4 C H W n c i j)
  | _ => fzero
  end.

Definition get2 (t : Tensor) (r k : nat) : F :=
  match shape t with
  | [_; D] => item t (r * D + k)
  | _ => fzero
  end.

(** [t.size(i)] *)
Definition size (t : Tensor) (i : nat) : option nat := nth_error (shape t) i.

Definition fsum (l : list F) : F := fold_left fadd l fzero.

(** [sum_{k < n} a k * b k] *)
Definition dot (n : nat) (a b : nat -> F) : F :=
  fsum (map (fun k => fmul (a k) (b k)) (seq 0 n)).

(** *** [Tensor.view]: at most one dimension may be [-1] and is inferred *)
Definition view (t : Tensor) (dims : list Z) : option Tensor :=
  if existsb (fun d => (d <? -1)%Z) dims then None
  else
    let newsize :=
      numel_of (map Z.to_nat (filter (fun d => negb (d =? -1)%Z) dims)) in
    match length (filter (fun d => (d =? -1)%Z) dims) with
    | 0 =>
        if numel t =? newsize
        then Some (mkTensor (map Z.to_nat dims) (data t))
        else None
    | 1 =>
        if (0 <? newsize) && (numel t mod newsize =? 0)
        then Some (mkTensor
                     (map (fun d => if (d =? -1)%Z then numel t / newsize
                                    else Z.to_nat d) dims)
                     (data t))
        else None
    | _ => None
    end.

(** *** Element-wise arithmetic with broadcasting *)
Definition broadcast2 (op : F -> F -> F) (a b : Tensor) : option Tensor :=
  s <- broadcast_shapes (shape a) (shape b) ;;
  Some (tabulate s (fun o =>
          op (item a (bcast_offset (shape a) s o))
             (item b (bcast_offset (shape b) s o)))).

Definition tensor_add : Tensor -> Tensor -> option Tensor := broadcast2 fadd.
Definition tensor_mul : Tensor -> Tensor -> option Tensor := broadcast2 fmul.

Definition tensor_map (f : F -> F) (t : Tensor) : Tensor :=
  mkTensor (shape t) (map f (data t)).

(** [nn.ReLU] and [nn.Tanh] *)
Definition ReLU (t : Tensor) : Tensor := tensor_map (fmax fzero) t.
Definition Tanh (t : Tensor) : Tensor := tensor_map ftanh t.

(** [torch.sum(t, 1, keepdim=True)] *)
Definition sum_dim1_keepdim (t : Tensor) : option Tensor :=
  match shape t with
  | a :: d :: rest =>
      let r := numel_of rest in
      Some (tabulate (a :: 1 :: rest) (fun o =>
              fsum (map (fun k => item t ((o / r * d + k) * r + o mod r))
                        (seq 0 d))))
  | _ => None
  end.

End Tensors.

Arguments Tensor F : clear implicits.

(** ** The tensor library's layers *)

Section Layers.

Context {F : Type} {SF : Scalar F}.

(** The store of parameters and buffers: qualified name, then flat offset.
    Its contents are arbitrary: they are drawn at random by
    [xavier_uniform_] and then changed by an optimizer. *)
Definition Params : Type := string -> nat -> F.

Variable theta : Params.

(** [Module.training], [True] after construction. *)
Variable training : bool.

(** *** Weights, with or without [spectral_norm]

    A weight is read as the matrix [weight.reshape(rows, -1)].  Under
    [spectral_norm] (one power iteration per call while training, none in
    evaluation) the weight used is [weight_orig / sigma]. *)
Definition weight_orig (name : string) (sn : bool) (cols r k : nat) : F :=
  theta (name ++ (if sn then ".weight_orig" else ".weight"))%string (r * cols + k).

Definition normalize (n : nat) (a : nat -> F) : nat -> F :=
  let d := fmax (fsqrt (dot n a a)) sn_eps in
  fun k => fdiv (a k) d.

Definition sigma (name : string) (rows cols : nat) : F :=
  let W := weight_orig name true cols in
  let u0 := theta (name ++ ".weight_u")%string in
  let v0 := theta (name ++ ".weight_v")%string in
  let v := if training
           then normalize cols (fun k => dot rows (fun r => W r k) u0)
           else v0 in
  let u := if training
           then normalize rows (fun r => dot cols (W r) v)
           else u0 in
  dot rows u (fun r => dot cols (W r) v).

Definition weight (name : string) (sn : bool) (rows cols r k : nat) : F :=
  if sn then fdiv (weight_orig name true cols r k) (sigma name rows cols)
  else weight_orig name false cols r k.

Definition add_bias (name : string) (has_bias : bool) (r : nat) (v : F) : F :=
  if has_bias then fadd v (theta (name ++ ".bias")%string r) else v.

(** *** [nn.Linear] *)
Record Linear : Type := mkLinear {
  linear_name : string;
  in_features : nat;
  out_features : nat;
  linear_bias : bool;
  linear_sn : bool
}.

Definition Linear_forward (l : Linear) (x : Tensor F) : option (Tensor F) :=
  match rev (shape x) with
  | d :: lead =>
      if d =? in_features l then
        let W := weight (linear_name l) (linear_sn l)
                        (out_features l) (in_features l) in
        Some (tabulate (rev lead ++ [out_features l]) (fun o =>
                let r := o / out_features l in
                let j := o mod out_features l in
                add_bias (linear_name l) (linear_bias l) j
                  (dot (in_features l)
                       (fun k => item x (r * in_features l + k)) (W j))))
      else None
  | [] => None
  end.

(** *** [nn.Conv2d] (groups 1, dilation 1, zero padding)

    The input is a batch, of rank 4.  The library also takes an unbatched
    [(C, H, W)] input; that form is not modelled and reads as a refusal, and
    the statements on shapes and values below take inputs of rank 4. *)
Record Conv2d : Type := mkConv2d {
  conv_name : string;
  in_channels : nat;
  out_channels : nat;
  kernel_size : nat;
  conv_stride : nat;
  conv_padding : nat;
  conv_bias : bool;
  conv_sn : bool
}.

(** [x[n, c, r - p, q - p]] of the input padded by [p] zeros on each side. *)
Definition padded (x : Tensor F) (C H W p n c r q : nat) : F :=
  if (p <=? r) && (r <? H + p) && (p <=? q) && (q <? W + p)
  then item x (offset4 C H W n c (r - p) (q - p))
  else fzero.

Definition Conv2d_forward (cv : Conv2d) (x : Tensor F) : option (Tensor F) :=
  match shape x with
  | [N; C; H; W] =>
      let k := kernel_size cv in
      let s := conv_stride cv in
      let p := conv_padding cv in
      if (C =? in_channels cv) && (0 <? s)
         && (k <=? H + 2 * p) && (k <=? W + 2 * p) then
        let H' := (H + 2 * p - k) / s + 1 in
        let W' := (W + 2 * p - k) / s + 1 in
        let Co := out_channels cv in
        let wt := weight (conv_name cv) (conv_sn cv) Co (C * k * k) in
        Some (tabulate4 N Co H' W' (fun n co i j =>
                add_bias (conv_name cv) (conv_bias cv) co
                  (dot (C * k * k)
                       (wt co)
                       (fun q => padded x C H W p n (q / (k * k))
                                   (i * s + (q / k) mod k)
                                   (j * s + q mod k)))))
      else None
  | _ => None
  end.

(** *** [nn.BatchNorm2d] (running statistics tracked) *)
Record BatchNorm2d : Type := mkBatchNorm2d {
  bn_name : string;
  num_features : nat;
  affine : bool
}.

(** The values of channel [c] over the batch and both spatial axes. *)
Definition channel_values (x : Tensor F) (N C H W c : nat) : list F :=
  map (fun q => item x (offset4 C H W (q / (H * W)) c ((q / W) mod H) (q mod W)))
      (seq 0 (N * H * W)).

(** Mean and (biased) variance used for channel [c]: those of the batch
    while training, the running ones in evaluation. *)
Definition bn_mean (b : BatchNorm2d) (x : Tensor F) (N C H W c : nat) : F :=
  if training
  then fdiv (fsum (channel_values x N C H W c)) (fofnat (N * H * W))
  else theta (bn_name b ++ ".running_mean")%string c.

Definition bn_var (b : BatchNorm2d) (x : Tensor F) (N C H W c : nat) : F :=
  if training
  then
    let mean := bn_mean b x N C H W c in
    fdiv (fsum (map (fun v => fmul (fsub v mean) (fsub v mean))
                    (channel_values x N C H W c)))
         (fofnat (N * H * W))
  else theta (bn_name b ++ ".running_var")%string c.

(** [(x - mean) / sqrt(var + eps)] *)
Definition bn_normalized (b : BatchNorm2d) (x : Tensor F) (N C H W : nat)
  (n c i j : nat) : F :=
  fdiv (fsub (item x (offset4 C H W n c i j)) (bn_mean b x N C H W c))
       (fsqrt (fadd (bn_var b x N C H W c) bn_eps)).

Definition BatchNorm2d_forward (b : BatchNorm2d) (x : Tensor F)
  : option (Tensor F) :=
  match shape x with
  | [N; C; H; W] =>
      if negb (C =? num_features b) then None
      else if training && (N * H * W =? 1) then None
      else
        Some (tabulate4 N C H W (fun n c i j =>
          let xhat := bn_normalized b x N C H W n c i j in
          if affine b
          then fadd (fmul xhat (theta (bn_name b ++ ".weight")%string c))
                    (theta (bn_name b ++ ".bias")%string c)
          else xhat))
  | _ => None
  end.

(** *** [nn.Upsample(scale_factor)], nearest neighbour *)
Definition Upsample_forward (scale : nat) (x : Tensor F) : option (Tensor F) :=
  match shape x with
  | [N; C; H; W] =>
      if (0 <? C) && (0 <? H) && (0 <? W) && (0 <? scale) then
        let H' := H * scale in
        let W' := W * scale in
        Some (tabulate4 N C H' W' (fun n c i j =>
                item x (offset4 C H W n c (i / scale) (j / scale))))
      else None
  | _ => None
  end.

(** *** [nn.AvgPool2d(kernel, stride, padding)]; the stride defaults to the
    kernel size.  As for [Conv2d], the input is a batch of rank 4. *)
Definition AvgPool2d_forward (k : nat) (stride : option nat) (p : nat)
  (x : Tensor F) : option (Tensor F) :=
  match shape x with
  | [N; C; H; W] =>
      let s := match stride with Some s => s | None => k end in
      if (0 <? k) && (0 <? s) && (2 * p <=? k)
         && (k <=? H + 2 * p) && (k <=? W + 2 * p) then
        let H' := (H + 2 * p - k) / s + 1 in
        let W' := (W + 2 * p - k) / s + 1 in
        Some (tabulate4 N C H' W' (fun n c i j =>
                fdiv (fsum (map (fun q => padded x C H W p n c
                                            (i * s + q / k) (j * s + q mod k))
                                (seq 0 (k * k))))
                     (fofnat (k * k))))
      else None
  | _ => None
  end.

(** *** [nn.Sequential] over the library's layers *)
Inductive Layer : Type :=
| L_Conv2d (cv : Conv2d)
| L_BatchNorm2d (b : BatchNorm2d)
| L_ReLU
| L_Tanh
| L_Upsample (scale_factor : nat)
| L_AvgPool2d (kernel : nat) (stride : option nat) (padding : nat).

Definition Layer_forward (l : Layer) (x : Tensor F) : option (Tensor F) :=
  match l with
  | L_Conv2d cv => Conv2d_forward cv x
  | L_BatchNorm2d b => BatchNorm2d_forward b x
  | L_ReLU => Some (ReLU x)
  | L_Tanh => Some (Tanh x)
  | L_Upsample s => Upsample_forward s x
  | L_AvgPool2d k s p => AvgPool2d_forward k s p x
  end.

Fixpoint Sequential_forward (ls : list Layer) (x : Tensor F)
  : option (Tensor F) :=
  match ls with
  | [] => Some x
  | l :: ls' => y <- Layer_forward l x ;; Sequential_forward ls' y
  end.

(** [spectral_norm(module)] changes the module in place and returns it. *)
Definition spectral_norm_conv (cv : Conv2d) : Conv2d :=
  mkConv2d (conv_name cv) (in_channels cv) (out_channels cv) (kernel_size cv)
           (conv_stride cv) (conv_padding cv) (conv_bias cv) true.

Definition spectral_norm_linear (l : Linear) : Linear :=
  mkLinear (linear_name l) (in_features l) (out_features l) (linear_bias l) true.

End Layers.

(** ** The modules of [models/sngan.py] *)

(** Module-level globals. *)
Definition channels : nat := 3.
Definition bias : bool := true.

(** *** Generator side *)

Module ConditionalBatchNorm2d.

Record t : Type := mk {
  num_features : nat;
  bn : BatchNorm2d;
  embed_gamma : Linear;
  embed_beta : Linear
}.

Definition init (name : string) (num_features dim_embed : nat) : t :=
  mk num_features
     (mkBatchNorm2d (name ++ ".bn") num_features false)
     (mkLinear (name ++ ".embed_gamma") dim_embed num_features false false)
     (mkLinear (name ++ ".embed_beta") dim_embed num_features false false).

Section Forward.
Context {F : Type} {SF : Scalar F}.
Variables (theta : Params (F := F)) (training : bool).

Definition forward (self : t) (x y : Tensor F) : option (Tensor F) :=
  out <- BatchNorm2d_forward theta training (bn self) x ;;
  g <- Linear_forward theta training (embed_gamma self) y ;;
  gamma <- view g [-1; Z.of_nat (num_features self); 1; 1]%Z ;;
  b <- Linear_forward theta training (embed_beta self) y ;;
  beta <- view b [-1; Z.of_nat (num_features self); 1; 1]%Z ;;
  scaled <- tensor_mul out gamma ;;
  acc <- tensor_add out scaled ;;
  tensor_add acc beta.

End Forward.
End ConditionalBatchNorm2d.

Module ResBlockGenerator.

Record t : Type := mk {
  conv1 : Conv2d;
  conv2 : Conv2d;
  condgn1 : ConditionalBatchNorm2d.t;
  condgn2 : ConditionalBatchNorm2d.t;
  relu : Layer;
  upsample : Layer;
  model : list Layer;
  bypass_conv : Conv2d;
  bypass : list Layer
}.

Definition init (name : string) (in_channels out_channels dim_embed : nat)
  (bias : bool) : t :=
  let conv1 := mkConv2d (name ++ ".conv1") in_channels out_channels 3 1 1 bias false in
  let conv2 := mkConv2d (name ++ ".conv2") out_channels out_channels 3 1 1 bias false in
  (* conditional case *)
  let condgn1 := ConditionalBatchNorm2d.init (name ++ ".condgn1") in_channels dim_embed in
  let condgn2 := ConditionalBatchNorm2d.init (name ++ ".condgn2") out_channels dim_embed in
  let relu := L_ReLU in
  let upsample := L_Upsample 2 in
  (* unconditional case *)
  let model :=
    [ L_BatchNorm2d (mkBatchNorm2d (name ++ ".model.0") in_channels true);
      L_ReLU;
      L_Upsample 2;
      L_Conv2d conv1;
      L_BatchNorm2d (mkBatchNorm2d (name ++ ".model.4") out_channels true);
      L_ReLU;
      L_Conv2d conv2 ] in
  let bypass_conv := mkConv2d (name ++ ".bypass_conv") in_channels out_channels 1 1 0 bias false in
  let bypass := [ L_Upsample 2; L_Conv2d bypass_conv ] in
  mk conv1 conv2 condgn1 condgn2 relu upsample model bypass_conv bypass.

Section Forward.
Context {F : Type} {SF : Scalar F}.
Variables (theta : Params (F := F)) (training : bool).

Definition forward (self : t) (x : Tensor F) (h : option (Tensor F))
  : option (Tensor F) :=
  match h with
  | Some h =>
      out <- ConditionalBatchNorm2d.forward theta training (condgn1 self) x h ;;
      out <- Layer_forward theta training (relu self) out ;;
      out <- Layer_forward theta training (upsample self) out ;;
      out <- Conv2d_forward theta training (conv1 self) out ;;
      out <- ConditionalBatchNorm2d.forward theta training (condgn2 self) out h ;;
      out <- Layer_forward theta training (relu self) out ;;
      out <- Conv2d_forward theta training (conv2 self) out ;;
      skip <- Sequential_forward theta training (bypass self) x ;;
      tensor_add out skip
  | None =>
      out <- Sequential_forward theta training (model self) x ;;
      skip <- Sequential_forward theta training (bypass self) x ;;
      tensor_add out skip
  end.

End Forward.
End ResBlockGenerator.

Module SnganGenerator.

Record t : Type := mk {
  z_dim : nat;
  dim_embed : nat;
  gen_ch : nat;
  dense : Linear;
  genblock0 : ResBlockGenerator.t;
  genblock1 : ResBlockGenerator.t;
  genblock2 : ResBlockGenerator.t;
  genblock3 : ResBlockGenerator.t;
  final : list Layer
}.

Definition init (nz dim_embed gen_ch : nat) : t :=
  let dense := mkLinear "dense" nz (4 * 4 * gen_ch * 16) true false in
  let final := mkConv2d "final.2" gen_ch channels 3 1 1 bias false in
  let genblock0 := ResBlockGenerator.init "genblock0" (gen_ch * 16) (gen_ch * 8) dim_embed true in
  let genblock1 := ResBlockGenerator.init "genblock1" (gen_ch * 8) (gen_ch * 4) dim_embed true in
  let genblock2 := ResBlockGenerator.init "genblock2" (gen_ch * 4) (gen_ch * 2) dim_embed true in
  let genblock3 := ResBlockGenerator.init "genblock3" (gen_ch * 2) gen_ch dim_embed true in
  let final :=
    [ L_BatchNorm2d (mkBatchNorm2d "final.0" gen_ch true);
      L_ReLU;
      L_Conv2d final;
      L_Tanh ] in
  mk nz dim_embed gen_ch dense genblock0 genblock1 genblock2 genblock3 final.

(** The defaults of the constructor. *)
Definition default : t := init 256 128 64.

Section Forward.
Context {F : Type} {SF : Scalar F}.
Variables (theta : Params (F := F)) (training : bool).

Definition forward (self : t) (z : Tensor F) (h : option (Tensor F))
  : option (Tensor F) :=
  n <- size z 0 ;;
  d <- size z 1 ;;
  z <- view z [Z.of_nat n; Z.of_nat d] ;;
  out <- Linear_forward theta training (dense self) z ;;
  out <- view out [-1; Z.of_nat (gen_ch self * 16); 4; 4]%Z ;;
  out <- ResBlockGenerator.forward theta training (genblock0 self) out h ;;
  out <- ResBlockGenerator.forward theta training (genblock1 self) out h ;;
  out <- ResBlockGenerator.forward theta training (genblock2 self) out h ;;
  out <- ResBlockGenerator.forward theta training (genblock3 self) out h ;;
  Sequential_forward theta training (final self) out.

End Forward.
End SnganGenerator.

(** *** Discriminator side *)

Module ResBlockDiscriminator.

Record t : Type := mk {
  conv1 : Conv2d;
  conv2 : Conv2d;
  model : list Layer;
  bypass_conv : Conv2d;
  bypass : list Layer
}.

Definition init (name : string) (in_channels out_channels stride : nat) : t :=
  let conv1 := mkConv2d (name ++ ".conv1") in_channels out_channels 3 1 1 bias false in
  let conv2 := mkConv2d (name ++ ".conv2") out_channels out_channels 3 1 1 bias false in
  let conv1 := spectral_norm_conv conv1 in
  let conv2 := spectral_norm_conv conv2 in
  let model :=
    if stride =? 1 then
      [ L_ReLU; L_Conv2d conv1; L_ReLU; L_Conv2d conv2 ]
    else
      [ L_ReLU; L_Conv2d conv1; L_ReLU; L_Conv2d conv2;
        L_AvgPool2d 2 (Some stride) 0 ] in
  let bypass_conv := mkConv2d (name ++ ".bypass_conv") in_channels out_channels 1 1 0 bias false in
  let bypass_conv := spectral_norm_conv bypass_conv in
  let bypass :=
    if negb (stride =? 1) then
      [ L_Conv2d bypass_conv; L_AvgPool2d 2 (Some stride) 0 ]
    else
      [ L_Conv2d bypass_conv ] in
  mk conv1 conv2 model bypass_conv bypass.

Section Forward.
Context {F : Type} {SF : Scalar F}.
Variables (theta : Params (F := F)) (training : bool).

Definition forward (self : t) (x : Tensor F) : option (Tensor F) :=
  main <- Sequential_forward theta training (model self) x ;;
  skip <- Sequential_forward theta training (bypass self) x ;;
  tensor_add main skip.

End Forward.
End ResBlockDiscriminator.

(** special ResBlock just for the first layer of the discriminator *)
Module FirstResBlockDiscriminator.

Record t : Type := mk {
  conv1 : Conv2d;
  conv2 : Conv2d;
  bypass_conv : Conv2d;
  model : list Layer;
  bypass : list Layer
}.

Definition init (name : string) (in_channels out_channels stride : nat) : t :=
  let conv1 := mkConv2d (name ++ ".conv1") in_channels out_channels 3 1 1 bias false in
  let conv2 := mkConv2d (name ++ ".conv2") out_channels out_channels 3 1 1 bias false in
  let bypass_conv := mkConv2d (name ++ ".bypass_conv") in_channels out_channels 1 1 0 bias false in
  let conv1 := spectral_norm_conv conv1 in
  let conv2 := spectral_norm_conv conv2 in
  let bypass_conv := spectral_norm_conv bypass_conv in
  (* we don't want to apply ReLU activation to raw image before convolution
     transformation. *)
  let model :=
    [ L_Conv2d conv1; L_ReLU; L_Conv2d conv2; L_AvgPool2d 2 None 0 ] in
  let bypass :=
    [ L_AvgPool2d 2 None 0; L_Conv2d bypass_conv ] in
  mk conv1 conv2 bypass_conv model bypass.

Section Forward.
Context {F : Type} {SF : Scalar F}.
Variables (theta : Params (F := F)) (training : bool).

Definition forward (self : t) (x : Tensor F) : option (Tensor F) :=
  main <- Sequential_forward theta training (model self) x ;;
  skip <- Sequential_forward theta training (bypass self) x ;;
  tensor_add main skip.

End Forward.
End FirstResBlockDiscriminator.

Module SnganDiscriminator.

(** The members of the discriminator's [nn.Sequential] containers. *)
Inductive Block : Type :=
| B_First (b : FirstResBlockDiscriminator.t)
| B_Res (b : ResBlockDiscriminator.t)
| B_ReLU.

Record t : Type := mk {
  dim_embed : nat;
  disc_ch : nat;
  discblock1 : list Block;
  discblock2 : ResBlockDiscriminator.t;
  discblock3 : list Block;
  linear1 : Linear;
  linear2 : Linear
}.

Definition init (dim_embed disc_ch : nat) : t :=
  let discblock1 :=
    [ B_First (FirstResBlockDiscriminator.init "discblock1.0" channels disc_ch 2);  (* 64--->32 *)
      B_Res (ResBlockDiscriminator.init "discblock1.1" disc_ch (disc_ch * 2) 2);     (* 32--->16 *)
      B_Res (ResBlockDiscriminator.init "discblock1.2" (disc_ch * 2) (disc_ch * 4) 2) (* 16--->8 *)
    ] in
  let discblock2 :=
    ResBlockDiscriminator.init "discblock2" (disc_ch * 4) (disc_ch * 8) 2 in        (* 8--->4 *)
  let discblock3 :=
    [ B_Res (ResBlockDiscriminator.init "discblock3.0" (disc_ch * 8) (disc_ch * 16) 1); (* 4--->4 *)
      B_ReLU ] in
  let linear1 := mkLinear "linear1" (disc_ch * 16 * 4 * 4) 1 true false in
  let linear1 := spectral_norm_linear linear1 in
  let linear2 := mkLinear "linear2" dim_embed (disc_ch * 16 * 4 * 4) false false in
  let linear2 := spectral_norm_linear linear2 in
  mk dim_embed disc_ch discblock1 discblock2 discblock3 linear1 linear2.

Definition default : t := init 128 64.

Section Forward.
Context {F : Type} {SF : Scalar F}.
Variables (theta : Params (F := F)) (training : bool).

Definition Block_forward (b : Block) (x : Tensor F) : option (Tensor F) :=
  match b with
  | B_First b => FirstResBlockDiscriminator.forward theta training b x
  | B_Res b => ResBlockDiscriminator.forward theta training b x
  | B_ReLU => Some (ReLU x)
  end.

Fixpoint Blocks_forward (bs : list Block) (x : Tensor F) : option (Tensor F) :=
  match bs with
  | [] => Some x
  | b :: bs' => y <- Block_forward b x ;; Blocks_forward bs' y
  end.

(** The feature map handed to [view]: the three block groups in turn. *)
Definition features (self : t) (x : Tensor F) : option (Tensor F) :=
  output <- Blocks_forward (discblock1 self) x ;;
  output <- ResBlockDiscriminator.forward theta training (discblock2 self) output ;;
  Blocks_forward (discblock3 self) output.

Definition forward (self : t) (x h : Tensor F) : option (Tensor F) :=
  output <- features self x ;;
  output <- view output [-1; Z.of_nat (disc_ch self * 16 * 4 * 4)]%Z ;;
  projected <- Linear_forward theta training (linear2 self) h ;;
  weighted <- tensor_mul output projected ;;
  output_h <- sum_dim1_keepdim weighted ;;
  score <- Linear_forward theta training (linear1 self) output ;;
  output <- tensor_add score output_h ;;
  view output [-1; 1]%Z.

End Forward.
End SnganDiscriminator.

(** ** [Module.parameters()] and [get_parameter_number] *)

(** A parameter as [named_parameters()] lists it. *)
Record NamedParameter : Type := mkNamedParameter {
  param_name : string;
  param_shape : list nat;
  requires_grad : bool
}.

Definition weight_name (name : string) (sn : bool) : string :=
  (name ++ (if sn then ".weight_orig" else ".weight"))%string.

Definition Linear_parameters (l : Linear) : list NamedParameter :=
  mkNamedParameter (weight_name (linear_name l) (linear_sn l))
              [out_features l; in_features l] true
  :: (if linear_bias l
      then [mkNamedParameter (linear_name l ++ ".bias") [out_features l] true]
      else []).

Definition Conv2d_parameters (cv : Conv2d) : list NamedParameter :=
  mkNamedParameter (weight_name (conv_name cv) (conv_sn cv))
              [out_channels cv; in_channels cv; kernel_size cv; kernel_size cv]
              true
  :: (if conv_bias cv
      then [mkNamedParameter (conv_name cv ++ ".bias") [out_channels cv] true]
      else []).

Definition BatchNorm2d_parameters (b : BatchNorm2d) : list NamedParameter :=
  if affine b
  then [ mkNamedParameter (bn_name b ++ ".weight") [num_features b] true;
         mkNamedParameter (bn_name b ++ ".bias") [num_features b] true ]
  else [].

Definition Layer_parameters (l : Layer) : list NamedParameter :=
  match l with
  | L_Conv2d cv => Conv2d_parameters cv
  | L_BatchNorm2d b => BatchNorm2d_parameters b
  | _ => []
  end.

Definition Sequential_parameters (ls : list Layer) : list NamedParameter :=
  flat_map Layer_parameters ls.

(** Every parameter once, at its first occurrence, however many attributes
    lead to it. *)
Fixpoint unique (seen : list string) (ps : list NamedParameter) : list NamedParameter :=
  match ps with
  | [] => []
  | p :: ps' =>
      if existsb (String.eqb (param_name p)) seen then unique seen ps'
      else p :: unique (param_name p :: seen) ps'
  end.

(** The parameters reached from each module, attribute by attribute in the
    order of [__init__]. *)
Definition ConditionalBatchNorm2d_reached (m : ConditionalBatchNorm2d.t)
  : list NamedParameter :=
  BatchNorm2d_parameters (ConditionalBatchNorm2d.bn m)
  ++ Linear_parameters (ConditionalBatchNorm2d.embed_gamma m)
  ++ Linear_parameters (ConditionalBatchNorm2d.embed_beta m).

Definition ResBlockGenerator_reached (m : ResBlockGenerator.t)
  : list NamedParameter :=
  Conv2d_parameters (ResBlockGenerator.conv1 m)
  ++ Conv2d_parameters (ResBlockGenerator.conv2 m)
  ++ ConditionalBatchNorm2d_reached (ResBlockGenerator.condgn1 m)
  ++ ConditionalBatchNorm2d_reached (ResBlockGenerator.condgn2 m)
  ++ Layer_parameters (ResBlockGenerator.relu m)
  ++ Layer_parameters (ResBlockGenerator.upsample m)
  ++ Sequential_parameters (ResBlockGenerator.model m)
  ++ Conv2d_parameters (ResBlockGenerator.bypass_conv m)
  ++ Sequential_parameters (ResBlockGenerator.bypass m).

Definition SnganGenerator_parameters (m : SnganGenerator.t) : list NamedParameter :=
  unique []
    (Linear_parameters (SnganGenerator.dense m)
     ++ Sequential_parameters (SnganGenerator.final m)
     ++ ResBlockGenerator_reached (SnganGenerator.genblock0 m)
     ++ ResBlockGenerator_reached (SnganGenerator.genblock1 m)
     ++ ResBlockGenerator_reached (SnganGenerator.genblock2 m)
     ++ ResBlockGenerator_reached (SnganGenerator.genblock3 m)).

Definition ResBlockDiscriminator_reached (m : ResBlockDiscriminator.t)
  : list NamedParameter :=
  Conv2d_parameters (ResBlockDiscriminator.conv1 m)
  ++ Conv2d_parameters (ResBlockDiscriminator.conv2 m)
  ++ Sequential_parameters (ResBlockDiscriminator.model m)
  ++ Conv2d_parameters (ResBlockDiscriminator.bypass_conv m)
  ++ Sequential_parameters (ResBlockDiscriminator.bypass m).

Definition FirstResBlockDiscriminator_reached
  (m : FirstResBlockDiscriminator.t) : list NamedParameter :=
  Conv2d_parameters (FirstResBlockDiscriminator.conv1 m)
  ++ Conv2d_parameters (FirstResBlockDiscriminator.conv2 m)
  ++ Conv2d_parameters (FirstResBlockDiscriminator.bypass_conv m)
  ++ Sequential_parameters (FirstResBlockDiscriminator.model m)
  ++ Sequential_parameters (FirstResBlockDiscriminator.bypass m).

Definition Block_reached (b : SnganDiscriminator.Block) : list NamedParameter :=
  match b with
  | SnganDiscriminator.B_First m => FirstResBlockDiscriminator_reached m
  | SnganDiscriminator.B_Res m => ResBlockDiscriminator_reached m
  | SnganDiscriminator.B_ReLU => []
  end.

Definition SnganDiscriminator_parameters (m : SnganDiscriminator.t)
  : list NamedParameter :=
  unique []
    (flat_map Block_reached (SnganDiscriminator.discblock1 m)
     ++ ResBlockDiscriminator_reached (SnganDiscriminator.discblock2 m)
     ++ flat_map Block_reached (SnganDiscriminator.discblock3 m)
     ++ Linear_parameters (SnganDiscriminator.linear1 m)
     ++ Linear_parameters (SnganDiscriminator.linear2 m)).

(** [get_parameter_number(net)], given [net.parameters()]. *)
Record ParameterNumber : Type := mkParameterNumber {
  Total : nat;
  Trainable : nat
}.

Definition get_parameter_number (ps : list NamedParameter) : ParameterNumber :=
  let total_num := list_sum (map (fun p => numel_of (param_shape p)) ps) in
  let trainable_num :=
    list_sum (map (fun p => numel_of (param_shape p))
                  (filter requires_grad ps)) in
  mkParameterNumber total_num trainable_num.

(** ** Vocabulary of the statements *)

Section Vocabulary.

Context {F : Type} {SF : Scalar F}.

(** [returns m s]: the call does not raise, and its result is a well-formed
    tensor of shape [s]. *)
Definition returns (m : option (Tensor F)) (s : list nat) : Prop :=
  exists y, m = Some y /\ shape y = s /\ wf y.

(** The label embedding handed to the generator: a [(N, dim_embed)] tensor,
    or [None]. *)
Definition embedding_ok (h : option (Tensor F)) (N E : nat) : Prop :=
  match h with
  | Some t => shape t = [N; E]
  | None => True
  end.

(** Two stores agree on the parameters and buffers of the module [m]:
    every entry whose qualified name starts with [m]. *)
Definition agree_under (m : string) (theta theta' : Params (F := F)) : Prop :=
  forall sfx i, theta (m ++ sfx)%string i = theta' (m ++ sfx)%string i.

(** The entries a layer of the library reads are those of its own module. *)
Definition Layer_agree (l : Layer) (theta theta' : Params (F := F)) : Prop :=
  match l with
  | L_Conv2d cv => agree_under (conv_name cv) theta theta'
  | L_BatchNorm2d b => agree_under (bn_name b) theta theta'
  | _ => True
  end.

(** The store with the entry named [k] replaced. *)
Definition override (theta : Params (F := F)) (k : string) (v : nat -> F)
  : Params (F := F) :=
  fun k' => if String.eqb k' k then v else theta k'.

(** What broadcasting makes of the leading dimensions [M] and [N] of two
    matrices with the same number of columns. *)
Definition joined_batch (M N : nat) : option nat :=
  if M =? N then Some M
  else if M =? 1 then Some N
  else if N =? 1 then Some M
  else None.

(** The entry named [k] belongs to the module [m]. *)
Definition under (m k : string) : Prop := exists sfx, k = (m ++ sfx)%string.

(** The output of a linear layer at row [r], column [j]. *)
Definition Linear_value (theta : Params (F := F)) (training : bool)
  (l : Linear) (x : Tensor F) (r j : nat) : F :=
  add_bias theta (linear_name l) (linear_bias l) j
    (dot (in_features l)
         (fun k => item x (r * in_features l + k))
         (weight theta training (linear_name l) (linear_sn l)
                 (out_features l) (in_features l) j)).

(** Whether a label embedding is given. *)
Definition conditioned (h : option (Tensor F)) : bool :=
  match h with Some _ => true | None => false end.

(** The modules a generator block reads for a given conditioning. *)
Definition block_agree (name : string) (conditional : bool)
  (theta theta' : Params (F := F)) : Prop :=
  agree_under (name ++ ".conv1") theta theta' /\
  agree_under (name ++ ".conv2") theta theta' /\
  agree_under (name ++ ".bypass_conv") theta theta' /\
  agree_under (name ++ (if conditional then ".condgn1" else ".model.0"))
              theta theta' /\
  agree_under (name ++ (if conditional then ".condgn2" else ".model.4"))
              theta theta'.

(** [nan] is handed on by the arithmetic, as IEEE 754's NaN is. *)
Record absorbing (nan : F) : Prop := mkAbsorbing {
  fadd_nan_l : forall v, fadd nan v = nan;
  fadd_nan_r : forall v, fadd v nan = nan;
  fsub_nan_l : forall v, fsub nan v = nan;
  fmul_nan_l : forall v, fmul nan v = nan;
  fmul_nan_r : forall v, fmul v nan = nan;
  fdiv_nan_l : forall v, fdiv nan v = nan;
  relu_nan : fmax fzero nan = nan;
  ftanh_nan : ftanh nan = nan
}.

(** The operation returns a well-formed tensor of shape [s] holding [nan]
    only. *)
Definition poisoned (nan : F) (m : option (Tensor F)) (s : list nat) : Prop :=
  exists y, m = Some y /\ shape y = s /\ wf y /\ Forall (fun v => v = nan) (data y).

End Vocabulary.

(** ** The paths of the blocks, as the description has them *)

Section Paths.

Context {F : Type} {SF : Scalar F}.
Variables (theta : Params (F := F)) (training : bool).

(** The unconditional path of a generator block as the description has it:
    plain batch-norm, activate, upsample, convolve, norm, activate, convolve,
    plus the bypass (upsample, 1x1 convolution) of the same input.  The two
    plain batch-norms are the members 0 and 4 of the block's [model]. *)
Definition unconditional_path (name : string) (in_channels out_channels : nat)
  (B : ResBlockGenerator.t) (x : Tensor F) : option (Tensor F) :=
  out <- BatchNorm2d_forward theta training
           (mkBatchNorm2d (name ++ ".model.0") in_channels true) x ;;
  out <- Upsample_forward 2 (ReLU out) ;;
  out <- Conv2d_forward theta training (ResBlockGenerator.conv1 B) out ;;
  out <- BatchNorm2d_forward theta training
           (mkBatchNorm2d (name ++ ".model.4") out_channels true) out ;;
  out <- Conv2d_forward theta training (ResBlockGenerator.conv2 B) (ReLU out) ;;
  skip <- Upsample_forward 2 x ;;
  skip <- Conv2d_forward theta training (ResBlockGenerator.bypass_conv B) skip ;;
  tensor_add out skip.

(** The generator with every block on its unconditional path. *)
Definition unconditional_generator (G : SnganGenerator.t) (N : nat)
  (z : Tensor F) : option (Tensor F) :=
  let ch := SnganGenerator.gen_ch G in
  z <- view z [Z.of_nat N; Z.of_nat (SnganGenerator.z_dim G)] ;;
  out <- Linear_forward theta training (SnganGenerator.dense G) z ;;
  out <- view out [-1; Z.of_nat (ch * 16); 4; 4]%Z ;;
  out <- unconditional_path "genblock0" (ch * 16) (ch * 8)
           (SnganGenerator.genblock0 G) out ;;
  out <- unconditional_path "genblock1" (ch * 8) (ch * 4)
           (SnganGenerator.genblock1 G) out ;;
  out <- unconditional_path "genblock2" (ch * 4) (ch * 2)
           (SnganGenerator.genblock2 G) out ;;
  out <- unconditional_path "genblock3" (ch * 2) ch
           (SnganGenerator.genblock3 G) out ;;
  Sequential_forward theta training (SnganGenerator.final G) out.

(** The first discriminator block as the description has it: main path
    convolve, activate, convolve, pool; bypass pool, convolve; their sum. *)
Definition first_block_paths (B : FirstResBlockDiscriminator.t)
  (x : Tensor F) : option (Tensor F) :=
  main <- Conv2d_forward theta training (FirstResBlockDiscriminator.conv1 B) x ;;
  main <- Conv2d_forward theta training
            (FirstResBlockDiscriminator.conv2 B) (ReLU main) ;;
  main <- AvgPool2d_forward 2 None 0 main ;;
  skip <- AvgPool2d_forward 2 None 0 x ;;
  skip <- Conv2d_forward theta training
            (FirstResBlockDiscriminator.bypass_conv B) skip ;;
  tensor_add main skip.

End Paths.

(** ** The real numbers as scalars

    Exact arithmetic: no rounding, no infinity, no NaN, and division is the
    total division of the reals.  A statement proved for every instance of
    [Scalar] holds of floating-point scalars as well; a statement made at
    [R] only is about this exact arithmetic. *)

#[export] Instance R_Scalar : Scalar R := {|
  fzero := 0%R;
  fadd := Rplus;
  fsub := Rminus;
  fmul := Rmult;
  fdiv := Rdiv;
  fmax := Rmax;
  fsqrt := sqrt;
  ftanh := Rtrigo_def.tanh;
  fofnat := INR;
  bn_eps := (1 / 100000)%R;
  sn_eps := (1 / 1000000000000)%R
|}.

(** Inputs used to instantiate the statements: all-zero parameters and
    tensors of zeros over the reals. *)
Definition zero_params : Params (F := R) := fun _ _ => 0%R.

Definition zeros (s : list nat) : Tensor R :=
  mkTensor s (repeat 0%R (numel_of s)).

(** ** Scalars with the special values of IEEE 754

    The tensor library computes in binary floating point, where an operation
    may return an infinity or NaN.  [ieee] adds these special values, with the
    arithmetic IEEE 754 gives them, to exact real arithmetic on the finite
    values: rounding, overflow of a finite result and the sign of zero are not
    modelled (a zero divisor counts as [+0]).  [max] is the one of
    [clamp_min] and [relu], which hands on a NaN. *)

Inductive ieee : Type :=
| Finite (r : R)
| PosInf
| NegInf
| NaN.

Definition ieee_opp (a : ieee) : ieee :=
  match a with
  | Finite r => Finite (- r)
  | PosInf => NegInf
  | NegInf => PosInf
  | NaN => NaN
  end.

Definition ieee_add (a b : ieee) : ieee :=
  match a, b with
  | NaN, _ | _, NaN => NaN
  | PosInf, NegInf | NegInf, PosInf => NaN
  | PosInf, _ | _, PosInf => PosInf
  | NegInf, _ | _, NegInf => NegInf
  | Finite x, Finite y => Finite (x + y)
  end.

Definition ieee_inf (positive : bool) : ieee :=
  if positive then PosInf else NegInf.

(** An infinity times a finite value, and a finite value over zero: the sign
    follows the finite value, and [inf * 0] and [0 / 0] are NaN. *)
Definition ieee_inf_scaled (positive : bool) (r : R) : ieee :=
  if Rlt_dec 0 r then ieee_inf positive
  else if Rlt_dec r 0 then ieee_inf (negb positive)
  else NaN.

Definition ieee_mul (a b : ieee) : ieee :=
  match a, b with
  | NaN, _ | _, NaN => NaN
  | Finite x, Finite y => Finite (x * y)
  | PosInf, Finite r | Finite r, PosInf => ieee_inf_scaled true r
  | NegInf, Finite r | Finite r, NegInf => ieee_inf_scaled false r
  | PosInf, PosInf | NegInf, NegInf => PosInf
  | PosInf, NegInf | NegInf, PosInf => NegInf
  end.

Definition ieee_div (a b : ieee) : ieee :=
  match a, b with
  | NaN, _ | _, NaN => NaN
  | Finite x, Finite y =>
      if Req_EM_T y 0 then ieee_inf_scaled true x else Finite (x / y)
  | Finite _, (PosInf | NegInf) => Finite 0
  | PosInf, Finite r => if Rlt_dec r 0 then NegInf else PosInf
  | NegInf, Finite r => if Rlt_dec r 0 then PosInf else NegInf
  | (PosInf | NegInf), (PosInf | NegInf) => NaN
  end.

Definition ieee_max (a b : ieee) : ieee :=
  match a, b with
  | NaN, _ | _, NaN => NaN
  | PosInf, _ | _, PosInf => PosInf
  | NegInf, v | v, NegInf => v
  | Finite x, Finite y => Finite (Rmax x y)
  end.

Definition ieee_sqrt (a : ieee) : ieee :=
  match a with
  | Finite r => if Rlt_dec r 0 then NaN else Finite (sqrt r)
  | PosInf => PosInf
  | NegInf | NaN => NaN
  end.

Definition ieee_tanh (a : ieee) : ieee :=
  match a with
  | Finite r => Finite (Rtrigo_def.tanh r)
  | PosInf => Finite 1
  | NegInf => Finite (-1)
  | NaN => NaN
  end.

#[export] Instance IEEE_Scalar : Scalar ieee | 100 := {|
  fzero := Finite 0;
  fadd := ieee_add;
  fsub := fun a b => ieee_add a (ieee_opp b);
  fmul := ieee_mul;
  fdiv := ieee_div;
  fmax := ieee_max;
  fsqrt := ieee_sqrt;
  ftanh := ieee_tanh;
  fofnat := fun n => Finite (INR n);
  bn_eps := Finite (1 / 100000);
  sn_eps := Finite (1 / 1000000000000)
|}.

(** A value of [[-1, 1]]; a value of [[-1, 1]] or NaN; a value [>= 0] or
    NaN. *)
Definition in_unit (v : ieee) : Prop :=
  match v with
  | Finite r => (-1 <= r <= 1)%R
  | _ => False
  end.

Definition unit_or_nan (v : ieee) : Prop := v = NaN \/ in_unit v.

Definition nonnegative_or_nan (v : ieee) : Prop :=
  match v with
  | Finite r => (0 <= r)%R
  | PosInf | NaN => True
  | NegInf => False
  end.

(** Finite parameters and inputs for the statements, and a tensor of NaN. *)
Definition unit_params : Params (F := ieee) := fun _ _ => Finite 1.

Definition full (s : list nat) (v : ieee) : Tensor ieee :=
  mkTensor s (repeat v (numel_of s)).

(** * Properties *)

(** ** Index arithmetic *)

Lemma nth_map_seq (A : Type) (f : nat -> A) (n o : nat) (d : A) :
  o < n -> nth o (map f (seq 0 n)) d = f o.
Proof.
  intros Ho.
  rewrite (nth_indep _ d (f 0)) by (rewrite length_map, length_seq; exact Ho).
  rewrite (map_nth f (seq 0 n) 0 o), seq_nth by exact Ho.
  reflexivity.
Qed.

Lemma mixed_radix_lt (A B a b : nat) : a < A -> b < B -> a * B + b < A * B.
Proof. intros Ha Hb. nia. Qed.

Lemma offset4_lt (N C H W n c i j : nat) :
  n < N -> c < C -> i < H -> j < W -> offset4 C H W n c i j < N * C * H * W.
Proof.
  unfold offset4. intros Hn Hc Hi Hj.
  repeat apply mixed_radix_lt; assumption.
Qed.

Lemma div_small_add (a b q : nat) : b < q -> (a * q + b) / q = a.
Proof.
  intros Hb. rewrite Nat.add_comm, Nat.div_add by lia.
  rewrite Nat.div_small by exact Hb. reflexivity.
Qed.

Lemma mod_small_add (a b q : nat) : b < q -> (a * q + b) mod q = b.
Proof.
  intros Hb. rewrite Nat.add_comm, Nat.Div0.mod_add.
  apply Nat.mod_small; exact Hb.
Qed.

(** Decoding a rank 4 offset gives back its four indices. *)
Lemma offset4_decode (C H W n c i j : nat) :
  c < C -> i < H -> j < W ->
  let o := offset4 C H W n c i j in
  o / (C * H * W) = n /\ (o / (H * W)) mod C = c /\
  (o / W) mod H = i /\ o mod W = j.
Proof.
  intros Hc Hi Hj o. subst o. unfold offset4.
  assert (E1 : ((n * C + c) * H + i) * W + j = n * (C * H * W) + ((c * H + i) * W + j)) by ring.
  assert (E2 : ((n * C + c) * H + i) * W + j = (n * C + c) * (H * W) + (i * W + j)) by ring.
  assert (B1 : (c * H + i) * W + j < C * H * W)
    by (repeat apply mixed_radix_lt; assumption).
  assert (B2 : i * W + j < H * W) by (apply mixed_radix_lt; assumption).
  repeat split.
  - rewrite E1. apply div_small_add; exact B1.
  - rewrite E2, div_small_add by exact B2. apply mod_small_add; exact Hc.
  - rewrite div_small_add by exact Hj. apply mod_small_add; exact Hi.
  - apply mod_small_add; exact Hj.
Qed.

Section TensorFacts.

Context {F : Type} {SF : Scalar F}.

Lemma tabulate_wf (s : list nat) (f : nat -> F) : wf (tabulate s f).
Proof. unfold wf, numel, tabulate; simpl. rewrite length_map, length_seq. reflexivity. Qed.

Lemma item_tabulate (s : list nat) (f : nat -> F) (o : nat) :
  o < numel_of s -> item (tabulate s f) o = f o.
Proof. intros Ho. unfold item, tabulate; simpl. apply nth_map_seq; exact Ho. Qed.

Lemma get4_tabulate4 (N C H W : nat) (g : nat -> nat -> nat -> nat -> F)
  (n c i j : nat) :
  n < N -> c < C -> i < H -> j < W ->
  get4 (tabulate4 N C H W g) n c i j = g n c i j.
Proof.
  intros Hn Hc Hi Hj. unfold get4, tabulate4. cbn [shape tabulate].
  rewrite item_tabulate.
  - destruct (offset4_decode n Hc Hi Hj) as (-> & -> & -> & ->). reflexivity.
  - cbn [numel_of fold_right]. pose proof (offset4_lt Hn Hc Hi Hj). lia.
Qed.

Lemma get2_tabulate (N D : nat) (g : nat -> nat -> F) (r k : nat) :
  r < N -> k < D ->
  get2 (tabulate [N; D] (fun o => g (o / D) (o mod D))) r k = g r k.
Proof.
  intros Hr Hk. unfold get2. cbn [shape tabulate].
  rewrite item_tabulate.
  - rewrite div_small_add, mod_small_add by exact Hk. reflexivity.
  - cbn [numel_of fold_right]. pose proof (mixed_radix_lt Hr Hk). lia.
Qed.

Lemma tensor_map_wf (f : F -> F) (t : Tensor F) : wf t -> wf (tensor_map f t).
Proof. unfold wf, numel, tensor_map; simpl. rewrite length_map. trivial. Qed.

Lemma tensor_map_Forall (P : F -> Prop) (f : F -> F) (t : Tensor F) :
  (forall v, P (f v)) -> Forall P (data (tensor_map f t)).
Proof.
  intros Hf. unfold tensor_map; simpl. apply Forall_forall.
  intros v Hv. apply in_map_iff in Hv. destruct Hv as (w & <- & _). apply Hf.
Qed.

(** *** [view] *)

Lemma filter_known_of_nat (ds : list nat) :
  filter (fun d => negb (d =? -1)%Z) (map Z.of_nat ds) = map Z.of_nat ds.
Proof.
  induction ds as [|d ds IH]; simpl; [reflexivity|].
  destruct (Z.eqb_spec (Z.of_nat d) (-1)) as [E|_]; [lia|]. simpl. now rewrite IH.
Qed.

Lemma filter_infer_of_nat (ds : list nat) :
  filter (fun d => (d =? -1)%Z) (map Z.of_nat ds) = [].
Proof.
  induction ds as [|d ds IH]; simpl; [reflexivity|].
  destruct (Z.eqb_spec (Z.of_nat d) (-1)) as [E|_]; [lia|]. exact IH.
Qed.

Lemma existsb_bad_of_nat (ds : list nat) :
  existsb (fun d => (d <? -1)%Z) (map Z.of_nat ds) = false.
Proof.
  induction ds as [|d ds IH]; simpl; [reflexivity|].
  destruct (Z.ltb_spec (Z.of_nat d) (-1)) as [E|_]; [lia|]. exact IH.
Qed.

Lemma to_nat_of_nat_list (ds : list nat) : map Z.to_nat (map Z.of_nat ds) = ds.
Proof.
  induction ds as [|d ds IH]; simpl; [reflexivity|].
  now rewrite Nat2Z.id, IH.
Qed.

Lemma infer_of_nat_list (q : nat) (ds : list nat) :
  map (fun d => if (d =? -1)%Z then q else Z.to_nat d) (map Z.of_nat ds) = ds.
Proof.
  induction ds as [|d ds IH]; simpl; [reflexivity|].
  destruct (Z.eqb_spec (Z.of_nat d) (-1)) as [E|_]; [lia|].
  now rewrite Nat2Z.id, IH.
Qed.

(** [t.view(-1, d1, ..., dk)]: the leading dimension is the quotient. *)
Lemma view_infer (t : Tensor F) (ds : list nat) (n : nat) :
  0 < numel_of ds -> numel t = n * numel_of ds ->
  view t ((-1)%Z :: map Z.of_nat ds) = Some (mkTensor (n :: ds) (data t)).
Proof.
  intros Hpos Hn. unfold view.
  cbn [existsb filter map].
  change (-1 <? -1)%Z with false. change (-1 =? -1)%Z with true.
  cbn [negb orb].
  rewrite existsb_bad_of_nat, filter_known_of_nat, filter_infer_of_nat,
    to_nat_of_nat_list, infer_of_nat_list.
  cbn [length]. rewrite Hn, Nat.Div0.mod_mul, Nat.div_mul by lia.
  destruct (Nat.ltb_spec 0 (numel_of ds)) as [_|E]; [|lia].
  reflexivity.
Qed.

(** [t.view(d1, ..., dk)] with every dimension given. *)
Lemma view_exact (t : Tensor F) (ds : list nat) :
  numel t = numel_of ds ->
  view t (map Z.of_nat ds) = Some (mkTensor ds (data t)).
Proof.
  intros Hn. unfold view.
  rewrite existsb_bad_of_nat, filter_known_of_nat, filter_infer_of_nat,
    to_nat_of_nat_list.
  cbn [length]. rewrite Hn, Nat.eqb_refl. reflexivity.
Qed.

End TensorFacts.

(** ** What each primitive returns *)

Lemma broadcast_rev_same (s : list nat) : broadcast_rev s s = Some s.
Proof.
  induction s as [|d s IH]; simpl; [reflexivity|].
  rewrite IH; simpl. now rewrite Nat.eqb_refl.
Qed.

Lemma broadcast_shapes_same (s : list nat) : broadcast_shapes s s = Some s.
Proof.
  unfold broadcast_shapes. rewrite broadcast_rev_same; simpl.
  now rewrite rev_involutive.
Qed.

(** A per-sample, per-channel tensor broadcasts over a feature map. *)
Lemma broadcast_shapes_channel (N C H W : nat) :
  broadcast_shapes [N; C; H; W] [N; C; 1; 1] = Some [N; C; H; W].
Proof.
  unfold broadcast_shapes. cbn [rev app broadcast_rev bind].
  rewrite !Nat.eqb_refl. cbn [bind].
  destruct (Nat.eqb_spec H 1) as [->|_], (Nat.eqb_spec W 1) as [->|_];
    reflexivity.
Qed.

Section Returns.

Context {F : Type} {SF : Scalar F}.
Variables (theta : Params (F := F)) (training : bool).

Lemma returns_Some (y : Tensor F) (s : list nat) :
  shape y = s -> wf y -> returns (Some y) s.
Proof. intros Hs Hw. exists y. auto. Qed.

Lemma returns_bind (m : option (Tensor F)) (k : Tensor F -> option (Tensor F))
  (s1 s : list nat) :
  returns m s1 ->
  (forall y, shape y = s1 -> wf y -> returns (k y) s) ->
  returns (bind m k) s.
Proof.
  intros (y & -> & Hs & Hw) Hk. simpl. apply Hk; assumption.
Qed.

(** A step that returns does not hide a later exception. *)
Lemma returns_bind_None (A : Type) (m : option (Tensor F))
  (k : Tensor F -> option A) (s1 : list nat) :
  returns m s1 ->
  (forall y, shape y = s1 -> wf y -> k y = None) ->
  bind m k = None.
Proof.
  intros (y & -> & Hs & Hw) Hk. simpl. apply Hk; assumption.
Qed.

Lemma returns_tabulate (s : list nat) (f : nat -> F) :
  returns (Some (tabulate s f)) s.
Proof. apply returns_Some; [reflexivity | apply tabulate_wf]. Qed.

Lemma returns_tabulate4 (N C H W : nat) (g : nat -> nat -> nat -> nat -> F) :
  returns (Some (tabulate4 N C H W g)) [N; C; H; W].
Proof. apply returns_tabulate. Qed.

Lemma view_infer_returns (t : Tensor F) (ds : list nat) (n : nat) :
  wf t -> 0 < numel_of ds -> numel t = n * numel_of ds ->
  returns (view t ((-1)%Z :: map Z.of_nat ds)) (n :: ds).
Proof.
  intros Hw Hpos Hn. rewrite (@view_infer _ t ds n Hpos Hn).
  apply returns_Some; [reflexivity|].
  unfold wf, numel in *; simpl. rewrite Hw, Hn. reflexivity.
Qed.

Lemma Linear_returns (l : Linear) (x : Tensor F) (N : nat) :
  shape x = [N; in_features l] ->
  returns (Linear_forward theta training l x) [N; out_features l].
Proof.
  intros Hx. unfold Linear_forward. rewrite Hx. cbn [rev app].
  rewrite Nat.eqb_refl. apply returns_tabulate.
Qed.

Lemma Conv2d_returns (cv : Conv2d) (x : Tensor F) (N H W : nat) :
  shape x = [N; in_channels cv; H; W] ->
  0 < conv_stride cv ->
  kernel_size cv <= H + 2 * conv_padding cv ->
  kernel_size cv <= W + 2 * conv_padding cv ->
  returns (Conv2d_forward theta training cv x)
    [N; out_channels cv;
     (H + 2 * conv_padding cv - kernel_size cv) / conv_stride cv + 1;
     (W + 2 * conv_padding cv - kernel_size cv) / conv_stride cv + 1].
Proof.
  intros Hx Hs Hh Hw. unfold Conv2d_forward. rewrite Hx.
  rewrite Nat.eqb_refl.
  destruct (Nat.ltb_spec 0 (conv_stride cv)) as [_|E]; [|lia].
  destruct (Nat.leb_spec (kernel_size cv) (H + 2 * conv_padding cv)) as [_|E]; [|lia].
  destruct (Nat.leb_spec (kernel_size cv) (W + 2 * conv_padding cv)) as [_|E]; [|lia].
  cbn [andb]. apply returns_tabulate.
Qed.

(** A stride 1 convolution with [2 * padding + 1 = kernel] keeps the
    resolution: the 3x3/padding 1 and the 1x1/padding 0 of this file. *)
Lemma Conv2d_same_returns (cv : Conv2d) (x : Tensor F) (N C H W : nat) :
  shape x = [N; C; H; W] -> C = in_channels cv ->
  conv_stride cv = 1 -> kernel_size cv = 2 * conv_padding cv + 1 ->
  0 < H -> 0 < W ->
  returns (Conv2d_forward theta training cv x) [N; out_channels cv; H; W].
Proof.
  intros Hx -> Hs Hk Hh Hw.
  pose proof (@Conv2d_returns cv x N H W Hx) as R.
  rewrite Hs, Hk in R. rewrite !Nat.div_1_r in R.
  replace (H + 2 * conv_padding cv - (2 * conv_padding cv + 1) + 1) with H in R by lia.
  replace (W + 2 * conv_padding cv - (2 * conv_padding cv + 1) + 1) with W in R by lia.
  apply R; lia.
Qed.

Lemma BatchNorm2d_returns (b : BatchNorm2d) (x : Tensor F) (N C H W : nat) :
  shape x = [N; C; H; W] -> C = num_features b ->
  N * H * W <> 1 ->
  returns (BatchNorm2d_forward theta training b x) [N; C; H; W].
Proof.
  intros Hx -> Hcnt. unfold BatchNorm2d_forward. rewrite Hx.
  rewrite Nat.eqb_refl. cbn [negb].
  destruct (Nat.eqb_spec (N * H * W) 1) as [E|_]; [contradiction|].
  rewrite andb_false_r. apply returns_tabulate.
Qed.

Lemma Upsample_returns (scale : nat) (x : Tensor F) (N C H W : nat) :
  shape x = [N; C; H; W] -> 0 < C -> 0 < H -> 0 < W -> 0 < scale ->
  returns (Upsample_forward scale x) [N; C; H * scale; W * scale].
Proof.
  intros Hx Hc Hh Hw Hs. unfold Upsample_forward. rewrite Hx.
  destruct (Nat.ltb_spec 0 C) as [_|E]; [|lia].
  destruct (Nat.ltb_spec 0 H) as [_|E]; [|lia].
  destruct (Nat.ltb_spec 0 W) as [_|E]; [|lia].
  destruct (Nat.ltb_spec 0 scale) as [_|E]; [|lia].
  cbn [andb]. apply returns_tabulate.
Qed.

(** [nn.AvgPool2d(2)] and [nn.AvgPool2d(2, stride=2, padding=0)]. *)
Lemma AvgPool2d_2_returns (stride : option nat) (x : Tensor F) (N C H W : nat) :
  shape x = [N; C; H; W] -> stride = None \/ stride = Some 2 ->
  2 <= H -> 2 <= W ->
  returns (AvgPool2d_forward 2 stride 0 x) [N; C; H / 2; W / 2].
Proof.
  intros Hx Hs Hh Hw. unfold AvgPool2d_forward. rewrite Hx.
  replace (match stride with Some s => s | None => 2 end) with 2
    by (destruct Hs as [-> | ->]; reflexivity).
  rewrite !Nat.add_0_r.
  destruct (Nat.leb_spec 2 H) as [_|E]; [|lia].
  destruct (Nat.leb_spec 2 W) as [_|E]; [|lia].
  cbn [Nat.ltb Nat.leb Nat.mul Nat.add andb].
  replace ((H - 2) / 2 + 1) with (H / 2).
  2:{ replace H with ((H - 2) + 1 * 2) at 1 by lia. now rewrite Nat.div_add by lia. }
  replace ((W - 2) / 2 + 1) with (W / 2).
  2:{ replace W with ((W - 2) + 1 * 2) at 1 by lia. now rewrite Nat.div_add by lia. }
  apply returns_tabulate.
Qed.

Lemma ReLU_returns (x : Tensor F) (s : list nat) :
  shape x = s -> wf x -> returns (Some (ReLU x)) s.
Proof. intros Hx Hw. apply returns_Some; [exact Hx | apply tensor_map_wf; exact Hw]. Qed.

Lemma broadcast2_returns (op : F -> F -> F) (a b : Tensor F) (s : list nat) :
  broadcast_shapes (shape a) (shape b) = Some s ->
  returns (broadcast2 op a b) s.
Proof.
  intros Hb. unfold broadcast2. rewrite Hb. cbn [bind]. apply returns_tabulate.
Qed.

Lemma tensor_add_same_returns (a b : Tensor F) (s : list nat) :
  shape a = s -> shape b = s -> returns (tensor_add a b) s.
Proof.
  intros Ha Hb. apply broadcast2_returns. rewrite Ha, Hb.
  apply broadcast_shapes_same.
Qed.

End Returns.

(** ** The generator's modules *)

Section GeneratorShapes.

Context {F : Type} {SF : Scalar F}.
Variables (theta : Params (F := F)) (training : bool).

Lemma count_doubled (N H W : nat) : N * (H * 2) * (W * 2) <> 1.
Proof.
  intros E. assert (E4 : N * (H * 2) * (W * 2) = 4 * (N * H * W)) by ring. lia.
Qed.

Lemma channel_view_returns (g : Tensor F) (N C : nat) :
  shape g = [N; C] -> wf g -> 0 < C ->
  returns (view g [-1; Z.of_nat C; 1; 1]%Z) [N; C; 1; 1].
Proof.
  intros Hg Wg Hc.
  apply (@view_infer_returns _ g [C; 1; 1] N Wg).
  - cbn [numel_of fold_right]. lia.
  - unfold numel. rewrite Hg. cbn [numel_of fold_right]. lia.
Qed.

Lemma ConditionalBatchNorm2d_returns (name : string) (C E N H W : nat)
  (x y : Tensor F) :
  shape x = [N; C; H; W] -> shape y = [N; E] ->
  0 < C -> N * H * W <> 1 ->
  returns (ConditionalBatchNorm2d.forward theta training
             (ConditionalBatchNorm2d.init name C E) x y)
          [N; C; H; W].
Proof.
  intros Hx Hy Hc Hcnt. unfold ConditionalBatchNorm2d.forward.
  cbn [ConditionalBatchNorm2d.init ConditionalBatchNorm2d.bn
       ConditionalBatchNorm2d.embed_gamma ConditionalBatchNorm2d.embed_beta
       ConditionalBatchNorm2d.num_features].
  apply returns_bind with (s1 := [N; C; H; W]).
  { apply BatchNorm2d_returns; [exact Hx | reflexivity | exact Hcnt]. }
  intros out Hout _.
  apply returns_bind with (s1 := [N; C]).
  { apply (Linear_returns theta training
             (mkLinear (name ++ ".embed_gamma") E C false false)); exact Hy. }
  intros g Hg Wg.
  apply returns_bind with (s1 := [N; C; 1; 1]).
  { apply channel_view_returns; assumption. }
  intros gamma Hgamma _.
  apply returns_bind with (s1 := [N; C]).
  { apply (Linear_returns theta training
             (mkLinear (name ++ ".embed_beta") E C false false)); exact Hy. }
  intros b Hb Wb.
  apply returns_bind with (s1 := [N; C; 1; 1]).
  { apply channel_view_returns; assumption. }
  intros beta Hbeta _.
  apply returns_bind with (s1 := [N; C; H; W]).
  { apply broadcast2_returns. rewrite Hout, Hgamma. apply broadcast_shapes_channel. }
  intros scaled Hscaled _.
  apply returns_bind with (s1 := [N; C; H; W]).
  { apply tensor_add_same_returns; assumption. }
  intros acc Hacc _.
  apply broadcast2_returns. rewrite Hacc, Hbeta. apply broadcast_shapes_channel.
Qed.

(** The bypass of a generator block: upsample, then the 1x1 convolution. *)
Lemma ResBlockGenerator_bypass_returns (name : string) (Ci Co E : nat) (b : bool)
  (N H W : nat) (x : Tensor F) :
  shape x = [N; Ci; H; W] -> 0 < Ci -> 0 < H -> 0 < W ->
  returns (Sequential_forward theta training
             (ResBlockGenerator.bypass (ResBlockGenerator.init name Ci Co E b)) x)
          [N; Co; H * 2; W * 2].
Proof.
  intros Hx Hc Hh Hw.
  cbn [ResBlockGenerator.init ResBlockGenerator.bypass Sequential_forward
       Layer_forward].
  apply returns_bind with (s1 := [N; Ci; H * 2; W * 2]).
  { apply Upsample_returns; (assumption || lia). }
  intros u Hu _.
  apply returns_bind with (s1 := [N; Co; H * 2; W * 2]).
  { apply (@Conv2d_same_returns _ _ theta training
             (mkConv2d (name ++ ".bypass_conv") Ci Co 1 1 0 b false)
             u N Ci (H * 2) (W * 2)); (exact Hu || reflexivity || lia). }
  intros v Hv Wv. apply returns_Some; assumption.
Qed.

(** Conditional path of a generator block: the resolution doubles. *)
Lemma ResBlockGenerator_cond_returns (name : string) (Ci Co E : nat) (b : bool)
  (N H W : nat) (x h : Tensor F) :
  shape x = [N; Ci; H; W] -> shape h = [N; E] ->
  0 < Ci -> 0 < Co -> 0 < H -> 0 < W -> N * H * W <> 1 ->
  returns (ResBlockGenerator.forward theta training
             (ResBlockGenerator.init name Ci Co E b) x (Some h))
          [N; Co; H * 2; W * 2].
Proof.
  intros Hx Hh Hci Hco HH HW Hcnt. unfold ResBlockGenerator.forward.
  cbn [ResBlockGenerator.init ResBlockGenerator.condgn1 ResBlockGenerator.condgn2
       ResBlockGenerator.relu ResBlockGenerator.upsample ResBlockGenerator.conv1
       ResBlockGenerator.conv2 Layer_forward].
  apply returns_bind with (s1 := [N; Ci; H; W]).
  { apply ConditionalBatchNorm2d_returns; assumption. }
  intros o1 H1 W1.
  apply returns_bind with (s1 := [N; Ci; H; W]).
  { apply ReLU_returns; assumption. }
  intros o2 H2 _.
  apply returns_bind with (s1 := [N; Ci; H * 2; W * 2]).
  { apply Upsample_returns; (assumption || lia). }
  intros o3 H3 _.
  apply returns_bind with (s1 := [N; Co; H * 2; W * 2]).
  { apply (@Conv2d_same_returns _ _ theta training
             (mkConv2d (name ++ ".conv1") Ci Co 3 1 1 b false)
             o3 N Ci (H * 2) (W * 2)); (exact H3 || reflexivity || lia). }
  intros o4 H4 _.
  apply returns_bind with (s1 := [N; Co; H * 2; W * 2]).
  { apply ConditionalBatchNorm2d_returns;
      (assumption || apply count_doubled). }
  intros o5 H5 W5.
  apply returns_bind with (s1 := [N; Co; H * 2; W * 2]).
  { apply ReLU_returns; assumption. }
  intros o6 H6 _.
  apply returns_bind with (s1 := [N; Co; H * 2; W * 2]).
  { apply (@Conv2d_same_returns _ _ theta training
             (mkConv2d (name ++ ".conv2") Co Co 3 1 1 b false)
             o6 N Co (H * 2) (W * 2)); (exact H6 || reflexivity || lia). }
  intros o7 H7 _.
  apply returns_bind with (s1 := [N; Co; H * 2; W * 2]).
  { apply (@ResBlockGenerator_bypass_returns name Ci Co E b N H W x);
      assumption. }
  intros skip Hskip _.
  apply tensor_add_same_returns; assumption.
Qed.

(** Unconditional path of a generator block. *)
Lemma ResBlockGenerator_uncond_returns (name : string) (Ci Co E : nat) (b : bool)
  (N H W : nat) (x : Tensor F) :
  shape x = [N; Ci; H; W] ->
  0 < Ci -> 0 < Co -> 0 < H -> 0 < W -> N * H * W <> 1 ->
  returns (ResBlockGenerator.forward theta training
             (ResBlockGenerator.init name Ci Co E b) x None)
          [N; Co; H * 2; W * 2].
Proof.
  intros Hx Hci Hco HH HW Hcnt. unfold ResBlockGenerator.forward.
  apply returns_bind with (s1 := [N; Co; H * 2; W * 2]).
  { cbn [ResBlockGenerator.init ResBlockGenerator.model Sequential_forward
         Layer_forward].
    apply returns_bind with (s1 := [N; Ci; H; W]).
    { apply BatchNorm2d_returns; [exact Hx | reflexivity | exact Hcnt]. }
    intros o1 H1 W1.
    apply returns_bind with (s1 := [N; Ci; H; W]).
    { apply ReLU_returns; assumption. }
    intros o2 H2 _.
    apply returns_bind with (s1 := [N; Ci; H * 2; W * 2]).
    { apply Upsample_returns; (assumption || lia). }
    intros o3 H3 _.
    apply returns_bind with (s1 := [N; Co; H * 2; W * 2]).
    { apply (@Conv2d_same_returns _ _ theta training
               (mkConv2d (name ++ ".conv1") Ci Co 3 1 1 b false)
               o3 N Ci (H * 2) (W * 2)); (exact H3 || reflexivity || lia). }
    intros o4 H4 _.
    apply returns_bind with (s1 := [N; Co; H * 2; W * 2]).
    { apply BatchNorm2d_returns;
        [exact H4 | reflexivity | apply count_doubled]. }
    intros o5 H5 W5.
    apply returns_bind with (s1 := [N; Co; H * 2; W * 2]).
    { apply ReLU_returns; assumption. }
    intros o6 H6 _.
    apply returns_bind with (s1 := [N; Co; H * 2; W * 2]).
    { apply (@Conv2d_same_returns _ _ theta training
               (mkConv2d (name ++ ".conv2") Co Co 3 1 1 b false)
               o6 N Co (H * 2) (W * 2)); (exact H6 || reflexivity || lia). }
    intros o7 H7 W7. apply returns_Some; assumption. }
  intros out Hout _.
  apply returns_bind with (s1 := [N; Co; H * 2; W * 2]).
  { apply (@ResBlockGenerator_bypass_returns name Ci Co E b N H W x);
      assumption. }
  intros skip Hskip _.
  apply tensor_add_same_returns; assumption.
Qed.

End GeneratorShapes.

(** ** The generator network *)

Lemma bind_raises (A B : Type) (m : option A) (k : A -> option B) :
  m = None -> bind m k = None.
Proof. intros ->. reflexivity. Qed.

Lemma bind_Some_inv (A B : Type) (m : option A) (k : A -> option B) (b : B) :
  bind m k = Some b -> exists a, m = Some a /\ k a = Some b.
Proof. destruct m as [a|]; simpl; [eauto | discriminate]. Qed.

Section GeneratorForward.

Context {F : Type} {SF : Scalar F}.
Variables (theta : Params (F := F)) (training : bool).

Lemma ResBlockGenerator_returns (name : string) (Ci Co E : nat) (b : bool)
  (N H W : nat) (x : Tensor F) (h : option (Tensor F)) :
  shape x = [N; Ci; H; W] -> embedding_ok h N E ->
  0 < Ci -> 0 < Co -> 0 < H -> 0 < W -> N * H * W <> 1 ->
  returns (ResBlockGenerator.forward theta training
             (ResBlockGenerator.init name Ci Co E b) x h)
          [N; Co; H * 2; W * 2].
Proof.
  intros Hx Hh. destruct h as [h|].
  - apply ResBlockGenerator_cond_returns; assumption.
  - apply ResBlockGenerator_uncond_returns; assumption.
Qed.

(** The last stage: batch-norm, ReLU, the 3x3 convolution to [channels]
    planes, tanh. *)
Lemma final_returns (nz E ch N : nat) (x : Tensor F) :
  shape x = [N; ch; 64; 64] ->
  exists y, Sequential_forward theta training
              (SnganGenerator.final (SnganGenerator.init nz E ch)) x
            = Some (Tanh y)
            /\ shape y = [N; 3; 64; 64] /\ wf y.
Proof.
  intros Hx.
  cbn [SnganGenerator.init SnganGenerator.final Sequential_forward Layer_forward].
  destruct (@BatchNorm2d_returns _ _ theta training
              (mkBatchNorm2d "final.0" ch true) x N ch 64 64 Hx eq_refl)
    as (o1 & E1 & H1 & W1); [lia|].
  rewrite E1. cbn [bind].
  destruct (@Conv2d_same_returns _ _ theta training
              (mkConv2d "final.2" ch channels 3 1 1 bias false)
              (ReLU o1) N ch 64 64 H1 eq_refl eq_refl eq_refl)
    as (o3 & E3 & H3 & W3); [lia | lia |].
  rewrite E3. cbn [bind].
  exists o3. auto.
Qed.

Lemma SnganGenerator_feature_returns (nz E ch N : nat) (z : Tensor F)
  (h : option (Tensor F)) :
  0 < ch -> shape z = [N; nz] -> embedding_ok h N E ->
  let G := SnganGenerator.init nz E ch in
  returns
    (n <- size z 0 ;;
     d <- size z 1 ;;
     z <- view z [Z.of_nat n; Z.of_nat d] ;;
     out <- Linear_forward theta training (SnganGenerator.dense G) z ;;
     out <- view out [-1; Z.of_nat (SnganGenerator.gen_ch G * 16); 4; 4]%Z ;;
     out <- ResBlockGenerator.forward theta training (SnganGenerator.genblock0 G) out h ;;
     out <- ResBlockGenerator.forward theta training (SnganGenerator.genblock1 G) out h ;;
     out <- ResBlockGenerator.forward theta training (SnganGenerator.genblock2 G) out h ;;
     ResBlockGenerator.forward theta training (SnganGenerator.genblock3 G) out h)
    [N; ch; 64; 64].
Proof.
  intros Hch Hz Hh G. subst G.
  cbn [SnganGenerator.init SnganGenerator.dense SnganGenerator.gen_ch
       SnganGenerator.genblock0 SnganGenerator.genblock1
       SnganGenerator.genblock2 SnganGenerator.genblock3].
  unfold size. rewrite Hz. cbn [nth_error bind].
  change [Z.of_nat N; Z.of_nat nz] with (map Z.of_nat [N; nz]).
  rewrite (@view_exact _ z [N; nz]) by (unfold numel; rewrite Hz; reflexivity).
  cbn [bind].
  apply returns_bind with (s1 := [N; 4 * 4 * ch * 16]).
  { apply (Linear_returns theta training
             (mkLinear "dense" nz (4 * 4 * ch * 16) true false)). reflexivity. }
  intros d Hd Wd.
  apply returns_bind with (s1 := [N; ch * 16; 4; 4]).
  { apply (@view_infer_returns _ d [ch * 16; 4; 4] N Wd).
    - cbn [numel_of fold_right]. lia.
    - unfold numel. rewrite Hd. cbn [numel_of fold_right]. lia. }
  intros o0 H0 _.
  apply returns_bind with (s1 := [N; ch * 8; 8; 8]).
  { apply (@ResBlockGenerator_returns "genblock0" (ch * 16) (ch * 8) E true
             N 4 4 o0 h); (assumption || lia). }
  intros o1 H1 _.
  apply returns_bind with (s1 := [N; ch * 4; 16; 16]).
  { apply (@ResBlockGenerator_returns "genblock1" (ch * 8) (ch * 4) E true
             N 8 8 o1 h); (assumption || lia). }
  intros o2 H2 _.
  apply returns_bind with (s1 := [N; ch * 2; 32; 32]).
  { apply (@ResBlockGenerator_returns "genblock2" (ch * 4) (ch * 2) E true
             N 16 16 o2 h); (assumption || lia). }
  intros o3 H3 _.
  apply (@ResBlockGenerator_returns "genblock3" (ch * 2) ch E true
           N 32 32 o3 h); (assumption || lia).
Qed.

(** The generator returns [tanh] of a well-formed [(N, 3, 64, 64)] tensor. *)
Lemma SnganGenerator_forward_tanh (nz E ch N : nat) (z : Tensor F)
  (h : option (Tensor F)) :
  0 < ch -> shape z = [N; nz] -> embedding_ok h N E ->
  exists y,
    SnganGenerator.forward theta training (SnganGenerator.init nz E ch) z h
    = Some (Tanh y)
    /\ shape y = [N; 3; 64; 64] /\ wf y.
Proof.
  intros Hch Hz Hh.
  destruct (@SnganGenerator_feature_returns nz E ch N z h Hch Hz Hh)
    as (f & Ef & Hf & _).
  destruct (@final_returns nz E ch N f Hf) as (y & Ey & Hy & Wy).
  exists y. split; [|auto].
  unfold SnganGenerator.forward.
  destruct (size z 0) as [n|]; [|discriminate]. cbn [bind] in *.
  destruct (size z 1) as [d|]; [|discriminate]. cbn [bind] in *.
  destruct (view z [Z.of_nat n; Z.of_nat d]) as [z'|]; [|discriminate].
  cbn [bind] in *.
  destruct (Linear_forward theta training _ z') as [o|]; [|discriminate].
  cbn [bind] in *.
  destruct (view o _) as [o0|]; [|discriminate]. cbn [bind] in *.
  destruct (ResBlockGenerator.forward theta training _ o0 h) as [o1|];
    [|discriminate]. cbn [bind] in *.
  destruct (ResBlockGenerator.forward theta training _ o1 h) as [o2|];
    [|discriminate]. cbn [bind] in *.
  destruct (ResBlockGenerator.forward theta training _ o2 h) as [o3|];
    [|discriminate]. cbn [bind] in *.
  rewrite Ef. cbn [bind]. exact Ey.
Qed.

End GeneratorForward.

(** ** The discriminator's modules *)

Section DiscriminatorShapes.

Context {F : Type} {SF : Scalar F}.
Variables (theta : Params (F := F)) (training : bool).

Lemma half_pos (H : nat) : 2 <= H -> 0 < H / 2.
Proof. intros Hh. apply Nat.div_str_pos. lia. Qed.

(** Main path of a standard block built with stride 2. *)
Lemma ResBlockDiscriminator_model2_returns (name : string) (Ci Co N H W : nat)
  (x : Tensor F) :
  shape x = [N; Ci; H; W] -> 2 <= H -> 2 <= W ->
  returns (Sequential_forward theta training
             (ResBlockDiscriminator.model
                (ResBlockDiscriminator.init name Ci Co 2)) x)
          [N; Co; H / 2; W / 2].
Proof.
  intros Hx Hh Hw.
  cbn [ResBlockDiscriminator.init ResBlockDiscriminator.model Nat.eqb
       Sequential_forward Layer_forward bind].
  apply returns_bind with (s1 := [N; Co; H; W]).
  { eapply Conv2d_same_returns;
      [exact Hx | reflexivity | reflexivity | reflexivity | lia | lia]. }
  intros o1 H1 _. cbn [bind].
  apply returns_bind with (s1 := [N; Co; H; W]).
  { eapply Conv2d_same_returns;
      [exact H1 | reflexivity | reflexivity | reflexivity | lia | lia]. }
  intros o2 H2 _.
  apply returns_bind with (s1 := [N; Co; H / 2; W / 2]).
  { apply AvgPool2d_2_returns; auto. }
  intros o3 H3 W3. apply returns_Some; assumption.
Qed.

Lemma ResBlockDiscriminator_bypass2_returns (name : string) (Ci Co N H W : nat)
  (x : Tensor F) :
  shape x = [N; Ci; H; W] -> 2 <= H -> 2 <= W ->
  returns (Sequential_forward theta training
             (ResBlockDiscriminator.bypass
                (ResBlockDiscriminator.init name Ci Co 2)) x)
          [N; Co; H / 2; W / 2].
Proof.
  intros Hx Hh Hw.
  cbn [ResBlockDiscriminator.init ResBlockDiscriminator.bypass Nat.eqb negb
       Sequential_forward Layer_forward bind].
  apply returns_bind with (s1 := [N; Co; H; W]).
  { eapply Conv2d_same_returns;
      [exact Hx | reflexivity | reflexivity | reflexivity | lia | lia]. }
  intros o1 H1 _.
  apply returns_bind with (s1 := [N; Co; H / 2; W / 2]).
  { apply AvgPool2d_2_returns; auto. }
  intros o2 H2 W2. apply returns_Some; assumption.
Qed.

(** A standard block built with stride 2 halves height and width. *)
Lemma ResBlockDiscriminator_stride2_returns (name : string) (Ci Co N H W : nat)
  (x : Tensor F) :
  shape x = [N; Ci; H; W] -> 2 <= H -> 2 <= W ->
  returns (ResBlockDiscriminator.forward theta training
             (ResBlockDiscriminator.init name Ci Co 2) x)
          [N; Co; H / 2; W / 2].
Proof.
  intros Hx Hh Hw. unfold ResBlockDiscriminator.forward.
  apply returns_bind with (s1 := [N; Co; H / 2; W / 2]).
  { apply ResBlockDiscriminator_model2_returns; assumption. }
  intros m Hm _.
  apply returns_bind with (s1 := [N; Co; H / 2; W / 2]).
  { apply ResBlockDiscriminator_bypass2_returns; assumption. }
  intros s Hs _.
  apply tensor_add_same_returns; assumption.
Qed.

(** A standard block built with stride 1 keeps height and width. *)
Lemma ResBlockDiscriminator_stride1_returns (name : string) (Ci Co N H W : nat)
  (x : Tensor F) :
  shape x = [N; Ci; H; W] -> 0 < H -> 0 < W ->
  returns (ResBlockDiscriminator.forward theta training
             (ResBlockDiscriminator.init name Ci Co 1) x)
          [N; Co; H; W].
Proof.
  intros Hx Hh Hw. unfold ResBlockDiscriminator.forward.
  cbn [ResBlockDiscriminator.init ResBlockDiscriminator.model
       ResBlockDiscriminator.bypass Nat.eqb negb
       Sequential_forward Layer_forward bind].
  apply returns_bind with (s1 := [N; Co; H; W]).
  { apply returns_bind with (s1 := [N; Co; H; W]).
    { eapply Conv2d_same_returns;
        [exact Hx | reflexivity | reflexivity | reflexivity | lia | lia]. }
    intros o1 H1 _. cbn [bind].
    apply returns_bind with (s1 := [N; Co; H; W]).
    { eapply Conv2d_same_returns;
        [exact H1 | reflexivity | reflexivity | reflexivity | lia | lia]. }
    intros o2 H2 W2. apply returns_Some; assumption. }
  intros m Hm _.
  apply returns_bind with (s1 := [N; Co; H; W]).
  { apply returns_bind with (s1 := [N; Co; H; W]).
    { eapply Conv2d_same_returns;
        [exact Hx | reflexivity | reflexivity | reflexivity | lia | lia]. }
    intros o1 H1 W1. apply returns_Some; assumption. }
  intros s Hs _.
  apply tensor_add_same_returns; assumption.
Qed.

(** Main path of the first block: convolve, activate, convolve, pool. *)
Lemma FirstResBlockDiscriminator_model_returns (name : string)
  (Ci Co stride N H W : nat) (x : Tensor F) :
  shape x = [N; Ci; H; W] -> 2 <= H -> 2 <= W ->
  returns (Sequential_forward theta training
             (FirstResBlockDiscriminator.model
                (FirstResBlockDiscriminator.init name Ci Co stride)) x)
          [N; Co; H / 2; W / 2].
Proof.
  intros Hx Hh Hw.
  cbn [FirstResBlockDiscriminator.init FirstResBlockDiscriminator.model
       Sequential_forward Layer_forward bind].
  apply returns_bind with (s1 := [N; Co; H; W]).
  { eapply Conv2d_same_returns;
      [exact Hx | reflexivity | reflexivity | reflexivity | lia | lia]. }
  intros o1 H1 _. cbn [bind].
  apply returns_bind with (s1 := [N; Co; H; W]).
  { eapply Conv2d_same_returns;
      [exact H1 | reflexivity | reflexivity | reflexivity | lia | lia]. }
  intros o2 H2 _.
  apply returns_bind with (s1 := [N; Co; H / 2; W / 2]).
  { apply AvgPool2d_2_returns; auto. }
  intros o3 H3 W3. apply returns_Some; assumption.
Qed.

(** Bypass of the first block: pool, then the 1x1 convolution. *)
Lemma FirstResBlockDiscriminator_bypass_returns (name : string)
  (Ci Co stride N H W : nat) (x : Tensor F) :
  shape x = [N; Ci; H; W] -> 2 <= H -> 2 <= W ->
  returns (Sequential_forward theta training
             (FirstResBlockDiscriminator.bypass
                (FirstResBlockDiscriminator.init name Ci Co stride)) x)
          [N; Co; H / 2; W / 2].
Proof.
  intros Hx Hh Hw.
  cbn [FirstResBlockDiscriminator.init FirstResBlockDiscriminator.bypass
       Sequential_forward Layer_forward bind].
  apply returns_bind with (s1 := [N; Ci; H / 2; W / 2]).
  { apply AvgPool2d_2_returns; auto. }
  intros o1 H1 _.
  apply returns_bind with (s1 := [N; Co; H / 2; W / 2]).
  { eapply Conv2d_same_returns;
      [exact H1 | reflexivity | reflexivity | reflexivity
       | apply half_pos; exact Hh | apply half_pos; exact Hw]. }
  intros o2 H2 W2. apply returns_Some; assumption.
Qed.

Lemma FirstResBlockDiscriminator_returns (name : string)
  (Ci Co stride N H W : nat) (x : Tensor F) :
  shape x = [N; Ci; H; W] -> 2 <= H -> 2 <= W ->
  returns (FirstResBlockDiscriminator.forward theta training
             (FirstResBlockDiscriminator.init name Ci Co stride) x)
          [N; Co; H / 2; W / 2].
Proof.
  intros Hx Hh Hw. unfold FirstResBlockDiscriminator.forward.
  apply returns_bind with (s1 := [N; Co; H / 2; W / 2]).
  { apply FirstResBlockDiscriminator_model_returns; assumption. }
  intros m Hm _.
  apply returns_bind with (s1 := [N; Co; H / 2; W / 2]).
  { apply FirstResBlockDiscriminator_bypass_returns; assumption. }
  intros s Hs _.
  apply tensor_add_same_returns; assumption.
Qed.

End DiscriminatorShapes.

(** ** The discriminator network *)

Section DiscriminatorForward.

Context {F : Type} {SF : Scalar F}.
Variables (theta : Params (F := F)) (training : bool).

(** The three block groups on a 3-channel image of at least 16x16: four
    halvings, then the stride 1 block and the trailing activation. *)
Lemma features_returns (E ch N H W : nat) (x : Tensor F) :
  shape x = [N; 3; H; W] -> 16 <= H -> 16 <= W ->
  returns (SnganDiscriminator.features theta training
             (SnganDiscriminator.init E ch) x)
          [N; ch * 16; H / 2 / 2 / 2 / 2; W / 2 / 2 / 2 / 2].
Proof.
  intros Hx Hh Hw.
  assert (Hh1 : 8 <= H / 2) by (apply Nat.div_le_lower_bound; lia).
  assert (Hw1 : 8 <= W / 2) by (apply Nat.div_le_lower_bound; lia).
  assert (Hh2 : 4 <= H / 2 / 2) by (apply Nat.div_le_lower_bound; lia).
  assert (Hw2 : 4 <= W / 2 / 2) by (apply Nat.div_le_lower_bound; lia).
  assert (Hh3 : 2 <= H / 2 / 2 / 2) by (apply Nat.div_le_lower_bound; lia).
  assert (Hw3 : 2 <= W / 2 / 2 / 2) by (apply Nat.div_le_lower_bound; lia).
  assert (Hh4 : 1 <= H / 2 / 2 / 2 / 2) by (apply Nat.div_le_lower_bound; lia).
  assert (Hw4 : 1 <= W / 2 / 2 / 2 / 2) by (apply Nat.div_le_lower_bound; lia).
  unfold SnganDiscriminator.features.
  cbn [SnganDiscriminator.init SnganDiscriminator.discblock1
       SnganDiscriminator.discblock2 SnganDiscriminator.discblock3
       SnganDiscriminator.Blocks_forward SnganDiscriminator.Block_forward].
  apply returns_bind with (s1 := [N; ch * 4; H / 2 / 2 / 2; W / 2 / 2 / 2]).
  { apply returns_bind with (s1 := [N; ch; H / 2; W / 2]).
    { apply FirstResBlockDiscriminator_returns; (exact Hx || lia). }
    intros o1 H1 _.
    apply returns_bind with (s1 := [N; ch * 2; H / 2 / 2; W / 2 / 2]).
    { apply ResBlockDiscriminator_stride2_returns; (exact H1 || lia). }
    intros o2 H2 _.
    apply returns_bind with (s1 := [N; ch * 4; H / 2 / 2 / 2; W / 2 / 2 / 2]).
    { apply ResBlockDiscriminator_stride2_returns; (exact H2 || lia). }
    intros o3 H3 W3. apply returns_Some; assumption. }
  intros o3 H3 _.
  apply returns_bind
    with (s1 := [N; ch * 8; H / 2 / 2 / 2 / 2; W / 2 / 2 / 2 / 2]).
  { apply ResBlockDiscriminator_stride2_returns; (exact H3 || lia). }
  intros o4 H4 _.
  apply returns_bind
    with (s1 := [N; ch * 16; H / 2 / 2 / 2 / 2; W / 2 / 2 / 2 / 2]).
  { apply ResBlockDiscriminator_stride1_returns; (exact H4 || lia). }
  intros o5 H5 W5. cbn [bind].
  apply ReLU_returns; assumption.
Qed.

Lemma sum_dim1_keepdim_returns (t : Tensor F) (a d : nat) :
  shape t = [a; d] -> returns (sum_dim1_keepdim t) [a; 1].
Proof.
  intros Ht. unfold sum_dim1_keepdim. rewrite Ht. apply returns_tabulate.
Qed.

Lemma broadcast_shapes_rows (M N D : nat) :
  broadcast_shapes [M; D] [N; D]
  = option_map (fun B => [B; D]) (joined_batch M N).
Proof.
  unfold broadcast_shapes, joined_batch. cbn [rev app broadcast_rev bind].
  destruct (M =? N); cbn [bind]; [now rewrite Nat.eqb_refl|].
  destruct (M =? 1); cbn [bind]; [now rewrite Nat.eqb_refl|].
  destruct (N =? 1); cbn [bind]; [now rewrite Nat.eqb_refl|].
  reflexivity.
Qed.

End DiscriminatorForward.

Section DiscriminatorTail.

Context {F : Type} {SF : Scalar F}.
Variables (theta : Params (F := F)) (training : bool).

Lemma joined_batch_absorb (M N B : nat) :
  joined_batch M N = Some B -> joined_batch M B = Some B.
Proof.
  unfold joined_batch.
  destruct (Nat.eqb_spec M N) as [->|Hmn].
  - intros [= <-]. now rewrite Nat.eqb_refl.
  - destruct (Nat.eqb_spec M 1) as [->|Hm1].
    + intros [= <-]. destruct (Nat.eqb_spec 1 N); [congruence|reflexivity].
    + destruct (Nat.eqb_spec N 1) as [->|Hn1]; [|discriminate].
      intros [= <-]. now rewrite Nat.eqb_refl.
Qed.

Lemma forward_after_features (D : SnganDiscriminator.t) (x h f : Tensor F) :
  SnganDiscriminator.features theta training D x = Some f ->
  SnganDiscriminator.forward theta training D x h =
  (output <- view f [-1; Z.of_nat (SnganDiscriminator.disc_ch D * 16 * 4 * 4)]%Z ;;
   projected <- Linear_forward theta training (SnganDiscriminator.linear2 D) h ;;
   weighted <- tensor_mul output projected ;;
   output_h <- sum_dim1_keepdim weighted ;;
   score <- Linear_forward theta training (SnganDiscriminator.linear1 D) output ;;
   output <- tensor_add score output_h ;;
   view output [-1; 1]%Z).
Proof. intros Ef. unfold SnganDiscriminator.forward. rewrite Ef. reflexivity. Qed.

(** After the flattening to [M] rows: the rows are joined with the [N] rows
    of the projected embedding by broadcasting. *)
Lemma forward_tail_returns (E ch M N B : nat) (x h f : Tensor F) :
  0 < ch ->
  SnganDiscriminator.features theta training (SnganDiscriminator.init E ch) x
  = Some f ->
  wf f -> numel f = M * (ch * 16 * 4 * 4) ->
  shape h = [N; E] -> joined_batch M N = Some B ->
  returns (SnganDiscriminator.forward theta training
             (SnganDiscriminator.init E ch) x h) [B; 1].
Proof.
  intros Hch Ef Wf Hn Hh HB. rewrite (@forward_after_features _ _ h _ Ef).
  cbn [SnganDiscriminator.init SnganDiscriminator.disc_ch
       SnganDiscriminator.linear1 SnganDiscriminator.linear2
       spectral_norm_linear linear_name in_features out_features linear_bias].
  set (D := ch * 16 * 4 * 4) in *.
  apply returns_bind with (s1 := [M; D]).
  { apply (@view_infer_returns _ f [D] M Wf).
    - cbn [numel_of fold_right]. unfold D. lia.
    - rewrite Hn. cbn [numel_of fold_right]. lia. }
  intros flat Hflat _.
  apply returns_bind with (s1 := [N; D]).
  { apply (Linear_returns theta training
             (mkLinear "linear2" E D false true)); exact Hh. }
  intros proj Hproj _.
  apply returns_bind with (s1 := [B; D]).
  { apply broadcast2_returns. rewrite Hflat, Hproj, broadcast_shapes_rows, HB.
    reflexivity. }
  intros wgt Hwgt _.
  apply returns_bind with (s1 := [B; 1]).
  { apply sum_dim1_keepdim_returns with (d := D); exact Hwgt. }
  intros oh Hoh _.
  apply returns_bind with (s1 := [M; 1]).
  { apply (Linear_returns theta training
             (mkLinear "linear1" D 1 true true)); exact Hflat. }
  intros sc Hsc _.
  apply returns_bind with (s1 := [B; 1]).
  { apply broadcast2_returns.
    rewrite Hsc, Hoh, broadcast_shapes_rows, (joined_batch_absorb _ _ HB).
    reflexivity. }
  intros out Hout Wout.
  apply (@view_infer_returns _ out [1] B Wout).
  - cbn [numel_of fold_right]. lia.
  - unfold numel. rewrite Hout. cbn [numel_of fold_right]. lia.
Qed.

(** The rows cannot be joined: the product with the projected embedding
    raises. *)
Lemma forward_tail_raises (E ch M N : nat) (x h f : Tensor F) :
  0 < ch ->
  SnganDiscriminator.features theta training (SnganDiscriminator.init E ch) x
  = Some f ->
  wf f -> numel f = M * (ch * 16 * 4 * 4) ->
  shape h = [N; E] -> joined_batch M N = None ->
  SnganDiscriminator.forward theta training
    (SnganDiscriminator.init E ch) x h = None.
Proof.
  intros Hch Ef Wf Hn Hh HB. rewrite (@forward_after_features _ _ h _ Ef).
  cbn [SnganDiscriminator.init SnganDiscriminator.disc_ch
       SnganDiscriminator.linear1 SnganDiscriminator.linear2
       spectral_norm_linear linear_name in_features out_features linear_bias].
  set (D := ch * 16 * 4 * 4) in *.
  apply returns_bind_None with (s1 := [M; D]).
  { apply (@view_infer_returns _ f [D] M Wf).
    - cbn [numel_of fold_right]. unfold D. lia.
    - rewrite Hn. cbn [numel_of fold_right]. lia. }
  intros flat Hflat _.
  apply returns_bind_None with (s1 := [N; D]).
  { apply (Linear_returns theta training
             (mkLinear "linear2" E D false true)); exact Hh. }
  intros proj Hproj _.
  unfold tensor_mul, broadcast2.
  rewrite Hflat, Hproj, broadcast_shapes_rows, HB. reflexivity.
Qed.

(** The element count is no multiple of the row length: [view] raises. *)
Lemma forward_view_raises (E ch : nat) (x h f : Tensor F) :
  SnganDiscriminator.features theta training (SnganDiscriminator.init E ch) x
  = Some f ->
  numel f mod (ch * 16 * 4 * 4) <> 0 ->
  SnganDiscriminator.forward theta training
    (SnganDiscriminator.init E ch) x h = None.
Proof.
  intros Ef Hm. rewrite (@forward_after_features _ _ h _ Ef).
  cbn [SnganDiscriminator.init SnganDiscriminator.disc_ch].
  unfold view at 1. cbn [existsb filter map].
  change (-1 <? -1)%Z with false. change (-1 =? -1)%Z with true.
  cbn [negb orb].
  destruct (Z.ltb_spec (Z.of_nat (ch * 16 * 4 * 4)) (-1)) as [Hlt|_]; [lia|].
  destruct (Z.eqb_spec (Z.of_nat (ch * 16 * 4 * 4)) (-1)) as [Heq|_]; [lia|].
  cbn [negb length map numel_of fold_right]. rewrite Nat2Z.id, Nat.mul_1_r.
  destruct (Nat.eqb_spec (numel f mod (ch * 16 * 4 * 4)) 0) as [E0|_];
    [contradiction|].
  rewrite andb_false_r. reflexivity.
Qed.

End DiscriminatorTail.

(** ** Images too small for four halvings *)

Section SmallImages.

Context {F : Type} {SF : Scalar F}.
Variables (theta : Params (F := F)) (training : bool).

Lemma AvgPool2d_2_raises (stride : option nat) (x : Tensor F) (N C H W : nat) :
  shape x = [N; C; H; W] -> H < 2 \/ W < 2 ->
  AvgPool2d_forward 2 stride 0 x = None.
Proof.
  intros Hx Hs. unfold AvgPool2d_forward. rewrite Hx. rewrite !Nat.add_0_r.
  destruct (Nat.leb_spec 2 H) as [Hh|_], (Nat.leb_spec 2 W) as [Hw|_];
    try lia; rewrite ?andb_false_r; reflexivity.
Qed.

Lemma Conv2d_empty_raises (cv : Conv2d) (x : Tensor F) (N C H W : nat) :
  shape x = [N; C; H; W] -> kernel_size cv = 2 * conv_padding cv + 1 ->
  H = 0 \/ W = 0 ->
  Conv2d_forward theta training cv x = None.
Proof.
  intros Hx Hk Hs. unfold Conv2d_forward. rewrite Hx, Hk.
  destruct (Nat.leb_spec (2 * conv_padding cv + 1) (H + 2 * conv_padding cv))
    as [Hh|_],
    (Nat.leb_spec (2 * conv_padding cv + 1) (W + 2 * conv_padding cv))
    as [Hw|_];
    try lia; rewrite ?andb_false_r; reflexivity.
Qed.

(** Two 3x3 convolutions (an activation between them) and the pooling: the
    tail shared by the main paths of both kinds of block. *)
Lemma conv_conv_pool_raises (c1 c2 : Conv2d) (pre : bool) (stride : option nat)
  (x : Tensor F) (N H W : nat) :
  shape x = [N; in_channels c1; H; W] ->
  out_channels c1 = in_channels c2 ->
  conv_stride c1 = 1 -> kernel_size c1 = 2 * conv_padding c1 + 1 ->
  conv_stride c2 = 1 -> kernel_size c2 = 2 * conv_padding c2 + 1 ->
  H < 2 \/ W < 2 ->
  Sequential_forward theta training
    ((if pre then [L_ReLU] else []) ++
     [L_Conv2d c1; L_ReLU; L_Conv2d c2; L_AvgPool2d 2 stride 0]) x = None.
Proof.
  intros Hx Hc Hs1 Hk1 Hs2 Hk2 Hsmall.
  assert (Hx' : shape (if pre then ReLU x else x) = [N; in_channels c1; H; W])
    by (destruct pre; exact Hx).
  assert (Epre : Sequential_forward theta training
            ((if pre then [L_ReLU] else []) ++
             [L_Conv2d c1; L_ReLU; L_Conv2d c2; L_AvgPool2d 2 stride 0]) x
          = Sequential_forward theta training
             [L_Conv2d c1; L_ReLU; L_Conv2d c2; L_AvgPool2d 2 stride 0]
             (if pre then ReLU x else x))
    by (destruct pre; reflexivity).
  rewrite Epre. cbn [Sequential_forward Layer_forward].
  destruct (Nat.eq_dec H 0) as [H0|H0].
  { rewrite (Conv2d_empty_raises c1 _ Hx' Hk1) by auto. reflexivity. }
  destruct (Nat.eq_dec W 0) as [W0|W0].
  { rewrite (Conv2d_empty_raises c1 _ Hx' Hk1) by auto. reflexivity. }
  apply returns_bind_None with (s1 := [N; out_channels c1; H; W]).
  { eapply Conv2d_same_returns;
      [exact Hx' | reflexivity | assumption | assumption | lia | lia]. }
  intros o1 H1 _. cbn [bind].
  apply returns_bind_None with (s1 := [N; out_channels c2; H; W]).
  { eapply Conv2d_same_returns;
      [exact H1 | assumption | assumption | assumption | lia | lia]. }
  intros o2 H2 _.
  rewrite (AvgPool2d_2_raises stride _ H2) by assumption. reflexivity.
Qed.

Lemma ResBlockDiscriminator_stride2_raises (name : string) (Ci Co N H W : nat)
  (x : Tensor F) :
  shape x = [N; Ci; H; W] -> H < 2 \/ W < 2 ->
  ResBlockDiscriminator.forward theta training
    (ResBlockDiscriminator.init name Ci Co 2) x = None.
Proof.
  intros Hx Hsmall. unfold ResBlockDiscriminator.forward.
  apply bind_raises.
  apply (@conv_conv_pool_raises
           (mkConv2d (name ++ ".conv1") Ci Co 3 1 1 bias true)
           (mkConv2d (name ++ ".conv2") Co Co 3 1 1 bias true)
           true (Some 2) x N H W);
    (reflexivity || assumption).
Qed.

Lemma FirstResBlockDiscriminator_raises (name : string)
  (Ci Co stride N H W : nat) (x : Tensor F) :
  shape x = [N; Ci; H; W] -> H < 2 \/ W < 2 ->
  FirstResBlockDiscriminator.forward theta training
    (FirstResBlockDiscriminator.init name Ci Co stride) x = None.
Proof.
  intros Hx Hsmall. unfold FirstResBlockDiscriminator.forward.
  apply bind_raises.
  apply (@conv_conv_pool_raises
           (mkConv2d (name ++ ".conv1") Ci Co 3 1 1 bias true)
           (mkConv2d (name ++ ".conv2") Co Co 3 1 1 bias true)
           false None x N H W);
    (reflexivity || assumption).
Qed.

Lemma sixteenth (H : nat) : H / 2 / 2 / 2 / 2 = H / 16.
Proof. rewrite !Nat.Div0.div_div. reflexivity. Qed.

(** An image with a side below 16 cannot be halved four times. *)
Lemma features_raises (E ch N H W : nat) (x : Tensor F) :
  shape x = [N; 3; H; W] -> H < 16 \/ W < 16 ->
  SnganDiscriminator.features theta training
    (SnganDiscriminator.init E ch) x = None.
Proof.
  intros Hx Hsmall.
  unfold SnganDiscriminator.features.
  cbn [SnganDiscriminator.init SnganDiscriminator.discblock1
       SnganDiscriminator.discblock2 SnganDiscriminator.discblock3
       SnganDiscriminator.Blocks_forward SnganDiscriminator.Block_forward].
  destruct (le_lt_dec 2 H) as [Hh0|Hh0]; [destruct (le_lt_dec 2 W) as [Hw0|Hw0]|].
  2,3: rewrite (@FirstResBlockDiscriminator_raises
                  "discblock1.0" channels ch 2 N H W x Hx) by lia;
       reflexivity.
  destruct (@FirstResBlockDiscriminator_returns _ _ theta training
              "discblock1.0" channels ch 2 N H W x Hx Hh0 Hw0)
    as (o1 & E1 & H1 & _).
  rewrite E1. cbn [bind].
  destruct (le_lt_dec 2 (H / 2)) as [Hh1|Hh1];
    [destruct (le_lt_dec 2 (W / 2)) as [Hw1|Hw1]|].
  2,3: rewrite (@ResBlockDiscriminator_stride2_raises
                  "discblock1.1" ch (ch * 2) N (H / 2) (W / 2) o1 H1) by lia;
       reflexivity.
  destruct (@ResBlockDiscriminator_stride2_returns _ _ theta training
              "discblock1.1" ch (ch * 2) N (H / 2) (W / 2) o1 H1 Hh1 Hw1)
    as (o2 & E2 & H2 & _).
  rewrite E2. cbn [bind].
  destruct (le_lt_dec 2 (H / 2 / 2)) as [Hh2|Hh2];
    [destruct (le_lt_dec 2 (W / 2 / 2)) as [Hw2|Hw2]|].
  2,3: rewrite (@ResBlockDiscriminator_stride2_raises
                  "discblock1.2" (ch * 2) (ch * 4) N (H / 2 / 2) (W / 2 / 2)
                  o2 H2) by lia;
       reflexivity.
  destruct (@ResBlockDiscriminator_stride2_returns _ _ theta training
              "discblock1.2" (ch * 2) (ch * 4) N (H / 2 / 2) (W / 2 / 2)
              o2 H2 Hh2 Hw2)
    as (o3 & E3 & H3 & _).
  rewrite E3. cbn [bind].
  rewrite (@ResBlockDiscriminator_stride2_raises
             "discblock2" (ch * 4) (ch * 8) N (H / 2 / 2 / 2) (W / 2 / 2 / 2)
             o3 H3); [reflexivity|].
  pose proof (sixteenth H) as SH. pose proof (sixteenth W) as SW.
  assert (H / 16 = 0 \/ W / 16 = 0)
    by (destruct Hsmall; [left | right]; apply Nat.div_small; assumption).
  destruct (le_lt_dec 2 (H / 2 / 2 / 2)) as [Hh3|Hh3]; [|lia].
  destruct (le_lt_dec 2 (W / 2 / 2 / 2)) as [Hw3|Hw3]; [|lia].
  exfalso.
  assert (1 <= H / 2 / 2 / 2 / 2) by (apply Nat.div_le_lower_bound; lia).
  assert (1 <= W / 2 / 2 / 2 / 2) by (apply Nat.div_le_lower_bound; lia).
  lia.
Qed.

End SmallImages.

(** ** Broadcasting, element by element *)

Lemma ravel_unravel (s : list nat) (o : nat) :
  ravel s (unravel s o) = o mod numel_of s.
Proof.
  induction s as [|d s IH]; cbn [ravel unravel numel_of fold_right].
  - now rewrite Nat.mod_1_r.
  - fold (numel_of s). rewrite IH.
    rewrite (Nat.mul_comm d (numel_of s)), Nat.Div0.mod_mul_r. lia.
Qed.

Lemma clamp_unravel (s : list nat) (o : nat) :
  map (fun di => if fst di =? 1 then 0 else snd di) (combine s (unravel s o))
  = unravel s o.
Proof.
  induction s as [|d s IH]; cbn [unravel combine map fst snd]; [reflexivity|].
  rewrite IH. f_equal.
  destruct (Nat.eqb_spec d 1) as [->|_]; [|reflexivity].
  now rewrite Nat.mod_1_r.
Qed.

(** Under equal shapes an element is paired with the element at the same
    offset. *)
Lemma bcast_offset_same (s : list nat) (o : nat) :
  o < numel_of s -> bcast_offset s s o = o.
Proof.
  intros Ho. unfold bcast_offset. rewrite Nat.sub_diag. cbn [skipn].
  rewrite clamp_unravel, ravel_unravel. apply Nat.mod_small; exact Ho.
Qed.

(** A [(N, C, 1, 1)] operand gives its element [(n, c)] to the whole plane
    [(n, c, _, _)]. *)
Lemma bcast_offset_channel (N C H W n c i j : nat) :
  n < N -> c < C -> i < H -> j < W ->
  bcast_offset [N; C; 1; 1] [N; C; H; W] (offset4 C H W n c i j)
  = offset4 C 1 1 n c 0 0.
Proof.
  intros Hn Hc Hi Hj. unfold bcast_offset.
  cbn [length Nat.sub skipn unravel combine map fst snd ravel numel_of
       fold_right Nat.eqb].
  destruct (offset4_decode n Hc Hi Hj) as (D1 & D2 & D3 & D4).
  replace (C * (H * (W * 1))) with (C * H * W) by ring.
  replace (H * (W * 1)) with (H * W) by ring.
  rewrite D1, D2, (Nat.mod_small n N) by exact Hn.
  assert (En : (if N =? 1 then 0 else n) = n)
    by (destruct (Nat.eqb_spec N 1); lia).
  assert (Ec : (if C =? 1 then 0 else c) = c)
    by (destruct (Nat.eqb_spec C 1); lia).
  rewrite En, Ec. unfold offset4. ring.
Qed.

Section BroadcastValues.

Context {F : Type} {SF : Scalar F}.

Lemma broadcast2_same_item (op : F -> F -> F) (a b : Tensor F) (s : list nat) :
  shape a = s -> shape b = s ->
  exists out, broadcast2 op a b = Some out /\ shape out = s /\ wf out /\
    forall o, o < numel_of s -> item out o = op (item a o) (item b o).
Proof.
  intros Ha Hb. unfold broadcast2. rewrite Ha, Hb, broadcast_shapes_same.
  cbn [bind]. eexists. split; [reflexivity|].
  split; [reflexivity|]. split; [apply tabulate_wf|].
  intros o Ho. rewrite item_tabulate by exact Ho.
  now rewrite bcast_offset_same by exact Ho.
Qed.

Lemma broadcast2_same_get4 (op : F -> F -> F) (a b : Tensor F) (N C H W : nat) :
  shape a = [N; C; H; W] -> shape b = [N; C; H; W] ->
  exists out, broadcast2 op a b = Some out /\ shape out = [N; C; H; W] /\
    wf out /\
    forall n c i j, n < N -> c < C -> i < H -> j < W ->
      get4 out n c i j = op (get4 a n c i j) (get4 b n c i j).
Proof.
  intros Ha Hb.
  destruct (broadcast2_same_item op a b Ha Hb) as (out & E & Hs & Hw & Hi).
  exists out. repeat split; try assumption.
  intros n c i j Hn Hc Hi' Hj. unfold get4. rewrite Hs, Ha, Hb.
  apply Hi. cbn [numel_of fold_right].
  pose proof (offset4_lt Hn Hc Hi' Hj). lia.
Qed.

Lemma broadcast2_channel_get4 (op : F -> F -> F) (a b : Tensor F)
  (N C H W : nat) :
  shape a = [N; C; H; W] -> shape b = [N; C; 1; 1] ->
  exists out, broadcast2 op a b = Some out /\ shape out = [N; C; H; W] /\
    wf out /\
    forall n c i j, n < N -> c < C -> i < H -> j < W ->
      get4 out n c i j = op (get4 a n c i j) (get4 b n c 0 0).
Proof.
  intros Ha Hb. unfold broadcast2. rewrite Ha, Hb, broadcast_shapes_channel.
  cbn [bind]. eexists. split; [reflexivity|].
  split; [reflexivity|]. split; [apply tabulate_wf|].
  intros n c i j Hn Hc Hi Hj. unfold get4. cbn [shape tabulate].
  rewrite Ha, Hb, item_tabulate.
  - rewrite bcast_offset_channel by assumption.
    rewrite bcast_offset_same; [reflexivity|].
    cbn [numel_of fold_right]. pose proof (offset4_lt Hn Hc Hi Hj). lia.
  - cbn [numel_of fold_right]. pose proof (offset4_lt Hn Hc Hi Hj). lia.
Qed.

End BroadcastValues.

(** ** Conditional batch normalisation, element by element *)

Section ConditionalNorm.

Context {F : Type} {SF : Scalar F}.
Variables (theta : Params (F := F)) (training : bool).

Lemma BatchNorm2d_forward_eq (b : BatchNorm2d) (x : Tensor F) (N C H W : nat) :
  shape x = [N; C; H; W] -> C = num_features b ->
  training = false \/ N * H * W <> 1 ->
  BatchNorm2d_forward theta training b x =
  Some (tabulate4 N C H W (fun n c i j =>
          let xhat := bn_normalized theta training b x N C H W n c i j in
          if affine b
          then fadd (fmul xhat (theta (bn_name b ++ ".weight")%string c))
                    (theta (bn_name b ++ ".bias")%string c)
          else xhat)).
Proof.
  intros Hx -> Hcnt. unfold BatchNorm2d_forward. rewrite Hx.
  rewrite Nat.eqb_refl. cbn [negb].
  replace (training && (N * H * W =? 1)) with false; [reflexivity|].
  destruct Hcnt as [-> | Hne]; [reflexivity|].
  destruct (Nat.eqb_spec (N * H * W) 1); [contradiction|].
  now rewrite andb_false_r.
Qed.

Lemma Linear_forward_eq (l : Linear) (x : Tensor F) (N : nat) :
  shape x = [N; in_features l] ->
  Linear_forward theta training l x =
  Some (tabulate [N; out_features l] (fun o =>
          (fun r j =>
             add_bias theta (linear_name l) (linear_bias l) j
               (dot (in_features l)
                    (fun k => item x (r * in_features l + k))
                    (weight theta training (linear_name l) (linear_sn l)
                            (out_features l) (in_features l) j)))
            (o / out_features l) (o mod out_features l))).
Proof.
  intros Hx. unfold Linear_forward. rewrite Hx. cbn [rev app].
  now rewrite Nat.eqb_refl.
Qed.

(** The projection of the embedding by a bias-free, plain linear layer, seen
    as a [(N, C, 1, 1)] tensor. *)
Lemma projection_view (name : string) (E C N : nat) (y : Tensor F) :
  shape y = [N; E] -> 0 < C ->
  exists p,
    (g <- Linear_forward theta training (mkLinear name E C false false) y ;;
     view g [-1; Z.of_nat C; 1; 1]%Z) = Some p /\
    shape p = [N; C; 1; 1] /\
    forall n c, n < N -> c < C ->
      get4 p n c 0 0 =
      dot E (fun k => item y (n * E + k))
            (fun k => theta (name ++ ".weight")%string (c * E + k)).
Proof.
  intros Hy Hc.
  rewrite (@Linear_forward_eq (mkLinear name E C false false) y N Hy).
  cbn [bind in_features out_features linear_name linear_bias linear_sn].
  change [-1; Z.of_nat C; 1; 1]%Z with ((-1)%Z :: map Z.of_nat [C; 1; 1]).
  rewrite (@view_infer _ _ [C; 1; 1] N).
  2:{ cbn [numel_of fold_right]. lia. }
  2:{ unfold numel. cbn [shape tabulate numel_of fold_right]. lia. }
  eexists. split; [reflexivity|]. split; [reflexivity|].
  intros n c Hn Hc'. unfold get4, item. cbn [shape data tabulate].
  rewrite nth_map_seq.
  2:{ cbn [numel_of fold_right]. unfold offset4.
      pose proof (mixed_radix_lt Hn Hc'). lia. }
  unfold offset4.
  replace (((n * C + c) * 1 + 0) * 1 + 0) with (n * C + c) by lia.
  rewrite div_small_add, mod_small_add by exact Hc'.
  reflexivity.
Qed.

End ConditionalNorm.

(** ** Range of [tanh] over the reals *)

Lemma Rtanh_range (x : R) : (-1 < Rtrigo_def.tanh x < 1)%R.
Proof.
  unfold Rtrigo_def.tanh, sinh, cosh.
  pose proof (exp_pos x) as Ha. pose proof (exp_pos (- x)) as Hb.
  set (a := exp x) in *. set (b := exp (- x)) in *.
  replace ((a - b) / 2 / ((a + b) / 2))%R with ((a - b) / (a + b))%R
    by (field; lra).
  assert (Hs : (0 < a + b)%R) by lra.
  split.
  - apply Rmult_lt_reg_r with (a + b)%R; [exact Hs|].
    unfold Rdiv. rewrite Rmult_assoc, Rinv_l by lra. lra.
  - apply Rmult_lt_reg_r with (a + b)%R; [exact Hs|].
    unfold Rdiv. rewrite Rmult_assoc, Rinv_l by lra. lra.
Qed.

(** ** Values of [tanh] and of ReLU with IEEE special values *)

Lemma ieee_absorbing : absorbing NaN.
Proof.
  split; try reflexivity; intros v; destruct v; reflexivity.
Qed.

Lemma ieee_tanh_unit_or_nan (v : ieee) : unit_or_nan (ftanh v).
Proof.
  unfold unit_or_nan. destruct v as [r| | |]; cbn.
  - right. pose proof (Rtanh_range r). lra.
  - right. lra.
  - right. lra.
  - left. reflexivity.
Qed.

Lemma ieee_relu_nonnegative_or_nan (v : ieee) :
  nonnegative_or_nan (fmax fzero v).
Proof.
  destruct v as [r| | |]; cbn; try exact I.
  - apply Rmax_l.
  - lra.
Qed.

Lemma full_wf (s : list nat) (v : ieee) : wf (full s v).
Proof. unfold wf, numel, full; cbn [shape data]. apply repeat_length. Qed.

Lemma full_Forall (s : list nat) (v : ieee) :
  Forall (fun w => w = v) (data (full s v)).
Proof.
  unfold full; cbn [data]. apply Forall_forall. intros w Hw.
  exact (repeat_spec _ _ _ Hw).
Qed.

(** ** How a NaN travels through the generator *)

Lemma unravel4_lt (N C H W o : nat) :
  o < N * (C * (H * (W * 1))) ->
  o / (C * H * W) < N /\ (o / (H * W)) mod C < C /\
  (o / W) mod H < H /\ o mod W < W.
Proof.
  intros Ho.
  assert (HC : C <> 0) by (intros ->; lia).
  assert (HH : H <> 0) by (intros ->; lia).
  assert (HW : W <> 0) by (intros ->; lia).
  repeat split; try (apply Nat.mod_upper_bound; assumption).
  apply Nat.Div0.div_lt_upper_bound. lia.
Qed.

Section PoisonFacts.

Context {F : Type} {SF : Scalar F}.
Variable nan : F.
Hypothesis Hnan : absorbing nan.

Lemma fold_fadd_nan (l : list F) : fold_left fadd l nan = nan.
Proof.
  induction l as [|v l IH]; cbn [fold_left]; [reflexivity|].
  now rewrite (fadd_nan_l Hnan).
Qed.

Lemma fsum_nan (l : list F) : In nan l -> fsum l = nan.
Proof.
  unfold fsum. generalize (fzero (F := F)) as acc.
  induction l as [|v l IH]; intros acc Hin; [destruct Hin|].
  cbn [fold_left]. destruct Hin as [-> | Hin].
  - rewrite (fadd_nan_r Hnan). apply fold_fadd_nan.
  - apply IH; exact Hin.
Qed.

Lemma dot_nan_l (n k : nat) (a b : nat -> F) :
  k < n -> a k = nan -> dot n a b = nan.
Proof.
  intros Hk Ha. unfold dot. apply fsum_nan. apply in_map_iff.
  exists k. split; [now rewrite Ha, (fmul_nan_l Hnan)|].
  apply in_seq. lia.
Qed.

Lemma dot_nan_r (n k : nat) (a b : nat -> F) :
  k < n -> b k = nan -> dot n a b = nan.
Proof.
  intros Hk Hb. unfold dot. apply fsum_nan. apply in_map_iff.
  exists k. split; [now rewrite Hb, (fmul_nan_r Hnan)|].
  apply in_seq. lia.
Qed.

Lemma add_bias_nan (theta : Params (F := F)) (name : string) (b : bool)
  (r : nat) : add_bias theta name b r nan = nan.
Proof. unfold add_bias. destruct b; [apply (fadd_nan_l Hnan) | reflexivity]. Qed.

Lemma item_nan (x : Tensor F) (o : nat) :
  wf x -> Forall (fun v => v = nan) (data x) -> o < numel x ->
  item x o = nan.
Proof.
  intros Wx Hx Ho. unfold item. unfold wf in Wx. rewrite <- Wx in Ho.
  rewrite Forall_forall in Hx. apply Hx. apply nth_In. exact Ho.
Qed.

Lemma item4_nan (x : Tensor F) (N C H W n c i j : nat) :
  shape x = [N; C; H; W] -> wf x -> Forall (fun v => v = nan) (data x) ->
  n < N -> c < C -> i < H -> j < W ->
  item x (offset4 C H W n c i j) = nan.
Proof.
  intros Sx Wx Hx Hn Hc Hi Hj. apply item_nan; [assumption..|].
  unfold numel. rewrite Sx. cbn [numel_of fold_right].
  pose proof (offset4_lt Hn Hc Hi Hj). lia.
Qed.

Lemma poisoned_returns (m : option (Tensor F)) (s : list nat) :
  poisoned nan m s -> returns m s.
Proof. intros (y & E & Hs & Hw & _). exists y. auto. Qed.

Lemma poisoned_bind (m : option (Tensor F)) (k : Tensor F -> option (Tensor F))
  (s1 s : list nat) :
  poisoned nan m s1 ->
  (forall y, shape y = s1 -> wf y -> Forall (fun v => v = nan) (data y) ->
             poisoned nan (k y) s) ->
  poisoned nan (bind m k) s.
Proof.
  intros (y & -> & Hs & Hw & Hy) Hk. simpl. apply Hk; assumption.
Qed.

(** A step that returns, whatever it holds, before a poisoned one. *)
Lemma returns_then_poisoned (m : option (Tensor F))
  (k : Tensor F -> option (Tensor F)) (s1 s : list nat) :
  returns m s1 ->
  (forall y, shape y = s1 -> wf y -> poisoned nan (k y) s) ->
  poisoned nan (bind m k) s.
Proof.
  intros (y & -> & Hs & Hw) Hk. simpl. apply Hk; assumption.
Qed.

Lemma poisoned_tabulate (s : list nat) (f : nat -> F) :
  (forall o, o < numel_of s -> f o = nan) ->
  poisoned nan (Some (tabulate s f)) s.
Proof.
  intros Hf. exists (tabulate s f). split; [reflexivity|].
  split; [reflexivity|]. split; [apply tabulate_wf|].
  unfold tabulate; cbn [data]. apply Forall_forall.
  intros v Hv. apply in_map_iff in Hv. destruct Hv as (o & <- & Ho).
  apply Hf. apply in_seq in Ho. lia.
Qed.

Lemma poisoned_tabulate4 (N C H W : nat) (g : nat -> nat -> nat -> nat -> F) :
  (forall n c i j, n < N -> c < C -> i < H -> j < W -> g n c i j = nan) ->
  poisoned nan (Some (tabulate4 N C H W g)) [N; C; H; W].
Proof.
  intros Hg. unfold tabulate4. apply poisoned_tabulate.
  intros o Ho. cbn [numel_of fold_right] in Ho.
  destruct (unravel4_lt N C H W Ho) as (Hn & Hc & Hi & Hj).
  apply Hg; assumption.
Qed.

Lemma poisoned_map (f : F -> F) (x : Tensor F) (s : list nat) :
  f nan = nan ->
  shape x = s -> wf x -> Forall (fun v => v = nan) (data x) ->
  poisoned nan (Some (tensor_map f x)) s.
Proof.
  intros Hf Sx Wx Hx. exists (tensor_map f x). split; [reflexivity|].
  split; [exact Sx|]. split; [apply tensor_map_wf; exact Wx|].
  unfold tensor_map; cbn [data]. apply Forall_forall.
  intros v Hv. apply in_map_iff in Hv. destruct Hv as (w & <- & Hw).
  rewrite Forall_forall in Hx. now rewrite (Hx w Hw).
Qed.

Lemma view_infer_poisoned (t : Tensor F) (ds : list nat) (n : nat) :
  wf t -> Forall (fun v => v = nan) (data t) ->
  0 < numel_of ds -> numel t = n * numel_of ds ->
  poisoned nan (view t ((-1)%Z :: map Z.of_nat ds)) (n :: ds).
Proof.
  intros Hw Ht Hpos Hn. rewrite (@view_infer _ t ds n Hpos Hn).
  eexists. split; [reflexivity|]. split; [reflexivity|].
  split; [|exact Ht].
  unfold wf, numel in *; simpl. rewrite Hw, Hn. reflexivity.
Qed.

(** Element-wise arithmetic of a poisoned tensor with one that broadcasts to
    its shape. *)
Lemma broadcast2_poisoned (op : F -> F -> F) (a b : Tensor F) (s : list nat) :
  (forall v, op nan v = nan) ->
  shape a = s -> wf a -> Forall (fun v => v = nan) (data a) ->
  broadcast_shapes s (shape b) = Some s ->
  poisoned nan (broadcast2 op a b) s.
Proof.
  intros Hop Sa Wa Ha Hb. unfold broadcast2. rewrite Sa, Hb. cbn [bind].
  apply poisoned_tabulate. intros o Ho.
  rewrite bcast_offset_same by exact Ho.
  rewrite (@item_nan a o Wa Ha); [apply Hop|].
  unfold numel. now rewrite Sa.
Qed.

Section PoisonedLayers.

Variables (theta : Params (F := F)) (training : bool).

Lemma Linear_poisoned (l : Linear) (x : Tensor F) (N : nat) :
  shape x = [N; in_features l] -> 0 < in_features l ->
  wf x -> Forall (fun v => v = nan) (data x) ->
  poisoned nan (Linear_forward theta training l x) [N; out_features l].
Proof.
  intros Sx Hd Wx Hx.
  rewrite (@Linear_forward_eq _ _ theta training l x N Sx).
  apply poisoned_tabulate. intros o Ho. cbn [numel_of fold_right] in Ho.
  cbn beta.
  rewrite (@dot_nan_l (in_features l) 0); [apply add_bias_nan | exact Hd |].
  apply item_nan; [exact Wx | exact Hx |].
  unfold numel. rewrite Sx. cbn [numel_of fold_right].
  assert (Hr : o / out_features l < N).
  { apply Nat.Div0.div_lt_upper_bound. lia. }
  nia.
Qed.

Lemma BatchNorm2d_poisoned (b : BatchNorm2d) (x : Tensor F) (N C H W : nat) :
  shape x = [N; C; H; W] -> C = num_features b -> N * H * W <> 1 ->
  wf x -> Forall (fun v => v = nan) (data x) ->
  poisoned nan (BatchNorm2d_forward theta training b x) [N; C; H; W].
Proof.
  intros Sx HC Hcnt Wx Hx.
  rewrite (@BatchNorm2d_forward_eq _ _ theta training b x N C H W Sx HC)
    by (right; exact Hcnt).
  apply poisoned_tabulate4. intros n c i j Hn Hc Hi Hj. cbn zeta.
  assert (E : bn_normalized theta training b x N C H W n c i j = nan).
  { unfold bn_normalized.
    rewrite (@item4_nan x N C H W n c i j) by assumption.
    now rewrite (fsub_nan_l Hnan), (fdiv_nan_l Hnan). }
  rewrite E. destruct (affine b); [|reflexivity].
  now rewrite (fmul_nan_l Hnan), (fadd_nan_l Hnan).
Qed.

Lemma Upsample_poisoned (scale : nat) (x : Tensor F) (N C H W : nat) :
  shape x = [N; C; H; W] -> 0 < C -> 0 < H -> 0 < W -> 0 < scale ->
  wf x -> Forall (fun v => v = nan) (data x) ->
  poisoned nan (Upsample_forward scale x) [N; C; H * scale; W * scale].
Proof.
  intros Sx Hc Hh Hw Hs Wx Hx. unfold Upsample_forward. rewrite Sx.
  destruct (Nat.ltb_spec 0 C) as [_|E]; [|lia].
  destruct (Nat.ltb_spec 0 H) as [_|E]; [|lia].
  destruct (Nat.ltb_spec 0 W) as [_|E]; [|lia].
  destruct (Nat.ltb_spec 0 scale) as [_|E]; [|lia].
  cbn [andb]. apply poisoned_tabulate4. intros n c i j Hn Hc' Hi Hj.
  apply (@item4_nan x N C H W); try assumption.
  - apply Nat.Div0.div_lt_upper_bound. lia.
  - apply Nat.Div0.div_lt_upper_bound. lia.
Qed.

(** A stride 1 convolution with [2 * padding + 1 = kernel]: every output
    position reads, through its centre tap, a value of the input. *)
Lemma Conv2d_same_poisoned (cv : Conv2d) (x : Tensor F) (N C H W : nat) :
  shape x = [N; C; H; W] -> C = in_channels cv -> 0 < C ->
  conv_stride cv = 1 -> kernel_size cv = 2 * conv_padding cv + 1 ->
  0 < H -> 0 < W ->
  wf x -> Forall (fun v => v = nan) (data x) ->
  poisoned nan (Conv2d_forward theta training cv x) [N; out_channels cv; H; W].
Proof.
  intros Sx HC Hc Hs Hk Hh Hw Wx Hx. subst C.
  unfold Conv2d_forward. rewrite Sx, Hs, Hk.
  set (p := conv_padding cv) in *.
  rewrite Nat.eqb_refl.
  destruct (Nat.leb_spec (2 * p + 1) (H + 2 * p)) as [_|E]; [|lia].
  destruct (Nat.leb_spec (2 * p + 1) (W + 2 * p)) as [_|E]; [|lia].
  cbn [Nat.ltb Nat.leb andb]. rewrite !Nat.div_1_r.
  replace (H + 2 * p - (2 * p + 1) + 1) with H by lia.
  replace (W + 2 * p - (2 * p + 1) + 1) with W by lia.
  apply poisoned_tabulate4. intros n co i j Hn Hco Hi Hj.
  set (k := 2 * p + 1).
  rewrite (@dot_nan_r (in_channels cv * k * k) (p * k + p));
    [apply add_bias_nan | unfold k; nia |].
  assert (Hpk : p < k) by (unfold k; lia).
  assert (E1 : (p * k + p) / (k * k) = 0)
    by (apply Nat.div_small; unfold k; nia).
  assert (E2 : ((p * k + p) / k) mod k = p)
    by (rewrite div_small_add by exact Hpk; apply Nat.mod_small; exact Hpk).
  assert (E3 : (p * k + p) mod k = p) by (apply mod_small_add; exact Hpk).
  rewrite E1, E2, E3. unfold padded.
  destruct (Nat.leb_spec p (i * 1 + p)) as [_|E]; [|lia].
  destruct (Nat.ltb_spec (i * 1 + p) (H + p)) as [_|E]; [|lia].
  destruct (Nat.leb_spec p (j * 1 + p)) as [_|E]; [|lia].
  destruct (Nat.ltb_spec (j * 1 + p) (W + p)) as [_|E]; [|lia].
  cbn [andb].
  apply (@item4_nan x N (in_channels cv) H W); try assumption; lia.
Qed.

End PoisonedLayers.

End PoisonFacts.

Section PoisonedGenerator.

Context {F : Type} {SF : Scalar F}.
Variable nan : F.
Hypothesis Hnan : absorbing nan.
Variables (theta : Params (F := F)) (training : bool).

Lemma ConditionalBatchNorm2d_poisoned (name : string) (C E N H W : nat)
  (x y : Tensor F) :
  shape x = [N; C; H; W] -> shape y = [N; E] ->
  0 < C -> N * H * W <> 1 ->
  wf x -> Forall (fun v => v = nan) (data x) ->
  poisoned nan (ConditionalBatchNorm2d.forward theta training
                  (ConditionalBatchNorm2d.init name C E) x y)
           [N; C; H; W].
Proof.
  intros Sx Sy Hc Hcnt Wx Hx. unfold ConditionalBatchNorm2d.forward.
  cbn [ConditionalBatchNorm2d.init ConditionalBatchNorm2d.bn
       ConditionalBatchNorm2d.embed_gamma ConditionalBatchNorm2d.embed_beta
       ConditionalBatchNorm2d.num_features].
  apply poisoned_bind with (s1 := [N; C; H; W]).
  { apply BatchNorm2d_poisoned; (assumption || reflexivity). }
  intros out Sout Wout Hout.
  apply returns_then_poisoned with (s1 := [N; C]).
  { apply (Linear_returns theta training
             (mkLinear (name ++ ".embed_gamma") E C false false)); exact Sy. }
  intros g Sg Wg.
  apply returns_then_poisoned with (s1 := [N; C; 1; 1]).
  { apply channel_view_returns; assumption. }
  intros gamma Sgamma _.
  apply returns_then_poisoned with (s1 := [N; C]).
  { apply (Linear_returns theta training
             (mkLinear (name ++ ".embed_beta") E C false false)); exact Sy. }
  intros b Sb Wb.
  apply returns_then_poisoned with (s1 := [N; C; 1; 1]).
  { apply channel_view_returns; assumption. }
  intros beta Sbeta _.
  apply poisoned_bind with (s1 := [N; C; H; W]).
  { apply broadcast2_poisoned; try assumption.
    - apply (fmul_nan_l Hnan).
    - rewrite Sgamma. apply broadcast_shapes_channel. }
  intros scaled Sscaled _ _.
  apply poisoned_bind with (s1 := [N; C; H; W]).
  { apply broadcast2_poisoned; try assumption.
    - apply (fadd_nan_l Hnan).
    - rewrite Sscaled. apply broadcast_shapes_same. }
  intros acc Sacc Wacc Hacc.
  apply broadcast2_poisoned; try assumption.
  - apply (fadd_nan_l Hnan).
  - rewrite Sbeta. apply broadcast_shapes_channel.
Qed.

Lemma ReLU_poisoned (x : Tensor F) (s : list nat) :
  shape x = s -> wf x -> Forall (fun v => v = nan) (data x) ->
  poisoned nan (Some (ReLU x)) s.
Proof. apply poisoned_map. apply (relu_nan Hnan). Qed.

Lemma ResBlockGenerator_poisoned (name : string) (Ci Co E : nat) (b : bool)
  (N H W : nat) (x : Tensor F) (h : option (Tensor F)) :
  shape x = [N; Ci; H; W] -> embedding_ok h N E ->
  0 < Ci -> 0 < Co -> 0 < H -> 0 < W -> N * H * W <> 1 ->
  wf x -> Forall (fun v => v = nan) (data x) ->
  poisoned nan (ResBlockGenerator.forward theta training
                  (ResBlockGenerator.init name Ci Co E b) x h)
           [N; Co; H * 2; W * 2].
Proof.
  intros Sx Hh Hci Hco HH HW Hcnt Wx Hx.
  assert (Hskip : returns (Sequential_forward theta training
                    (ResBlockGenerator.bypass
                       (ResBlockGenerator.init name Ci Co E b)) x)
                    [N; Co; H * 2; W * 2])
    by (apply ResBlockGenerator_bypass_returns; assumption).
  unfold ResBlockGenerator.forward. destruct h as [h|].
  - cbn [ResBlockGenerator.init ResBlockGenerator.condgn1
         ResBlockGenerator.condgn2 ResBlockGenerator.relu
         ResBlockGenerator.upsample ResBlockGenerator.conv1
         ResBlockGenerator.conv2 Layer_forward].
    apply poisoned_bind with (s1 := [N; Ci; H; W]).
    { apply ConditionalBatchNorm2d_poisoned; assumption. }
    intros o1 S1 W1 P1.
    apply poisoned_bind with (s1 := [N; Ci; H; W]).
    { apply ReLU_poisoned; assumption. }
    intros o2 S2 W2 P2.
    apply poisoned_bind with (s1 := [N; Ci; H * 2; W * 2]).
    { apply Upsample_poisoned; (assumption || lia). }
    intros o3 S3 W3 P3.
    apply poisoned_bind with (s1 := [N; Co; H * 2; W * 2]).
    { apply (@Conv2d_same_poisoned _ _ nan Hnan theta training
               (mkConv2d (name ++ ".conv1") Ci Co 3 1 1 b false)
               o3 N Ci (H * 2) (W * 2));
        (assumption || reflexivity || lia). }
    intros o4 S4 W4 P4.
    apply poisoned_bind with (s1 := [N; Co; H * 2; W * 2]).
    { apply ConditionalBatchNorm2d_poisoned;
        (assumption || apply count_doubled). }
    intros o5 S5 W5 P5.
    apply poisoned_bind with (s1 := [N; Co; H * 2; W * 2]).
    { apply ReLU_poisoned; assumption. }
    intros o6 S6 W6 P6.
    apply poisoned_bind with (s1 := [N; Co; H * 2; W * 2]).
    { apply (@Conv2d_same_poisoned _ _ nan Hnan theta training
               (mkConv2d (name ++ ".conv2") Co Co 3 1 1 b false)
               o6 N Co (H * 2) (W * 2));
        (assumption || reflexivity || lia). }
    intros o7 S7 W7 P7.
    apply returns_then_poisoned with (s1 := [N; Co; H * 2; W * 2]);
      [exact Hskip|].
    intros skip Sskip _.
    apply broadcast2_poisoned; try assumption.
    + apply (fadd_nan_l Hnan).
    + rewrite Sskip. apply broadcast_shapes_same.
  - apply poisoned_bind with (s1 := [N; Co; H * 2; W * 2]).
    { cbn [ResBlockGenerator.init ResBlockGenerator.model Sequential_forward
           Layer_forward].
      apply poisoned_bind with (s1 := [N; Ci; H; W]).
      { apply BatchNorm2d_poisoned; (assumption || reflexivity). }
      intros o1 S1 W1 P1.
      apply poisoned_bind with (s1 := [N; Ci; H; W]).
      { apply ReLU_poisoned; assumption. }
      intros o2 S2 W2 P2.
      apply poisoned_bind with (s1 := [N; Ci; H * 2; W * 2]).
      { apply Upsample_poisoned; (assumption || lia). }
      intros o3 S3 W3 P3.
      apply poisoned_bind with (s1 := [N; Co; H * 2; W * 2]).
      { apply (@Conv2d_same_poisoned _ _ nan Hnan theta training
                 (mkConv2d (name ++ ".conv1") Ci Co 3 1 1 b false)
                 o3 N Ci (H * 2) (W * 2));
          (assumption || reflexivity || lia). }
      intros o4 S4 W4 P4.
      apply poisoned_bind with (s1 := [N; Co; H * 2; W * 2]).
      { apply BatchNorm2d_poisoned;
          (assumption || reflexivity || apply count_doubled). }
      intros o5 S5 W5 P5.
      apply poisoned_bind with (s1 := [N; Co; H * 2; W * 2]).
      { apply ReLU_poisoned; assumption. }
      intros o6 S6 W6 P6.
      apply poisoned_bind with (s1 := [N; Co; H * 2; W * 2]).
      { apply (@Conv2d_same_poisoned _ _ nan Hnan theta training
                 (mkConv2d (name ++ ".conv2") Co Co 3 1 1 b false)
                 o6 N Co (H * 2) (W * 2));
          (assumption || reflexivity || lia). }
      intros o7 S7 W7 P7. exists o7. auto. }
    intros out Sout Wout Pout.
    apply returns_then_poisoned with (s1 := [N; Co; H * 2; W * 2]);
      [exact Hskip|].
    intros skip Sskip _.
    apply broadcast2_poisoned; try assumption.
    + apply (fadd_nan_l Hnan).
    + rewrite Sskip. apply broadcast_shapes_same.
Qed.

(** A latent holding [nan] only gives an image holding [nan] only. *)
Lemma SnganGenerator_poisoned (nz E ch N : nat) (z : Tensor F)
  (h : option (Tensor F)) :
  0 < ch -> 0 < nz -> shape z = [N; nz] -> embedding_ok h N E ->
  wf z -> Forall (fun v => v = nan) (data z) ->
  poisoned nan (SnganGenerator.forward theta training
                  (SnganGenerator.init nz E ch) z h)
           [N; 3; 64; 64].
Proof.
  intros Hch Hnz Sz Hh Wz Hz. unfold SnganGenerator.forward.
  cbn [SnganGenerator.init SnganGenerator.dense SnganGenerator.gen_ch
       SnganGenerator.genblock0 SnganGenerator.genblock1
       SnganGenerator.genblock2 SnganGenerator.genblock3
       SnganGenerator.final].
  unfold size. rewrite Sz. cbn [nth_error bind].
  change [Z.of_nat N; Z.of_nat nz] with (map Z.of_nat [N; nz]).
  rewrite (@view_exact _ z [N; nz]) by (unfold numel; rewrite Sz; reflexivity).
  cbn [bind].
  apply poisoned_bind with (s1 := [N; 4 * 4 * ch * 16]).
  { apply (@Linear_poisoned _ _ nan Hnan theta training
             (mkLinear "dense" nz (4 * 4 * ch * 16) true false)
             (mkTensor [N; nz] (data z)) N);
      [reflexivity | exact Hnz | | exact Hz].
    unfold wf, numel in *. cbn [shape data]. now rewrite Wz, Sz. }
  intros d Sd Wd Pd.
  apply poisoned_bind with (s1 := [N; ch * 16; 4; 4]).
  { apply (@view_infer_poisoned _ nan d [ch * 16; 4; 4] N Wd Pd).
    - cbn [numel_of fold_right]. lia.
    - unfold numel. rewrite Sd. cbn [numel_of fold_right]. lia. }
  intros o0 S0 W0 P0.
  apply poisoned_bind with (s1 := [N; ch * 8; 8; 8]).
  { apply (@ResBlockGenerator_poisoned "genblock0" (ch * 16) (ch * 8) E true
             N 4 4 o0 h); (assumption || lia). }
  intros o1 S1 W1 P1.
  apply poisoned_bind with (s1 := [N; ch * 4; 16; 16]).
  { apply (@ResBlockGenerator_poisoned "genblock1" (ch * 8) (ch * 4) E true
             N 8 8 o1 h); (assumption || lia). }
  intros o2 S2 W2 P2.
  apply poisoned_bind with (s1 := [N; ch * 2; 32; 32]).
  { apply (@ResBlockGenerator_poisoned "genblock2" (ch * 4) (ch * 2) E true
             N 16 16 o2 h); (assumption || lia). }
  intros o3 S3 W3 P3.
  apply poisoned_bind with (s1 := [N; ch; 64; 64]).
  { apply (@ResBlockGenerator_poisoned "genblock3" (ch * 2) ch E true
             N 32 32 o3 h); (assumption || lia). }
  intros o4 S4 W4 P4.
  cbn [Sequential_forward Layer_forward].
  apply poisoned_bind with (s1 := [N; ch; 64; 64]).
  { apply BatchNorm2d_poisoned; (assumption || reflexivity || lia). }
  intros o5 S5 W5 P5.
  apply poisoned_bind with (s1 := [N; ch; 64; 64]).
  { apply ReLU_poisoned; assumption. }
  intros o6 S6 W6 P6.
  apply poisoned_bind with (s1 := [N; 3; 64; 64]).
  { apply (@Conv2d_same_poisoned _ _ nan Hnan theta training
             (mkConv2d "final.2" ch channels 3 1 1 bias false)
             o6 N ch 64 64); (assumption || reflexivity || lia). }
  intros o7 S7 W7 P7.
  apply poisoned_bind with (s1 := [N; 3; 64; 64]).
  { apply poisoned_map; (assumption || apply (ftanh_nan Hnan)). }
  intros o8 S8 W8 P8. exists o8. auto.
Qed.

End PoisonedGenerator.

(** ** The forward passes, stage by stage *)

Section Refinements.
Context {F : Type} {SF : Scalar F}.
Variables (theta : Params (F := F)) (training : bool).

Lemma ResBlockGenerator_forward_None (name : string) (Ci Co E : nat) (b : bool)
  (x : Tensor F) :
  let B := ResBlockGenerator.init name Ci Co E b in
  ResBlockGenerator.forward theta training B x None
  = unconditional_path theta training name Ci Co B x.
Proof.
  intros B. subst B. unfold ResBlockGenerator.forward, unconditional_path.
  cbn [ResBlockGenerator.init ResBlockGenerator.model ResBlockGenerator.bypass
       ResBlockGenerator.conv1 ResBlockGenerator.conv2
       ResBlockGenerator.bypass_conv Sequential_forward Layer_forward].
  destruct (BatchNorm2d_forward theta training _ x) as [o1|];
    cbn [bind]; [|reflexivity].
  destruct (Upsample_forward 2 (ReLU o1)) as [o3|]; cbn [bind]; [|reflexivity].
  destruct (Conv2d_forward theta training _ o3) as [o4|];
    cbn [bind]; [|reflexivity].
  destruct (BatchNorm2d_forward theta training _ o4) as [o5|];
    cbn [bind]; [|reflexivity].
  destruct (Conv2d_forward theta training _ (ReLU o5)) as [o7|];
    cbn [bind]; [|reflexivity].
  destruct (Upsample_forward 2 x) as [s1|]; cbn [bind]; [|reflexivity].
  destruct (Conv2d_forward theta training _ s1) as [s2|];
    cbn [bind]; reflexivity.
Qed.

Lemma SnganGenerator_forward_None (nz E ch N : nat) (z : Tensor F) :
  shape z = [N; nz] ->
  let G := SnganGenerator.init nz E ch in
  SnganGenerator.forward theta training G z None
  = unconditional_generator theta training G N z.
Proof.
  intros Hz G. subst G.
  unfold SnganGenerator.forward, unconditional_generator, size.
  rewrite Hz. cbn [nth_error bind].
  cbn [SnganGenerator.init SnganGenerator.dense SnganGenerator.gen_ch
       SnganGenerator.z_dim
       SnganGenerator.genblock0 SnganGenerator.genblock1
       SnganGenerator.genblock2 SnganGenerator.genblock3
       SnganGenerator.final].
  destruct (view z [Z.of_nat N; Z.of_nat nz]) as [z'|];
    cbn [bind]; [|reflexivity].
  destruct (Linear_forward theta training _ z') as [d|];
    cbn [bind]; [|reflexivity].
  destruct (view d _) as [o0|]; cbn [bind]; [|reflexivity].
  rewrite (ResBlockGenerator_forward_None "genblock0" (ch * 16) (ch * 8) E true).
  destruct (unconditional_path theta training "genblock0" _ _ _ o0) as [o1|];
    cbn [bind]; [|reflexivity].
  rewrite (ResBlockGenerator_forward_None "genblock1" (ch * 8) (ch * 4) E true).
  destruct (unconditional_path theta training "genblock1" _ _ _ o1) as [o2|];
    cbn [bind]; [|reflexivity].
  rewrite (ResBlockGenerator_forward_None "genblock2" (ch * 4) (ch * 2) E true).
  destruct (unconditional_path theta training "genblock2" _ _ _ o2) as [o3|];
    cbn [bind]; [|reflexivity].
  rewrite (ResBlockGenerator_forward_None "genblock3" (ch * 2) ch E true).
  reflexivity.
Qed.

Lemma FirstResBlockDiscriminator_forward_paths (name : string)
  (Ci Co stride : nat) (x : Tensor F) :
  let B := FirstResBlockDiscriminator.init name Ci Co stride in
  FirstResBlockDiscriminator.forward theta training B x
  = first_block_paths theta training B x.
Proof.
  intros B. subst B.
  unfold FirstResBlockDiscriminator.forward, first_block_paths.
  cbn [FirstResBlockDiscriminator.init FirstResBlockDiscriminator.model
       FirstResBlockDiscriminator.bypass FirstResBlockDiscriminator.conv1
       FirstResBlockDiscriminator.conv2 FirstResBlockDiscriminator.bypass_conv
       Sequential_forward Layer_forward].
  destruct (Conv2d_forward theta training _ x) as [o1|];
    cbn [bind]; [|reflexivity].
  destruct (Conv2d_forward theta training _ (ReLU o1)) as [o2|];
    cbn [bind]; [|reflexivity].
  destruct (AvgPool2d_forward 2 None 0 o2) as [o3|]; cbn [bind]; [|reflexivity].
  destruct (AvgPool2d_forward 2 None 0 x) as [s1|]; cbn [bind]; [|reflexivity].
  destruct (Conv2d_forward theta training _ s1) as [s2|];
    cbn [bind]; reflexivity.
Qed.

(** The last stage of the generator is [tanh] of what batch-norm, ReLU and
    the 3x3 convolution to 3 planes give. *)
Lemma final_stages (nz E ch N : nat) (x : Tensor F) :
  shape x = [N; ch; 64; 64] ->
  exists pre,
    Sequential_forward theta training
      [ L_BatchNorm2d (mkBatchNorm2d "final.0" ch true);
        L_ReLU;
        L_Conv2d (mkConv2d "final.2" ch 3 3 1 1 true false) ] x = Some pre /\
    shape pre = [N; 3; 64; 64] /\ wf pre /\
    Sequential_forward theta training
      (SnganGenerator.final (SnganGenerator.init nz E ch)) x
    = Some (Tanh pre).
Proof.
  intros Hx.
  cbn [SnganGenerator.init SnganGenerator.final Sequential_forward Layer_forward].
  destruct (@BatchNorm2d_returns _ _ theta training
              (mkBatchNorm2d "final.0" ch true) x N ch 64 64 Hx eq_refl)
    as (o1 & E1 & H1 & W1); [lia|].
  rewrite E1. cbn [bind].
  destruct (@Conv2d_same_returns _ _ theta training
              (mkConv2d "final.2" ch channels 3 1 1 bias false)
              (ReLU o1) N ch 64 64 H1 eq_refl eq_refl eq_refl)
    as (o3 & E3 & H3 & W3); [lia | lia |].
  change (mkConv2d "final.2" ch 3 3 1 1 true false)
    with (mkConv2d "final.2" ch channels 3 1 1 bias false).
  rewrite E3. cbn [bind].
  exists o3. auto.
Qed.

Lemma SnganGenerator_forward_stages (nz E ch N : nat) (z : Tensor F)
  (h : option (Tensor F)) :
  0 < ch -> shape z = [N; nz] -> embedding_ok h N E ->
  exists f pre,
    shape f = [N; ch; 64; 64] /\
    Sequential_forward theta training
      [ L_BatchNorm2d (mkBatchNorm2d "final.0" ch true);
        L_ReLU;
        L_Conv2d (mkConv2d "final.2" ch 3 3 1 1 true false) ] f = Some pre /\
    shape pre = [N; 3; 64; 64] /\ wf pre /\
    SnganGenerator.forward theta training (SnganGenerator.init nz E ch) z h
    = Some (Tanh pre).
Proof.
  intros Hch Hz Hh.
  destruct (@SnganGenerator_feature_returns _ _ theta training nz E ch N z h
              Hch Hz Hh) as (f & Ef & Hf & _).
  destruct (@final_stages nz E ch N f Hf) as (pre & Ep & Hp & Wp & Ey).
  exists f, pre. repeat (split; [assumption|]).
  unfold SnganGenerator.forward.
  destruct (size z 0) as [n|]; [|discriminate]. cbn [bind] in *.
  destruct (size z 1) as [d|]; [|discriminate]. cbn [bind] in *.
  destruct (view z [Z.of_nat n; Z.of_nat d]) as [z'|]; [|discriminate].
  cbn [bind] in *.
  destruct (Linear_forward theta training _ z') as [o|]; [|discriminate].
  cbn [bind] in *.
  destruct (view o _) as [o0|]; [|discriminate]. cbn [bind] in *.
  destruct (ResBlockGenerator.forward theta training _ o0 h) as [o1|];
    [|discriminate]. cbn [bind] in *.
  destruct (ResBlockGenerator.forward theta training _ o1 h) as [o2|];
    [|discriminate]. cbn [bind] in *.
  destruct (ResBlockGenerator.forward theta training _ o2 h) as [o3|];
    [|discriminate]. cbn [bind] in *.
  rewrite Ef. cbn [bind]. exact Ey.
Qed.

End Refinements.

Section Features64.

Context {F : Type} {SF : Scalar F}.
Variables (theta : Params (F := F)) (training : bool).

(** On a 64x64 image the feature map is [(N, 16 * disc_ch, 4, 4)]. *)
Lemma features_64_returns (E ch N : nat) (x : Tensor F) :
  shape x = [N; 3; 64; 64] ->
  returns (SnganDiscriminator.features theta training
             (SnganDiscriminator.init E ch) x)
          [N; ch * 16; 4; 4].
Proof.
  intros Hx.
  apply (@features_returns _ _ theta training E ch N 64 64 x Hx); lia.
Qed.

Lemma joined_batch_same (N : nat) : joined_batch N N = Some N.
Proof. unfold joined_batch. now rewrite Nat.eqb_refl. Qed.

End Features64.

(** ** Which parameters a module reads *)

Lemma append_assoc (a b c : string) :
  ((a ++ b) ++ c)%string = (a ++ (b ++ c))%string.
Proof. induction a as [|ch a IH]; simpl; [reflexivity | now rewrite IH]. Qed.

Lemma append_inj_l (a b c : string) :
  (a ++ b)%string = (a ++ c)%string -> b = c.
Proof.
  induction a as [|ch a IH]; simpl; intros E; [exact E|].
  injection E as E. apply IH; exact E.
Qed.

Section ParameterReads.

Context {F : Type} {SF : Scalar F}.
Variable training : bool.

Lemma agree_under_sub (m sub : string) (theta theta' : Params (F := F)) :
  agree_under m theta theta' -> agree_under (m ++ sub) theta theta'.
Proof. intros A sfx i. rewrite append_assoc. apply A. Qed.

Lemma fsum_ext (l l' : list F) : l = l' -> fsum l = fsum l'.
Proof. now intros ->. Qed.

Lemma dot_ext (n : nat) (a a' b b' : nat -> F) :
  (forall k, a k = a' k) -> (forall k, b k = b' k) -> dot n a b = dot n a' b'.
Proof.
  intros Ha Hb. unfold dot. apply fsum_ext, map_ext.
  intros k. now rewrite Ha, Hb.
Qed.

Lemma normalize_ext (n : nat) (a a' : nat -> F) :
  (forall k, a k = a' k) -> forall k, normalize n a k = normalize n a' k.
Proof.
  intros Ha k. unfold normalize. rewrite Ha.
  now rewrite (@dot_ext n a a' a a' Ha Ha).
Qed.

Lemma tabulate_ext (s : list nat) (f f' : nat -> F) :
  (forall o, f o = f' o) -> tabulate s f = tabulate s f'.
Proof. intros Hf. unfold tabulate. f_equal. apply map_ext, Hf. Qed.

Lemma tabulate4_ext (N C H W : nat) (g g' : nat -> nat -> nat -> nat -> F) :
  (forall n c i j, g n c i j = g' n c i j) ->
  tabulate4 N C H W g = tabulate4 N C H W g'.
Proof. intros Hg. apply tabulate_ext. intros o. apply Hg. Qed.

Variables theta theta' : Params (F := F).

Lemma weight_orig_ext (name : string) (sn : bool) (cols r k : nat) :
  agree_under name theta theta' ->
  weight_orig theta name sn cols r k = weight_orig theta' name sn cols r k.
Proof. intros A. unfold weight_orig. apply A. Qed.

Lemma sigma_ext (name : string) (rows cols : nat) :
  agree_under name theta theta' ->
  sigma theta training name rows cols = sigma theta' training name rows cols.
Proof.
  intros A. unfold sigma.
  assert (EW : forall r k, weight_orig theta name true cols r k
                           = weight_orig theta' name true cols r k)
    by (intros; apply weight_orig_ext; exact A).
  assert (Ev : forall k,
             (if training
              then normalize cols
                     (fun k => dot rows (fun r => weight_orig theta name true cols r k)
                                   (theta (name ++ ".weight_u")%string))
              else theta (name ++ ".weight_v")%string) k
             = (if training
                then normalize cols
                       (fun k => dot rows (fun r => weight_orig theta' name true cols r k)
                                     (theta' (name ++ ".weight_u")%string))
                else theta' (name ++ ".weight_v")%string) k).
  { intros k. destruct training; [|apply A].
    apply normalize_ext. intros k'. apply dot_ext; intros; [apply EW | apply A]. }
  assert (Eu : forall r,
             (if training
              then normalize rows
                     (fun r => dot cols (weight_orig theta name true cols r)
                       (if training
                        then normalize cols
                               (fun k => dot rows
                                  (fun r => weight_orig theta name true cols r k)
                                  (theta (name ++ ".weight_u")%string))
                        else theta (name ++ ".weight_v")%string))
              else theta (name ++ ".weight_u")%string) r
             = (if training
                then normalize rows
                       (fun r => dot cols (weight_orig theta' name true cols r)
                         (if training
                          then normalize cols
                                 (fun k => dot rows
                                    (fun r => weight_orig theta' name true cols r k)
                                    (theta' (name ++ ".weight_u")%string))
                          else theta' (name ++ ".weight_v")%string))
                else theta' (name ++ ".weight_u")%string) r).
  { intros r. destruct training eqn:Et; [|apply A].
    apply normalize_ext. intros r'. apply dot_ext; intros; [apply EW | apply Ev]. }
  cbv zeta. apply dot_ext; [exact Eu|].
  intros r. apply dot_ext; intros; [apply EW | apply Ev].
Qed.

Lemma weight_ext (name : string) (sn : bool) (rows cols r k : nat) :
  agree_under name theta theta' ->
  weight theta training name sn rows cols r k
  = weight theta' training name sn rows cols r k.
Proof.
  intros A. unfold weight. destruct sn.
  - now rewrite (@weight_orig_ext name true cols r k A), (@sigma_ext name rows cols A).
  - apply weight_orig_ext; exact A.
Qed.

Lemma add_bias_ext (name : string) (has_bias : bool) (r : nat) (v v' : F) :
  agree_under name theta theta' -> v = v' ->
  add_bias theta name has_bias r v = add_bias theta' name has_bias r v'.
Proof. intros A ->. unfold add_bias. destruct has_bias; [|reflexivity]. now rewrite A. Qed.

Lemma Linear_forward_ext (l : Linear) (x : Tensor F) :
  agree_under (linear_name l) theta theta' ->
  Linear_forward theta training l x = Linear_forward theta' training l x.
Proof.
  intros A. unfold Linear_forward.
  destruct (rev (shape x)) as [|d lead]; [reflexivity|].
  destruct (d =? in_features l); [|reflexivity].
  f_equal. apply tabulate_ext. intros o.
  apply add_bias_ext; [exact A|].
  apply dot_ext; intros; [reflexivity | apply weight_ext; exact A].
Qed.

Lemma Conv2d_forward_ext (cv : Conv2d) (x : Tensor F) :
  agree_under (conv_name cv) theta theta' ->
  Conv2d_forward theta training cv x = Conv2d_forward theta' training cv x.
Proof.
  intros A. unfold Conv2d_forward.
  destruct (shape x) as [|N [|C [|H [|W [|]]]]]; try reflexivity.
  match goal with |- (if ?c then _ else _) = _ => destruct c end;
    [|reflexivity].
  f_equal. apply tabulate4_ext. intros n co i j.
  apply add_bias_ext; [exact A|].
  apply dot_ext; intros; [apply weight_ext; exact A | reflexivity].
Qed.

Lemma bn_mean_ext (b : BatchNorm2d) (x : Tensor F) (N C H W c : nat) :
  agree_under (bn_name b) theta theta' ->
  bn_mean theta training b x N C H W c = bn_mean theta' training b x N C H W c.
Proof. intros A. unfold bn_mean. destruct training; [reflexivity | apply A]. Qed.

Lemma bn_var_ext (b : BatchNorm2d) (x : Tensor F) (N C H W c : nat) :
  agree_under (bn_name b) theta theta' ->
  bn_var theta training b x N C H W c = bn_var theta' training b x N C H W c.
Proof.
  intros A. unfold bn_var, bn_mean. destruct training; [reflexivity | apply A].
Qed.

Lemma BatchNorm2d_forward_ext (b : BatchNorm2d) (x : Tensor F) :
  agree_under (bn_name b) theta theta' ->
  BatchNorm2d_forward theta training b x
  = BatchNorm2d_forward theta' training b x.
Proof.
  intros A. unfold BatchNorm2d_forward.
  destruct (shape x) as [|N [|C [|H [|W [|]]]]]; try reflexivity.
  destruct (negb (C =? num_features b)); [reflexivity|].
  destruct (training && (N * H * W =? 1)); [reflexivity|].
  f_equal. apply tabulate4_ext. intros n c i j. cbv zeta.
  unfold bn_normalized.
  rewrite (@bn_mean_ext b x N C H W c A), (@bn_var_ext b x N C H W c A).
  destruct (affine b); [|reflexivity]. now rewrite !A.
Qed.

Lemma Layer_forward_ext (l : Layer) (x : Tensor F) :
  Layer_agree l theta theta' ->
  Layer_forward theta training l x = Layer_forward theta' training l x.
Proof.
  destruct l; cbn [Layer_agree Layer_forward]; intros A; try reflexivity.
  - apply Conv2d_forward_ext; exact A.
  - apply BatchNorm2d_forward_ext; exact A.
Qed.

Lemma Sequential_forward_ext (ls : list Layer) :
  Forall (fun l => Layer_agree l theta theta') ls ->
  forall x, Sequential_forward theta training ls x
            = Sequential_forward theta' training ls x.
Proof.
  induction 1 as [|l ls Hl _ IH]; intros x; cbn [Sequential_forward];
    [reflexivity|].
  rewrite (@Layer_forward_ext l x Hl).
  destruct (Layer_forward theta' training l x) as [y|]; cbn [bind];
    [apply IH | reflexivity].
Qed.

Lemma ConditionalBatchNorm2d_forward_ext (name : string) (C E : nat)
  (x y : Tensor F) :
  agree_under name theta theta' ->
  ConditionalBatchNorm2d.forward theta training
    (ConditionalBatchNorm2d.init name C E) x y
  = ConditionalBatchNorm2d.forward theta' training
      (ConditionalBatchNorm2d.init name C E) x y.
Proof.
  intros A. unfold ConditionalBatchNorm2d.forward.
  cbn [ConditionalBatchNorm2d.init ConditionalBatchNorm2d.bn
       ConditionalBatchNorm2d.embed_gamma ConditionalBatchNorm2d.embed_beta
       ConditionalBatchNorm2d.num_features].
  rewrite (@BatchNorm2d_forward_ext (mkBatchNorm2d (name ++ ".bn") C false) x)
    by (apply agree_under_sub; exact A).
  rewrite (@Linear_forward_ext
             (mkLinear (name ++ ".embed_gamma") E C false false) y)
    by (apply agree_under_sub; exact A).
  rewrite (@Linear_forward_ext
             (mkLinear (name ++ ".embed_beta") E C false false) y)
    by (apply agree_under_sub; exact A).
  reflexivity.
Qed.

End ParameterReads.

(** ** The parameters read by the two paths of a generator block *)

Section GeneratorBlockReads.

Context {F : Type} {SF : Scalar F}.
Variable training : bool.

Lemma override_agree (theta : Params (F := F)) (k m : string) (v : nat -> F) :
  (forall sfx, k <> (m ++ sfx)%string) ->
  agree_under m (override theta k v) theta.
Proof.
  intros Hk sfx i. unfold override.
  destruct (String.eqb_spec (m ++ sfx) k) as [E|_]; [|reflexivity].
  exfalso. apply (Hk sfx). symmetry. exact E.
Qed.

Lemma ResBlockGenerator_cond_ext (theta theta' : Params (F := F))
  (name : string) (Ci Co E : nat) (b : bool) (x h : Tensor F) :
  agree_under (name ++ ".conv1") theta theta' ->
  agree_under (name ++ ".conv2") theta theta' ->
  agree_under (name ++ ".bypass_conv") theta theta' ->
  agree_under (name ++ ".condgn1") theta theta' ->
  agree_under (name ++ ".condgn2") theta theta' ->
  ResBlockGenerator.forward theta training
    (ResBlockGenerator.init name Ci Co E b) x (Some h)
  = ResBlockGenerator.forward theta' training
      (ResBlockGenerator.init name Ci Co E b) x (Some h).
Proof.
  intros A1 A2 A3 A4 A5. unfold ResBlockGenerator.forward.
  cbn [ResBlockGenerator.init ResBlockGenerator.condgn1
       ResBlockGenerator.condgn2 ResBlockGenerator.relu
       ResBlockGenerator.upsample ResBlockGenerator.conv1
       ResBlockGenerator.conv2 ResBlockGenerator.bypass Layer_forward].
  rewrite (@ConditionalBatchNorm2d_forward_ext _ _ training theta theta'
             (name ++ ".condgn1") Ci E x h A4).
  destruct (ConditionalBatchNorm2d.forward theta' training _ x h) as [o1|];
    [|reflexivity].
  cbn [bind].
  destruct (Upsample_forward 2 (ReLU o1)) as [o3|]; [|reflexivity].
  cbn [bind].
  rewrite (@Conv2d_forward_ext _ _ training theta theta'
             (mkConv2d (name ++ ".conv1") Ci Co 3 1 1 b false) o3 A1).
  destruct (Conv2d_forward theta' training _ o3) as [o4|]; [|reflexivity].
  cbn [bind].
  rewrite (@ConditionalBatchNorm2d_forward_ext _ _ training theta theta'
             (name ++ ".condgn2") Co E o4 h A5).
  destruct (ConditionalBatchNorm2d.forward theta' training _ o4 h) as [o5|];
    [|reflexivity].
  cbn [bind].
  rewrite (@Conv2d_forward_ext _ _ training theta theta'
             (mkConv2d (name ++ ".conv2") Co Co 3 1 1 b false) (ReLU o5) A2).
  destruct (Conv2d_forward theta' training _ (ReLU o5)) as [o7|];
    [|reflexivity].
  cbn [bind].
  rewrite (@Sequential_forward_ext _ _ training theta theta'
             [L_Upsample 2;
              L_Conv2d (mkConv2d (name ++ ".bypass_conv") Ci Co 1 1 0 b false)]).
  - reflexivity.
  - repeat constructor. exact A3.
Qed.

Lemma ResBlockGenerator_uncond_ext (theta theta' : Params (F := F))
  (name : string) (Ci Co E : nat) (b : bool) (x : Tensor F) :
  agree_under (name ++ ".conv1") theta theta' ->
  agree_under (name ++ ".conv2") theta theta' ->
  agree_under (name ++ ".bypass_conv") theta theta' ->
  agree_under (name ++ ".model.0") theta theta' ->
  agree_under (name ++ ".model.4") theta theta' ->
  ResBlockGenerator.forward theta training
    (ResBlockGenerator.init name Ci Co E b) x None
  = ResBlockGenerator.forward theta' training
      (ResBlockGenerator.init name Ci Co E b) x None.
Proof.
  intros A1 A2 A3 A4 A5. unfold ResBlockGenerator.forward.
  rewrite (@Sequential_forward_ext _ _ training theta theta'
             (ResBlockGenerator.model (ResBlockGenerator.init name Ci Co E b))).
  2:{ cbn [ResBlockGenerator.init ResBlockGenerator.model].
      repeat constructor; assumption. }
  destruct (Sequential_forward theta' training
              (ResBlockGenerator.model _) x) as [o|]; [|reflexivity].
  cbn [bind].
  rewrite (@Sequential_forward_ext _ _ training theta theta'
             (ResBlockGenerator.bypass (ResBlockGenerator.init name Ci Co E b))).
  - reflexivity.
  - cbn [ResBlockGenerator.init ResBlockGenerator.bypass].
    repeat constructor. exact A3.
Qed.

End GeneratorBlockReads.

(** Names of sibling modules never extend one another. *)
Ltac names_differ :=
  let E := fresh "E" in
  intros ? E; rewrite ?append_assoc in E; apply append_inj_l in E;
  cbn [append] in E; congruence.

(** ** The score, sample by sample *)

Section ScoreValues.

Context {F : Type} {SF : Scalar F}.
Variables (theta : Params (F := F)) (training : bool).

(** From the flattened features to the score: the spectral-normalised
    linear map plus the sum of the features weighted by the projected
    embedding. *)
Lemma score_tail (l1 l2 : Linear) (flat h : Tensor F) (N d E : nat) :
  shape flat = [N; d] -> shape h = [N; E] ->
  in_features l1 = d -> out_features l1 = 1 ->
  in_features l2 = E -> out_features l2 = d ->
  exists out,
    (projected <- Linear_forward theta training l2 h ;;
     weighted <- tensor_mul flat projected ;;
     output_h <- sum_dim1_keepdim weighted ;;
     score <- Linear_forward theta training l1 flat ;;
     output <- tensor_add score output_h ;;
     view output [-1; 1]%Z) = Some out /\
    shape out = [N; 1] /\
    forall n, n < N ->
      get2 out n 0 =
      fadd (Linear_value theta training l1 flat n 0)
           (fsum (map (fun k => fmul (item flat (n * d + k))
                                     (Linear_value theta training l2 h n k))
                      (seq 0 d))).
Proof.
  intros Hflat Hh I1 O1 I2 O2.
  assert (Hh' : shape h = [N; in_features l2]) by (rewrite I2; exact Hh).
  assert (Hflat' : shape flat = [N; in_features l1]) by (rewrite I1; exact Hflat).
  rewrite (@Linear_forward_eq _ _ theta training l2 h N Hh'). cbn [bind].
  set (proj := tabulate [N; out_features l2] _).
  assert (Hproj : shape proj = [N; d]) by (unfold proj; rewrite O2; reflexivity).
  destruct (@broadcast2_same_item _ _ fmul flat proj [N; d] Hflat Hproj)
    as (wgt & Ew & Hw & _ & Iw).
  unfold tensor_mul. rewrite Ew. cbn [bind].
  unfold sum_dim1_keepdim. rewrite Hw. cbn [bind numel_of fold_right].
  set (oh := tabulate [N; 1] _).
  rewrite (@Linear_forward_eq _ _ theta training l1 flat N Hflat'). cbn [bind].
  set (sc := tabulate [N; out_features l1] _).
  assert (Hsc : shape sc = [N; 1]) by (unfold sc; rewrite O1; reflexivity).
  destruct (@broadcast2_same_item _ _ fadd sc oh [N; 1] Hsc eq_refl)
    as (out0 & Eo & Ho & Wo & Io).
  unfold tensor_add. rewrite Eo. cbn [bind].
  change [-1; 1]%Z with ((-1)%Z :: map Z.of_nat [1]).
  rewrite (@view_infer _ out0 [1] N).
  2:{ cbn [numel_of fold_right]. lia. }
  2:{ unfold numel. rewrite Ho. cbn [numel_of fold_right]. lia. }
  eexists. split; [reflexivity|]. split; [reflexivity|].
  intros n Hn. unfold get2. cbn [shape].
  change (item {| shape := [N; 1]; data := data out0 |} (n * 1 + 0))
    with (item out0 (n * 1 + 0)).
  replace (n * 1 + 0) with n by lia.
  rewrite Io by (cbn [numel_of fold_right]; lia).
  f_equal.
  - unfold sc. rewrite item_tabulate
      by (rewrite O1; cbn [numel_of fold_right]; lia).
    unfold Linear_value. rewrite O1, Nat.div_1_r, Nat.mod_1_r. reflexivity.
  - unfold oh. rewrite item_tabulate by (cbn [numel_of fold_right]; lia).
    apply fsum_ext, map_ext_in. intros k Hk. apply in_seq in Hk.
    rewrite Nat.div_1_r, Nat.mod_1_r.
    replace ((n * d + k) * 1 + 0) with (n * d + k) by lia.
    assert (Hlt : n * d + k < numel_of [N; d]).
    { cbn [numel_of fold_right].
      assert (Hk' : k < d) by lia.
      pose proof (mixed_radix_lt Hn Hk'). lia. }
    rewrite (Iw _ Hlt). f_equal.
    unfold proj. rewrite item_tabulate by (rewrite O2; exact Hlt).
    unfold Linear_value. rewrite O2.
    rewrite div_small_add, mod_small_add by lia. reflexivity.
Qed.

End ScoreValues.

(** ** The discriminator on images of any size *)

Section AnySize.

Context {F : Type} {SF : Scalar F}.
Variables (theta : Params (F := F)) (training : bool).

Lemma features_any_returns (E ch N H W : nat) (x : Tensor F) :
  shape x = [N; 3; H; W] -> 16 <= H -> 16 <= W ->
  exists f,
    SnganDiscriminator.features theta training
      (SnganDiscriminator.init E ch) x = Some f /\
    wf f /\
    numel f = ch * 16 * (N * (H / 16 * (W / 16))).
Proof.
  intros Hx Hh Hw.
  destruct (@features_returns _ _ theta training E ch N H W x Hx Hh Hw)
    as (f & Ef & Hf & Wf).
  exists f. split; [exact Ef|]. split; [exact Wf|].
  unfold numel. rewrite Hf, !sixteenth. cbn [numel_of fold_right]. ring.
Qed.

(** The whole forward pass, by the number [P] of positions of the last
    feature map: [P = (H / 16) * (W / 16)]. *)
Lemma forward_by_positions (E ch N H W : nat) (x h : Tensor F) :
  0 < ch -> shape x = [N; 3; H; W] -> shape h = [N; E] ->
  let P := H / 16 * (W / 16) in
  let run := SnganDiscriminator.forward theta training
               (SnganDiscriminator.init E ch) x h in
  (P = 16 -> returns run [N; 1]) /\
  (N * P = 16 -> returns run [N; 1]) /\
  (0 < N -> P <> 16 -> N * P <> 16 ->
   run = None \/ exists M, M <> N /\ returns run [M; 1]).
Proof.
  intros Hch Hx Hh P run.
  destruct (le_lt_dec 16 H) as [HH|HH]; [destruct (le_lt_dec 16 W) as [HW|HW]|].
  2,3: assert (P0 : P = 0)
         by (unfold P; rewrite ?(Nat.div_small H 16), ?(Nat.div_small W 16)
               by assumption; lia);
       assert (Enone : run = None)
         by (unfold run, SnganDiscriminator.forward;
             rewrite (@features_raises _ _ theta training E ch N H W x Hx)
               by lia; reflexivity);
       (split; [lia|]); (split; [lia|]); intros; left; exact Enone.
  destruct (@features_any_returns E ch N H W x Hx HH HW) as (f & Ef & Wf & Nf).
  fold P in Nf.
  split; [|split].
  - intros HP.
    apply (@forward_tail_returns _ _ theta training E ch N N N x h f);
      try assumption; [|apply joined_batch_same].
    rewrite Nf, HP. ring.
  - intros HP.
    apply (@forward_tail_returns _ _ theta training E ch 1 N N x h f);
      try assumption.
    + rewrite Nf, HP. ring.
    + unfold joined_batch. destruct (Nat.eqb_spec 1 N) as [<-|_]; reflexivity.
  - intros HN HP HNP.
    destruct (Nat.eq_dec ((N * P) mod 16) 0) as [Hm|Hm].
    + apply Nat.Div0.div_exact in Hm.
      set (M := N * P / 16) in *.
      assert (HMN : M <> N) by nia.
      assert (HM1 : M <> 1) by lia.
      assert (Nf' : numel f = M * (ch * 16 * 4 * 4)) by (rewrite Nf, Hm; ring).
      destruct (Nat.eq_dec N 1) as [N1|N1].
      * right. exists M. split; [exact HMN|].
        apply (@forward_tail_returns _ _ theta training E ch M N M x h f);
          try assumption.
        unfold joined_batch.
        destruct (Nat.eqb_spec M N); [contradiction|].
        destruct (Nat.eqb_spec M 1); [contradiction|].
        destruct (Nat.eqb_spec N 1); [reflexivity|contradiction].
      * left.
        apply (@forward_tail_raises _ _ theta training E ch M N x h f);
          try assumption.
        unfold joined_batch.
        destruct (Nat.eqb_spec M N); [contradiction|].
        destruct (Nat.eqb_spec M 1); [contradiction|].
        destruct (Nat.eqb_spec N 1); [contradiction|reflexivity].
    + left.
      apply (@forward_view_raises _ _ theta training E ch x h f Ef).
      rewrite Nf.
      replace (ch * 16 * 4 * 4) with (ch * 16 * 16) by ring.
      rewrite Nat.Div0.mul_mod_distr_l.
      intros E0. apply Nat.eq_mul_0 in E0. lia.
Qed.

End AnySize.

(** * Main results *)

(** C3: the conditional normalisation layer batch-normalises its input with
    no learned affine (for every element the normalised value is
    [(x - mean) / sqrt(var + eps)], nothing more), projects the embedding by
    two bias-free linear layers with weights of their own,
    [embed_gamma.weight] and [embed_beta.weight], each giving one value per
    sample and channel, and returns at every position
    [normalized + normalized * gamma + beta], evaluated in this order. *)
Theorem ConditionalBatchNorm2d_forward_formula
  (F : Type) (SF : Scalar F) (theta : Params (F := F)) (training : bool)
  (name : string) (C E N H W : nat) (x y : Tensor F) :
  shape x = [N; C; H; W] -> shape y = [N; E] -> 0 < C ->
  training = false \/ N * H * W <> 1 ->
  let self := ConditionalBatchNorm2d.init name C E in
  affine (ConditionalBatchNorm2d.bn self) = false /\
  linear_bias (ConditionalBatchNorm2d.embed_gamma self) = false /\
  linear_bias (ConditionalBatchNorm2d.embed_beta self) = false /\
  exists out,
    ConditionalBatchNorm2d.forward theta training self x y = Some out /\
    shape out = [N; C; H; W] /\ wf out /\
    forall n c i j, n < N -> c < C -> i < H -> j < W ->
      let normalized :=
        bn_normalized theta training (ConditionalBatchNorm2d.bn self)
                      x N C H W n c i j in
      let gamma :=
        dot E (fun k => item y (n * E + k))
              (fun k => theta ((name ++ ".embed_gamma") ++ ".weight")%string
                              (c * E + k)) in
      let beta :=
        dot E (fun k => item y (n * E + k))
              (fun k => theta ((name ++ ".embed_beta") ++ ".weight")%string
                              (c * E + k)) in
      get4 out n c i j = fadd (fadd normalized (fmul normalized gamma)) beta.
Proof.
  intros Hx Hy Hc Hcnt self. subst self.
  split; [reflexivity|]. split; [reflexivity|]. split; [reflexivity|].
  unfold ConditionalBatchNorm2d.forward.
  cbn [ConditionalBatchNorm2d.init ConditionalBatchNorm2d.bn
       ConditionalBatchNorm2d.embed_gamma ConditionalBatchNorm2d.embed_beta
       ConditionalBatchNorm2d.num_features].
  rewrite (@BatchNorm2d_forward_eq _ _ theta training
             (mkBatchNorm2d (name ++ ".bn") C false) x N C H W Hx eq_refl Hcnt).
  cbn [bind affine].
  set (out0 := tabulate4 N C H W _).
  destruct (@projection_view _ _ theta training (name ++ ".embed_gamma")
              E C N y Hy Hc) as (gamma & Eg & Hg & Vg).
  destruct (bind_Some_inv _ _ Eg) as (g & Eg1 & Eg2).
  rewrite Eg1. cbn [bind]. rewrite Eg2. cbn [bind].
  destruct (@projection_view _ _ theta training (name ++ ".embed_beta")
              E C N y Hy Hc) as (beta & Eb & Hb & Vb).
  destruct (bind_Some_inv _ _ Eb) as (b & Eb1 & Eb2).
  rewrite Eb1. cbn [bind]. rewrite Eb2. cbn [bind].
  destruct (@broadcast2_channel_get4 _ _ fmul out0 gamma N C H W eq_refl Hg)
    as (scaled & Es & Hs & _ & Vs).
  unfold tensor_mul. rewrite Es. cbn [bind].
  destruct (@broadcast2_same_get4 _ _ fadd out0 scaled N C H W eq_refl Hs)
    as (acc & Ea & Ha & _ & Va).
  unfold tensor_add. rewrite Ea. cbn [bind].
  destruct (@broadcast2_channel_get4 _ _ fadd acc beta N C H W Ha Hb)
    as (out & Eo & Ho & Wo & Vo).
  exists out. split; [exact Eo|]. split; [exact Ho|]. split; [exact Wo|].
  intros n c i j Hn Hc' Hi Hj. cbn zeta.
  rewrite Vo, Va, Vs, Vg, Vb by assumption.
  unfold out0. rewrite get4_tabulate4 by assumption.
  reflexivity.
Qed.

Lemma ConditionalBatchNorm2d_forward_formula_witness :
  exists out,
    ConditionalBatchNorm2d.forward zero_params true
      (ConditionalBatchNorm2d.init "condgn1" 2 3)
      (zeros [2; 2; 4; 4]) (zeros [2; 3]) = Some out /\
    shape out = [2; 2; 4; 4].
Proof.
  destruct (@ConditionalBatchNorm2d_forward_formula R R_Scalar zero_params
              true "condgn1" 2 3 2 4 4 (zeros [2; 2; 4; 4]) (zeros [2; 3]))
    as (_ & _ & _ & out & E & S & _);
    [reflexivity | reflexivity | lia | right; discriminate |].
  exists out. auto.
Defined.




(** C2: for every batch size [N], the discriminator applied to an image
    tensor of shape [(N, 3, 64, 64)] and a label embedding of shape
    [(N, dim_embed)] returns a score tensor of shape [(N, 1)] (the base width
    [disc_ch] is positive). *)
Theorem SnganDiscriminator_forward_score_shape
  (F : Type) (SF : Scalar F) (theta : Params (F := F)) (training : bool)
  (dim_embed disc_ch N : nat) (x h : Tensor F) :
  0 < disc_ch -> shape x = [N; 3; 64; 64] -> shape h = [N; dim_embed] ->
  exists out,
    SnganDiscriminator.forward theta training
      (SnganDiscriminator.init dim_embed disc_ch) x h = Some out /\
    shape out = [N; 1] /\ length (data out) = N.
Proof.
  intros Hch Hx Hh.
  destruct (@features_64_returns _ _ theta training dim_embed disc_ch N x Hx)
    as (f & Ef & Hf & Wf).
  destruct (@forward_tail_returns _ _ theta training dim_embed disc_ch N N N
              x h f Hch Ef Wf) as (out & Eo & Ho & Wo).
  - unfold numel. rewrite Hf. cbn [numel_of fold_right]. lia.
  - exact Hh.
  - apply joined_batch_same.
  - exists out. split; [exact Eo|]. split; [exact Ho|].
    unfold wf, numel in Wo. rewrite Wo, Ho. cbn [numel_of fold_right]. lia.
Qed.

Lemma SnganDiscriminator_forward_score_shape_witness :
  exists out,
    SnganDiscriminator.forward zero_params true (SnganDiscriminator.init 3 1)
      (zeros [2; 3; 64; 64]) (zeros [2; 3]) = Some out /\
    shape out = [2; 1].
Proof.
  destruct (@SnganDiscriminator_forward_score_shape R R_Scalar zero_params true
              3 1 2 (zeros [2; 3; 64; 64]) (zeros [2; 3]))
    as (out & E & S & _); [lia | reflexivity | reflexivity |].
  exists out. auto.
Defined.

(** C4: with the label embedding set to [None] the generator is the
    composition in which each of the four residual blocks computes its
    unconditional path (plain batch-norm, ReLU, upsample by 2, [conv1],
    batch-norm, ReLU, [conv2]) plus the bypass (upsample by 2, then
    [bypass_conv]) of the same input, and for every batch size [N] it returns
    an [(N, 3, 64, 64)] tensor holding [N * 3 * 64 * 64] values (the base
    width [gen_ch] is positive). *)
Theorem SnganGenerator_forward_unconditional
  (F : Type) (SF : Scalar F) (theta : Params (F := F)) (training : bool)
  (nz dim_embed gen_ch N : nat) (z : Tensor F) :
  0 < gen_ch -> shape z = [N; nz] ->
  let G := SnganGenerator.init nz dim_embed gen_ch in
  (forall B,
     In B [SnganGenerator.genblock0 G; SnganGenerator.genblock1 G;
           SnganGenerator.genblock2 G; SnganGenerator.genblock3 G] ->
     (exists bn1 bn2,
        ResBlockGenerator.model B =
          [ L_BatchNorm2d bn1; L_ReLU; L_Upsample 2;
            L_Conv2d (ResBlockGenerator.conv1 B);
            L_BatchNorm2d bn2; L_ReLU;
            L_Conv2d (ResBlockGenerator.conv2 B) ]) /\
     ResBlockGenerator.bypass B =
       [ L_Upsample 2; L_Conv2d (ResBlockGenerator.bypass_conv B) ] /\
     forall x,
       ResBlockGenerator.forward theta training B x None =
       (out <- Sequential_forward theta training (ResBlockGenerator.model B) x ;;
        skip <- Sequential_forward theta training (ResBlockGenerator.bypass B) x ;;
        tensor_add out skip)) /\
  SnganGenerator.forward theta training G z None
  = unconditional_generator theta training G N z /\
  exists out,
    SnganGenerator.forward theta training G z None = Some out /\
    shape out = [N; 3; 64; 64] /\
    length (data out) = N * 3 * 64 * 64.
Proof.
  intros Hch Hz G. split; [|split].
  - intros B HB. cbn [In] in HB.
    destruct HB as [<- | [<- | [<- | [<- | []]]]];
      (split; [eexists; eexists; reflexivity | split; [reflexivity|]]);
      intros x; reflexivity.
  - apply SnganGenerator_forward_None. exact Hz.
  - destruct (@SnganGenerator_forward_tanh _ _ theta training nz dim_embed
                gen_ch N z None Hch Hz I) as (y & Ey & Hy & Wy).
    exists (Tanh y). split; [exact Ey|]. split; [exact Hy|].
    pose proof (tensor_map_wf ftanh Wy) as Wt.
    unfold wf, numel in Wt. fold (Tanh y) in Wt. rewrite Wt.
    change (shape (Tanh y)) with (shape y). rewrite Hy.
    cbn [numel_of fold_right]. lia.
Qed.

Lemma SnganGenerator_forward_unconditional_witness :
  exists out,
    SnganGenerator.forward zero_params true (SnganGenerator.init 4 3 1)
      (zeros [2; 4]) None = Some out /\
    unconditional_generator zero_params true (SnganGenerator.init 4 3 1) 2
      (zeros [2; 4]) = Some out /\
    shape out = [2; 3; 64; 64].
Proof.
  destruct (@SnganGenerator_forward_unconditional R R_Scalar zero_params true
              4 3 1 2 (zeros [2; 4]))
    as (_ & Eq & out & E & S & _); [lia | reflexivity |].
  exists out. rewrite <- Eq. auto.
Defined.

(** C5: the first discriminator block starts its main path with a
    convolution (no activation before it); the main path is [conv1], ReLU,
    [conv2] and then the 2x2 average pooling, the bypass is the 2x2 average
    pooling and then the 1x1 convolution, and the block returns the sum of
    the two paths, element by element; on an input of height and width
    at least 2 both paths, and the block, return half the height and half
    the width. *)
Theorem FirstResBlockDiscriminator_structure
  (F : Type) (SF : Scalar F) (theta : Params (F := F)) (training : bool)
  (name : string) (in_ch out_ch stride N H W : nat) (x : Tensor F) :
  shape x = [N; in_ch; H; W] -> 2 <= H -> 2 <= W ->
  let B := FirstResBlockDiscriminator.init name in_ch out_ch stride in
  FirstResBlockDiscriminator.model B =
    [ L_Conv2d (FirstResBlockDiscriminator.conv1 B); L_ReLU;
      L_Conv2d (FirstResBlockDiscriminator.conv2 B);
      L_AvgPool2d 2 None 0 ] /\
  FirstResBlockDiscriminator.bypass B =
    [ L_AvgPool2d 2 None 0;
      L_Conv2d (FirstResBlockDiscriminator.bypass_conv B) ] /\
  kernel_size (FirstResBlockDiscriminator.conv1 B) = 3 /\
  kernel_size (FirstResBlockDiscriminator.conv2 B) = 3 /\
  kernel_size (FirstResBlockDiscriminator.bypass_conv B) = 1 /\
  returns (Sequential_forward theta training
             (FirstResBlockDiscriminator.model B) x)
          [N; out_ch; H / 2; W / 2] /\
  returns (Sequential_forward theta training
             (FirstResBlockDiscriminator.bypass B) x)
          [N; out_ch; H / 2; W / 2] /\
  returns (FirstResBlockDiscriminator.forward theta training B x)
          [N; out_ch; H / 2; W / 2] /\
  (forall y N' C' H' W',
     shape y = [N'; C'; H'; W'] ->
     FirstResBlockDiscriminator.forward theta training B y
     = first_block_paths theta training B y) /\
  exists main skip out,
    Sequential_forward theta training
      (FirstResBlockDiscriminator.model B) x = Some main /\
    Sequential_forward theta training
      (FirstResBlockDiscriminator.bypass B) x = Some skip /\
    FirstResBlockDiscriminator.forward theta training B x = Some out /\
    forall n c i j, n < N -> c < out_ch -> i < H / 2 -> j < W / 2 ->
      get4 out n c i j = fadd (get4 main n c i j) (get4 skip n c i j).
Proof.
  intros Hx Hh Hw B.
  repeat (split; [reflexivity|]).
  split; [apply FirstResBlockDiscriminator_model_returns; assumption|].
  split; [apply FirstResBlockDiscriminator_bypass_returns; assumption|].
  split; [apply FirstResBlockDiscriminator_returns; assumption|].
  split; [intros y N' C' H' W' _; apply FirstResBlockDiscriminator_forward_paths|].
  destruct (@FirstResBlockDiscriminator_model_returns _ _ theta training
              name in_ch out_ch stride N H W x Hx Hh Hw)
    as (main & Em & Sm & _).
  destruct (@FirstResBlockDiscriminator_bypass_returns _ _ theta training
              name in_ch out_ch stride N H W x Hx Hh Hw)
    as (skip & Es & Ss & _).
  destruct (@broadcast2_same_get4 _ _ fadd main skip N out_ch (H / 2) (W / 2)
              Sm Ss) as (out & Eo & _ & _ & Vo).
  exists main, skip, out. split; [exact Em|]. split; [exact Es|].
  split; [|exact Vo].
  subst B. unfold FirstResBlockDiscriminator.forward.
  rewrite Em, Es. cbn [bind]. exact Eo.
Qed.

Lemma FirstResBlockDiscriminator_structure_witness :
  returns (FirstResBlockDiscriminator.forward zero_params true
             (FirstResBlockDiscriminator.init "discblock1.0" 3 64 2)
             (zeros [4; 3; 64; 64]))
          [4; 64; 32; 32].
Proof.
  apply (@FirstResBlockDiscriminator_structure R R_Scalar zero_params true
           "discblock1.0" 3 64 2 4 64 64 (zeros [4; 3; 64; 64]));
    [reflexivity | lia | lia].
Defined.

(** C8: the [stride] argument of the first discriminator block is never
    read: any two values build the same block, which computes the same
    function; its poolings are [AvgPool2d(2)] with the default stride, and on
    an input of height and width at least 2 it returns half the height and
    half the width whatever [stride] was. *)
Theorem FirstResBlockDiscriminator_stride_unused
  (F : Type) (SF : Scalar F) (theta : Params (F := F)) (training : bool)
  (name : string) (in_ch out_ch stride1 stride2 N H W : nat) (x : Tensor F) :
  shape x = [N; in_ch; H; W] -> 2 <= H -> 2 <= W ->
  FirstResBlockDiscriminator.init name in_ch out_ch stride1
  = FirstResBlockDiscriminator.init name in_ch out_ch stride2 /\
  (forall y,
     FirstResBlockDiscriminator.forward theta training
       (FirstResBlockDiscriminator.init name in_ch out_ch stride1) y
     = FirstResBlockDiscriminator.forward theta training
         (FirstResBlockDiscriminator.init name in_ch out_ch stride2) y) /\
  (forall k s p,
     In (L_AvgPool2d k s p)
        (FirstResBlockDiscriminator.model
           (FirstResBlockDiscriminator.init name in_ch out_ch stride1)
         ++ FirstResBlockDiscriminator.bypass
              (FirstResBlockDiscriminator.init name in_ch out_ch stride1)) ->
     k = 2 /\ s = None /\ p = 0) /\
  returns (FirstResBlockDiscriminator.forward theta training
             (FirstResBlockDiscriminator.init name in_ch out_ch stride1) x)
          [N; out_ch; H / 2; W / 2] /\
  returns (FirstResBlockDiscriminator.forward theta training
             (FirstResBlockDiscriminator.init name in_ch out_ch stride2) x)
          [N; out_ch; H / 2; W / 2].
Proof.
  intros Hx Hh Hw.
  split; [reflexivity|]. split; [reflexivity|]. split.
  - intros k s p HIn.
    cbn [FirstResBlockDiscriminator.init FirstResBlockDiscriminator.model
         FirstResBlockDiscriminator.bypass app In] in HIn.
    repeat (destruct HIn as [E | HIn];
            [try discriminate E; injection E as <- <- <-; auto|]).
    contradiction.
  - split; apply FirstResBlockDiscriminator_returns; assumption.
Qed.

Lemma FirstResBlockDiscriminator_stride_unused_witness :
  FirstResBlockDiscriminator.init "discblock1.0" 3 64 2
  = FirstResBlockDiscriminator.init "discblock1.0" 3 64 7 /\
  returns (FirstResBlockDiscriminator.forward zero_params true
             (FirstResBlockDiscriminator.init "discblock1.0" 3 64 7)
             (zeros [1; 3; 64; 64]))
          [1; 64; 32; 32].
Proof.
  destruct (@FirstResBlockDiscriminator_stride_unused R R_Scalar zero_params
              true "discblock1.0" 3 64 2 7 1 64 64 (zeros [1; 3; 64; 64]))
    as (E & _ & _ & _ & R2); [reflexivity | lia | lia |].
  split; [exact E | exact R2].
Defined.



(** C6: on a [(N, 3, 64, 64)] image the score of sample [n] is the sum of two
    scalars: the spectral-normalised linear map [linear1] (one output, with
    bias) applied to the sample's flattened [16 * disc_ch * 4 * 4] features,
    and the sum over the feature axis of the features multiplied element by
    element with the embedding projected to that many values by the
    spectral-normalised, bias-free [linear2]. *)
Theorem SnganDiscriminator_score_formula
  (F : Type) (SF : Scalar F) (theta : Params (F := F)) (training : bool)
  (dim_embed disc_ch N : nat) (x h : Tensor F) :
  0 < disc_ch -> shape x = [N; 3; 64; 64] -> shape h = [N; dim_embed] ->
  let D := SnganDiscriminator.init dim_embed disc_ch in
  let d := disc_ch * 16 * 4 * 4 in
  SnganDiscriminator.linear1 D = mkLinear "linear1" d 1 true true /\
  SnganDiscriminator.linear2 D = mkLinear "linear2" dim_embed d false true /\
  exists f out,
    SnganDiscriminator.features theta training D x = Some f /\
    shape f = [N; disc_ch * 16; 4; 4] /\
    SnganDiscriminator.forward theta training D x h = Some out /\
    shape out = [N; 1] /\
    forall n, n < N ->
      let linear_term :=
        fadd (dot d (fun k => item f (n * d + k))
                    (fun k => fdiv (theta "linear1.weight_orig"%string (0 * d + k))
                                   (sigma theta training "linear1" 1 d)))
             (theta "linear1.bias"%string 0) in
      let projected k :=
        dot dim_embed (fun e => item h (n * dim_embed + e))
            (fun e => fdiv (theta "linear2.weight_orig"%string (k * dim_embed + e))
                           (sigma theta training "linear2" d dim_embed)) in
      let bilinear_term :=
        fsum (map (fun k => fmul (item f (n * d + k)) (projected k))
                  (seq 0 d)) in
      get2 out n 0 = fadd linear_term bilinear_term.
Proof.
  intros Hch Hx Hh D d.
  split; [reflexivity|]. split; [reflexivity|].
  destruct (@features_64_returns _ _ theta training dim_embed disc_ch N x Hx)
    as (f & Ef & Hf & Wf).
  exists f.
  assert (Hn : numel f = N * numel_of [d]).
  { unfold numel. rewrite Hf. unfold d. cbn [numel_of fold_right]. lia. }
  assert (Hd : 0 < numel_of [d])
    by (unfold d; cbn [numel_of fold_right]; lia).
  pose proof (@view_infer _ f [d] N Hd Hn) as Ev. cbn [map] in Ev.
  destruct (@score_tail _ _ theta training
              (SnganDiscriminator.linear1 D) (SnganDiscriminator.linear2 D)
              (mkTensor [N; d] (data f)) h N d dim_embed
              eq_refl Hh eq_refl eq_refl eq_refl eq_refl)
    as (out & Eo & Ho & Vo).
  exists out. split; [exact Ef|]. split; [exact Hf|]. split.
  - fold D in Ef. rewrite (@forward_after_features _ _ theta training D x h f Ef).
    change (SnganDiscriminator.disc_ch D * 16 * 4 * 4) with d.
    rewrite Ev. cbn [bind]. exact Eo.
  - split; [exact Ho|]. intros n Hn'. cbv zeta. rewrite (Vo n Hn').
    reflexivity.
Qed.

Lemma SnganDiscriminator_score_formula_witness :
  exists out,
    SnganDiscriminator.forward zero_params true (SnganDiscriminator.init 3 1)
      (zeros [1; 3; 64; 64]) (zeros [1; 3]) = Some out /\
    shape out = [1; 1].
Proof.
  destruct (@SnganDiscriminator_score_formula R R_Scalar zero_params true
              3 1 1 (zeros [1; 3; 64; 64]) (zeros [1; 3]))
    as (_ & _ & f & out & _ & _ & E & S & _);
    [lia | reflexivity | reflexivity |].
  exists out. auto.
Defined.

(** C7, as stated, fails: a block built with stride 2 turns a 5x5 feature map
    into a 2x2 one, which is not half of 5, and raises on a 1x1 feature
    map. *)
Lemma ResBlockDiscriminator_odd_or_tiny_input :
  returns (ResBlockDiscriminator.forward zero_params true
             (ResBlockDiscriminator.init "discblock1.1" 1 2 2)
             (zeros [1; 1; 5; 5]))
          [1; 2; 2; 2] /\
  2 * 2 <> 5 /\
  ResBlockDiscriminator.forward zero_params true
    (ResBlockDiscriminator.init "discblock1.1" 1 2 2)
    (zeros [1; 1; 1; 1]) = None.
Proof.
  split; [|split].
  - apply (@ResBlockDiscriminator_stride2_returns R R_Scalar zero_params true
             "discblock1.1" 1 2 1 5 5 (zeros [1; 1; 5; 5]));
      [reflexivity | lia | lia].
  - discriminate.
  - apply (@ResBlockDiscriminator_stride2_raises R R_Scalar zero_params true
             "discblock1.1" 1 2 1 1 1 (zeros [1; 1; 1; 1]));
      [reflexivity | lia].
Qed.

(** C7, amended: on every input feature map of height and width at least 2,
    a discriminator block built with stride 2 returns height and width
    divided by 2, rounded down, which is exactly half when they are even;
    a block built with stride 1 keeps the resolution of a non-empty map, 4x4
    in particular; on a 64x64 image the blocks of the discriminator give in
    turn the resolutions 32, 16, 8, 4 and 4. *)
Theorem ResBlockDiscriminator_resolution_schedule
  (F : Type) (SF : Scalar F) (theta : Params (F := F)) (training : bool)
  (dim_embed disc_ch N : nat) (x : Tensor F) :
  shape x = [N; 3; 64; 64] ->
  (forall name Ci Co M H W (y : Tensor F),
     shape y = [M; Ci; H; W] -> 2 <= H -> 2 <= W ->
     returns (ResBlockDiscriminator.forward theta training
                (ResBlockDiscriminator.init name Ci Co 2) y)
             [M; Co; H / 2; W / 2] /\
     (Nat.Even H -> 2 * (H / 2) = H) /\
     (Nat.Even W -> 2 * (W / 2) = W)) /\
  (forall name Ci Co M H W (y : Tensor F),
     shape y = [M; Ci; H; W] -> 0 < H -> 0 < W ->
     returns (ResBlockDiscriminator.forward theta training
                (ResBlockDiscriminator.init name Ci Co 1) y)
             [M; Co; H; W]) /\
  let D := SnganDiscriminator.init dim_embed disc_ch in
  exists b0 b1 b2 b4 o1 o2 o3 o4 o5,
    SnganDiscriminator.discblock1 D = [b0; b1; b2] /\
    SnganDiscriminator.discblock3 D = [b4; SnganDiscriminator.B_ReLU] /\
    SnganDiscriminator.Block_forward theta training b0 x = Some o1 /\
    shape o1 = [N; disc_ch; 32; 32] /\
    SnganDiscriminator.Block_forward theta training b1 o1 = Some o2 /\
    shape o2 = [N; disc_ch * 2; 16; 16] /\
    SnganDiscriminator.Block_forward theta training b2 o2 = Some o3 /\
    shape o3 = [N; disc_ch * 4; 8; 8] /\
    ResBlockDiscriminator.forward theta training
      (SnganDiscriminator.discblock2 D) o3 = Some o4 /\
    shape o4 = [N; disc_ch * 8; 4; 4] /\
    SnganDiscriminator.Block_forward theta training b4 o4 = Some o5 /\
    shape o5 = [N; disc_ch * 16; 4; 4] /\
    SnganDiscriminator.features theta training D x = Some (ReLU o5).
Proof.
  intros Hx. split; [|split].
  - intros name Ci Co M H W y Hy Hh Hw.
    split; [apply ResBlockDiscriminator_stride2_returns; assumption|].
    split; intros [q ->]; rewrite (Nat.mul_comm 2 q), Nat.div_mul by lia; lia.
  - intros name Ci Co M H W y Hy Hh Hw.
    apply ResBlockDiscriminator_stride1_returns; assumption.
  - intros D.
    destruct (@FirstResBlockDiscriminator_returns _ _ theta training
                "discblock1.0" channels disc_ch 2 N 64 64 x Hx)
      as (o1 & E1 & H1 & _); [lia | lia |].
    destruct (@ResBlockDiscriminator_stride2_returns _ _ theta training
                "discblock1.1" disc_ch (disc_ch * 2) N 32 32 o1 H1)
      as (o2 & E2 & H2 & _); [lia | lia |].
    destruct (@ResBlockDiscriminator_stride2_returns _ _ theta training
                "discblock1.2" (disc_ch * 2) (disc_ch * 4) N 16 16 o2 H2)
      as (o3 & E3 & H3 & _); [lia | lia |].
    destruct (@ResBlockDiscriminator_stride2_returns _ _ theta training
                "discblock2" (disc_ch * 4) (disc_ch * 8) N 8 8 o3 H3)
      as (o4 & E4 & H4 & _); [lia | lia |].
    destruct (@ResBlockDiscriminator_stride1_returns _ _ theta training
                "discblock3.0" (disc_ch * 8) (disc_ch * 16) N 4 4 o4 H4)
      as (o5 & E5 & H5 & _); [lia | lia |].
    do 4 eexists. exists o1, o2, o3, o4, o5.
    split; [reflexivity|]. split; [reflexivity|].
    cbn [SnganDiscriminator.Block_forward].
    repeat (split; [eassumption|]).
    unfold SnganDiscriminator.features.
    cbn [D SnganDiscriminator.init SnganDiscriminator.discblock1
         SnganDiscriminator.discblock2 SnganDiscriminator.discblock3
         SnganDiscriminator.Blocks_forward SnganDiscriminator.Block_forward].
    rewrite E1. cbn [bind]. rewrite E2. cbn [bind]. rewrite E3. cbn [bind].
    rewrite E4. cbn [bind]. rewrite E5. reflexivity.
Qed.

Lemma ResBlockDiscriminator_resolution_schedule_witness :
  returns (ResBlockDiscriminator.forward zero_params true
             (ResBlockDiscriminator.init "discblock2" 4 8 2)
             (zeros [2; 4; 8; 8]))
          [2; 8; 4; 4].
Proof.
  destruct (@ResBlockDiscriminator_resolution_schedule R R_Scalar zero_params
              true 3 1 2 (zeros [2; 3; 64; 64]) eq_refl) as (Half & _ & _).
  apply (Half "discblock2"%string 4 8 2 8 8 (zeros [2; 4; 8; 8]));
    [reflexivity | lia | lia].
Defined.

(** C10, as stated, fails: 64x64 is not the only image size on which the
    output keeps the input's batch dimension.  A batch of two 32x128 images,
    and a batch of two 65x65 images, each end in 16 positions per channel and
    are scored as [(2, 1)]. *)
Lemma SnganDiscriminator_other_sizes_keep_batch :
  returns (SnganDiscriminator.forward zero_params true
             (SnganDiscriminator.init 3 1)
             (zeros [2; 3; 32; 128]) (zeros [2; 3]))
          [2; 1] /\
  returns (SnganDiscriminator.forward zero_params true
             (SnganDiscriminator.init 3 1)
             (zeros [2; 3; 65; 65]) (zeros [2; 3]))
          [2; 1].
Proof.
  split.
  - destruct (@forward_by_positions R R_Scalar zero_params true 3 1 2 32 128
                (zeros [2; 3; 32; 128]) (zeros [2; 3]))
      as (A & _); [lia | reflexivity | reflexivity |].
    apply A. reflexivity.
  - destruct (@forward_by_positions R R_Scalar zero_params true 3 1 2 65 65
                (zeros [2; 3; 65; 65]) (zeros [2; 3]))
      as (A & _); [lia | reflexivity | reflexivity |].
    apply A. reflexivity.
Qed.

(** C10, amended: the discriminator flattens its feature map with a reshape
    to [(-1, disc_ch * 16 * 4 * 4)].  For a batch of [N] 3-channel images of
    height [H] and width [W], let [P = (H / 16) * (W / 16)] (integer
    divisions) be the number of positions of the last feature map.  When
    [P = 16], as for 64x64, the output is [(N, 1)].  When [N >= 1],
    [P <> 16] and [N * P <> 16], the forward pass either raises or returns a
    batch dimension different from [N].  When [N * P = 16] the rows collapse
    into one, which is broadcast against the [N] embeddings, and the output
    is again [(N, 1)]. *)
Theorem SnganDiscriminator_batch_by_image_size
  (F : Type) (SF : Scalar F) (theta : Params (F := F)) (training : bool)
  (dim_embed disc_ch N H W : nat) (x h : Tensor F) :
  0 < disc_ch -> shape x = [N; 3; H; W] -> shape h = [N; dim_embed] ->
  let P := H / 16 * (W / 16) in
  let run := SnganDiscriminator.forward theta training
               (SnganDiscriminator.init dim_embed disc_ch) x h in
  (P = 16 -> returns run [N; 1]) /\
  (0 < N -> P <> 16 -> N * P <> 16 ->
   run = None \/ exists M, M <> N /\ returns run [M; 1]) /\
  (N * P = 16 -> returns run [N; 1]).
Proof.
  intros Hch Hx Hh P run.
  destruct (@forward_by_positions _ _ theta training dim_embed disc_ch N H W
              x h Hch Hx Hh) as (A & B & C).
  split; [exact A|]. split; [exact C | exact B].
Qed.

Lemma SnganDiscriminator_batch_by_image_size_witness :
  returns (SnganDiscriminator.forward zero_params true
             (SnganDiscriminator.init 3 1)
             (zeros [2; 3; 64; 64]) (zeros [2; 3]))
          [2; 1] /\
  (SnganDiscriminator.forward zero_params true
     (SnganDiscriminator.init 3 1)
     (zeros [2; 3; 128; 128]) (zeros [2; 3]) = None \/
   exists M, M <> 2 /\
     returns (SnganDiscriminator.forward zero_params true
                (SnganDiscriminator.init 3 1)
                (zeros [2; 3; 128; 128]) (zeros [2; 3]))
             [M; 1]).
Proof.
  split.
  - destruct (@SnganDiscriminator_batch_by_image_size R R_Scalar zero_params
                true 3 1 2 64 64 (zeros [2; 3; 64; 64]) (zeros [2; 3]))
      as (A & _); [lia | reflexivity | reflexivity |].
    apply A. reflexivity.
  - destruct (@SnganDiscriminator_batch_by_image_size R R_Scalar zero_params
                true 3 1 2 128 128 (zeros [2; 3; 128; 128]) (zeros [2; 3]))
      as (_ & B & _); [lia | reflexivity | reflexivity |].
    apply B; [lia | discriminate | discriminate].
Defined.

(** * Further properties of the modules *)

(** ** Inputs the library refuses *)

Section Refusals.

Context {F : Type} {SF : Scalar F}.
Variables (theta : Params (F := F)) (training : bool).

Lemma Linear_width_raises (l : Linear) (x : Tensor F) (N d : nat) :
  shape x = [N; d] -> d <> in_features l ->
  Linear_forward theta training l x = None.
Proof.
  intros Hx Hd. unfold Linear_forward. rewrite Hx. cbn [rev app].
  destruct (Nat.eqb_spec d (in_features l)); [contradiction | reflexivity].
Qed.

Lemma Conv2d_channel_raises (cv : Conv2d) (x : Tensor F) (N C H W : nat) :
  shape x = [N; C; H; W] -> C <> in_channels cv ->
  Conv2d_forward theta training cv x = None.
Proof.
  intros Hx Hc. unfold Conv2d_forward. rewrite Hx.
  destruct (Nat.eqb_spec C (in_channels cv)); [contradiction | reflexivity].
Qed.

End Refusals.

Section GeneratorInputs.

Context {F : Type} {SF : Scalar F}.
Variables (theta : Params (F := F)) (training : bool).

(** The first statements of the generator turn a latent of shape
    [(N, d, 1, ..., 1)] into the [(N, d)] matrix with the same storage. *)
Lemma latent_view (z : Tensor F) (N d : nat) (rest : list nat) :
  shape z = N :: d :: rest -> numel_of rest = 1 ->
  (n <- size z 0 ;; d' <- size z 1 ;; view z [Z.of_nat n; Z.of_nat d'])
  = Some (mkTensor [N; d] (data z)).
Proof.
  intros Hz Hr. unfold size. rewrite Hz. cbn [nth_error bind].
  change [Z.of_nat N; Z.of_nat d] with (map Z.of_nat [N; d]).
  apply view_exact. unfold numel. rewrite Hz.
  cbn [numel_of fold_right]. fold (numel_of rest). rewrite Hr. lia.
Qed.

Lemma generator_after_view (G : SnganGenerator.t) (z z' : Tensor F)
  (h : option (Tensor F)) :
  (n <- size z 0 ;; d <- size z 1 ;; view z [Z.of_nat n; Z.of_nat d])
  = Some z' ->
  SnganGenerator.forward theta training G z h =
  (out <- Linear_forward theta training (SnganGenerator.dense G) z' ;;
   out <- view out [-1; Z.of_nat (SnganGenerator.gen_ch G * 16); 4; 4]%Z ;;
   out <- ResBlockGenerator.forward theta training (SnganGenerator.genblock0 G) out h ;;
   out <- ResBlockGenerator.forward theta training (SnganGenerator.genblock1 G) out h ;;
   out <- ResBlockGenerator.forward theta training (SnganGenerator.genblock2 G) out h ;;
   out <- ResBlockGenerator.forward theta training (SnganGenerator.genblock3 G) out h ;;
   Sequential_forward theta training (SnganGenerator.final G) out).
Proof.
  intros Ev. unfold SnganGenerator.forward.
  destruct (size z 0) as [n|]; [|discriminate]. cbn [bind] in *.
  destruct (size z 1) as [d|]; [|discriminate]. cbn [bind] in *.
  rewrite Ev. reflexivity.
Qed.

End GeneratorInputs.

(** X1: a generator block doubles height and width and takes [in_channels]
    planes to [out_channels] planes, with a label embedding and without:
    on an [(N, in_channels, H, W)] input with more than one value per channel
    it returns [(N, out_channels, 2 H, 2 W)]. *)
Theorem ResBlockGenerator_doubles_resolution
  (F : Type) (SF : Scalar F) (theta : Params (F := F)) (training : bool)
  (name : string) (in_ch out_ch dim_embed : nat) (b : bool)
  (N H W : nat) (x : Tensor F) (h : option (Tensor F)) :
  shape x = [N; in_ch; H; W] -> embedding_ok h N dim_embed ->
  0 < in_ch -> 0 < out_ch -> 0 < H -> 0 < W -> N * H * W <> 1 ->
  returns (ResBlockGenerator.forward theta training
             (ResBlockGenerator.init name in_ch out_ch dim_embed b) x h)
          [N; out_ch; 2 * H; 2 * W].
Proof.
  intros Hx Hh Hci Hco HH HW Hcnt.
  rewrite (Nat.mul_comm 2 H), (Nat.mul_comm 2 W).
  apply ResBlockGenerator_returns; assumption.
Qed.

Lemma ResBlockGenerator_doubles_resolution_witness :
  returns (ResBlockGenerator.forward zero_params true
             (ResBlockGenerator.init "genblock1" 8 4 3 true)
             (zeros [2; 8; 5; 7]) (Some (zeros [2; 3])))
          [2; 4; 10; 14] /\
  returns (ResBlockGenerator.forward zero_params true
             (ResBlockGenerator.init "genblock1" 8 4 3 true)
             (zeros [2; 8; 5; 7]) None)
          [2; 4; 10; 14].
Proof.
  split.
  - apply (@ResBlockGenerator_doubles_resolution R R_Scalar zero_params true
             "genblock1" 8 4 3 true 2 5 7 (zeros [2; 8; 5; 7])
             (Some (zeros [2; 3])));
      (reflexivity || lia).
  - apply (@ResBlockGenerator_doubles_resolution R R_Scalar zero_params true
             "genblock1" 8 4 3 true 2 5 7 (zeros [2; 8; 5; 7]) None);
      (exact I || reflexivity || lia).
Defined.

(** X2: the generator takes its latent as [(N, nz)] or with trailing unit
    axes, [(N, nz, 1, 1)]: the leading [view] makes the second the first, the
    result is the same and has shape [(N, 3, 64, 64)]. *)
Theorem SnganGenerator_latent_trailing_unit_axes
  (F : Type) (SF : Scalar F) (theta : Params (F := F)) (training : bool)
  (nz dim_embed gen_ch N : nat) (z : Tensor F) (h : option (Tensor F)) :
  0 < gen_ch -> shape z = [N; nz; 1; 1] -> embedding_ok h N dim_embed ->
  let G := SnganGenerator.init nz dim_embed gen_ch in
  SnganGenerator.forward theta training G z h
  = SnganGenerator.forward theta training G (mkTensor [N; nz] (data z)) h /\
  returns (SnganGenerator.forward theta training G z h) [N; 3; 64; 64].
Proof.
  intros Hch Hz Hh G.
  assert (E1 : SnganGenerator.forward theta training G z h
               = SnganGenerator.forward theta training G
                   (mkTensor [N; nz] (data z)) h).
  { rewrite (@generator_after_view _ _ theta training G z
               (mkTensor [N; nz] (data z)) h)
      by (apply (@latent_view _ z N nz [1; 1] Hz); reflexivity).
    rewrite (@generator_after_view _ _ theta training G
               (mkTensor [N; nz] (data z)) (mkTensor [N; nz] (data z)) h)
      by (apply (@latent_view _ (mkTensor [N; nz] (data z)) N nz []);
          reflexivity).
    reflexivity. }
  split; [exact E1|]. rewrite E1.
  destruct (@SnganGenerator_forward_tanh _ _ theta training nz dim_embed gen_ch
              N (mkTensor [N; nz] (data z)) h Hch eq_refl Hh)
    as (y & Ey & Hy & Wy).
  fold G in Ey. rewrite Ey.
  apply returns_Some; [exact Hy | apply tensor_map_wf; exact Wy].
Qed.

Lemma SnganGenerator_latent_trailing_unit_axes_witness :
  returns (SnganGenerator.forward zero_params true (SnganGenerator.init 4 3 1)
             (zeros [2; 4; 1; 1]) (Some (zeros [2; 3])))
          [2; 3; 64; 64].
Proof.
  destruct (@SnganGenerator_latent_trailing_unit_axes R R_Scalar zero_params
              true 4 3 1 2 (zeros [2; 4; 1; 1]) (Some (zeros [2; 3])))
    as (_ & Rt); [lia | reflexivity | reflexivity |].
  exact Rt.
Defined.

(** X3: the generator raises on a latent without a second axis, and on a
    latent matrix whose width is not [nz]. *)
Theorem SnganGenerator_bad_latent_raises
  (F : Type) (SF : Scalar F) (theta : Params (F := F)) (training : bool)
  (nz dim_embed gen_ch N d : nat) (z : Tensor F) (h : option (Tensor F)) :
  shape z = [N] \/ (shape z = [N; d] /\ d <> nz) ->
  SnganGenerator.forward theta training
    (SnganGenerator.init nz dim_embed gen_ch) z h = None.
Proof.
  intros [Hz | [Hz Hd]].
  - unfold SnganGenerator.forward, size. rewrite Hz. reflexivity.
  - rewrite (@generator_after_view _ _ theta training _ z
               (mkTensor [N; d] (data z)) h)
      by (apply (@latent_view _ z N d [] Hz); reflexivity).
    apply bind_raises.
    apply (@Linear_width_raises _ _ theta training
             (SnganGenerator.dense (SnganGenerator.init nz dim_embed gen_ch))
             (mkTensor [N; d] (data z)) N d eq_refl).
    exact Hd.
Qed.

Lemma SnganGenerator_bad_latent_raises_witness :
  SnganGenerator.forward zero_params true (SnganGenerator.init 256 128 64)
    (zeros [4; 100]) (Some (zeros [4; 128])) = None /\
  SnganGenerator.forward zero_params true (SnganGenerator.init 256 128 64)
    (zeros [256]) (Some (zeros [4; 128])) = None.
Proof.
  split.
  - apply (@SnganGenerator_bad_latent_raises R R_Scalar zero_params true
             256 128 64 4 100 (zeros [4; 100]) (Some (zeros [4; 128]))).
    right. split; [reflexivity | discriminate].
  - apply (@SnganGenerator_bad_latent_raises R R_Scalar zero_params true
             256 128 64 256 0 (zeros [256]) (Some (zeros [4; 128]))).
    left. reflexivity.
Defined.

(** X4: with a label embedding whose width is not [dim_embed], the generator
    raises (in the first conditional normalisation, at [embed_gamma]). *)
Theorem SnganGenerator_bad_embedding_raises
  (F : Type) (SF : Scalar F) (theta : Params (F := F)) (training : bool)
  (nz dim_embed gen_ch N M E : nat) (z h : Tensor F) :
  0 < gen_ch -> shape z = [N; nz] -> shape h = [M; E] -> E <> dim_embed ->
  SnganGenerator.forward theta training
    (SnganGenerator.init nz dim_embed gen_ch) z (Some h) = None.
Proof.
  intros Hch Hz Hh HE.
  rewrite (@generator_after_view _ _ theta training _ z
             (mkTensor [N; nz] (data z)) (Some h))
    by (apply (@latent_view _ z N nz [] Hz); reflexivity).
  cbn [SnganGenerator.init SnganGenerator.dense SnganGenerator.gen_ch
       SnganGenerator.genblock0].
  apply returns_bind_None with (s1 := [N; 4 * 4 * gen_ch * 16]).
  { apply (Linear_returns theta training
             (mkLinear "dense" nz (4 * 4 * gen_ch * 16) true false)).
    reflexivity. }
  intros d Hd Wd.
  apply returns_bind_None with (s1 := [N; gen_ch * 16; 4; 4]).
  { apply (@view_infer_returns _ d [gen_ch * 16; 4; 4] N Wd).
    - cbn [numel_of fold_right]. lia.
    - unfold numel. rewrite Hd. cbn [numel_of fold_right]. lia. }
  intros o0 H0 _.
  apply bind_raises.
  unfold ResBlockGenerator.forward.
  cbn [ResBlockGenerator.init ResBlockGenerator.condgn1].
  apply bind_raises.
  unfold ConditionalBatchNorm2d.forward.
  cbn [ConditionalBatchNorm2d.init ConditionalBatchNorm2d.bn
       ConditionalBatchNorm2d.embed_gamma].
  apply returns_bind_None with (s1 := [N; gen_ch * 16; 4; 4]).
  { apply BatchNorm2d_returns; [exact H0 | reflexivity | lia]. }
  intros o1 _ _.
  apply bind_raises.
  apply (@Linear_width_raises _ _ theta training
           (mkLinear ("genblock0.condgn1" ++ ".embed_gamma") dim_embed
                     (gen_ch * 16) false false) h M E Hh).
  exact HE.
Qed.

Lemma SnganGenerator_bad_embedding_raises_witness :
  SnganGenerator.forward zero_params true (SnganGenerator.init 256 128 64)
    (zeros [4; 256]) (Some (zeros [4; 100])) = None.
Proof.
  apply (@SnganGenerator_bad_embedding_raises R R_Scalar zero_params true
           256 128 64 4 4 100 (zeros [4; 256]) (zeros [4; 100]));
    [lia | reflexivity | reflexivity | discriminate].
Defined.

(** ** The discriminator's inputs *)

Section DiscriminatorInputs.

Context {F : Type} {SF : Scalar F}.
Variables (theta : Params (F := F)) (training : bool).

Lemma features_channel_raises (E ch N C H W : nat) (x : Tensor F) :
  shape x = [N; C; H; W] -> C <> 3 ->
  SnganDiscriminator.features theta training
    (SnganDiscriminator.init E ch) x = None.
Proof.
  intros Hx Hc. unfold SnganDiscriminator.features.
  cbn [SnganDiscriminator.init SnganDiscriminator.discblock1
       SnganDiscriminator.Blocks_forward SnganDiscriminator.Block_forward].
  do 2 apply bind_raises.
  unfold FirstResBlockDiscriminator.forward.
  cbn [FirstResBlockDiscriminator.init FirstResBlockDiscriminator.model
       Sequential_forward Layer_forward].
  do 2 apply bind_raises.
  apply (@Conv2d_channel_raises _ _ theta training _ x N C H W Hx).
  exact Hc.
Qed.

Lemma AvgPool2d_2_stride_returns (s : nat) (x : Tensor F) (N C H W : nat) :
  shape x = [N; C; H; W] -> 0 < s -> 2 <= H -> 2 <= W ->
  returns (AvgPool2d_forward 2 (Some s) 0 x)
          [N; C; (H - 2) / s + 1; (W - 2) / s + 1].
Proof.
  intros Hx Hs Hh Hw. unfold AvgPool2d_forward. rewrite Hx.
  rewrite !Nat.add_0_r.
  destruct (Nat.ltb_spec 0 s) as [_|E]; [|lia].
  destruct (Nat.leb_spec 2 H) as [_|E]; [|lia].
  destruct (Nat.leb_spec 2 W) as [_|E]; [|lia].
  cbn [Nat.ltb Nat.leb Nat.mul Nat.add andb].
  apply returns_tabulate4.
Qed.

(** A standard block built with any stride but 1: both paths end in the
    same pooling. *)
Lemma ResBlockDiscriminator_strided_returns (name : string)
  (Ci Co s N H W : nat) (x : Tensor F) :
  shape x = [N; Ci; H; W] -> s <> 1 -> 0 < s -> 2 <= H -> 2 <= W ->
  returns (ResBlockDiscriminator.forward theta training
             (ResBlockDiscriminator.init name Ci Co s) x)
          [N; Co; (H - 2) / s + 1; (W - 2) / s + 1].
Proof.
  intros Hx Hs1 Hs Hh Hw. unfold ResBlockDiscriminator.forward.
  cbn [ResBlockDiscriminator.init ResBlockDiscriminator.model
       ResBlockDiscriminator.bypass].
  destruct (Nat.eqb_spec s 1) as [E|_]; [contradiction|].
  cbn [negb Sequential_forward Layer_forward bind].
  apply returns_bind with (s1 := [N; Co; (H - 2) / s + 1; (W - 2) / s + 1]).
  { apply returns_bind with (s1 := [N; Co; H; W]).
    { eapply Conv2d_same_returns;
        [exact Hx | reflexivity | reflexivity | reflexivity | lia | lia]. }
    intros o1 H1 _. cbn [bind].
    apply returns_bind with (s1 := [N; Co; H; W]).
    { eapply Conv2d_same_returns;
        [exact H1 | reflexivity | reflexivity | reflexivity | lia | lia]. }
    intros o2 H2 _.
    apply returns_bind with (s1 := [N; Co; (H - 2) / s + 1; (W - 2) / s + 1]).
    { apply AvgPool2d_2_stride_returns; assumption. }
    intros o3 H3 W3. apply returns_Some; assumption. }
  intros m Hm _.
  apply returns_bind with (s1 := [N; Co; (H - 2) / s + 1; (W - 2) / s + 1]).
  { apply returns_bind with (s1 := [N; Co; H; W]).
    { eapply Conv2d_same_returns;
        [exact Hx | reflexivity | reflexivity | reflexivity | lia | lia]. }
    intros o1 H1 _.
    apply returns_bind with (s1 := [N; Co; (H - 2) / s + 1; (W - 2) / s + 1]).
    { apply AvgPool2d_2_stride_returns; assumption. }
    intros o2 H2 W2. apply returns_Some; assumption. }
  intros sk Hsk _.
  apply tensor_add_same_returns; assumption.
Qed.

End DiscriminatorInputs.

(** X5: the two networks compose as in the smoke test of the file: for every
    batch size [N], the generator's image for [(z, h)] is an
    [(N, 3, 64, 64)] tensor that the discriminator, given the same
    embedding, scores as [(N, 1)]. *)
Theorem generator_then_discriminator
  (F : Type) (SF : Scalar F) (thetaG thetaD : Params (F := F))
  (trainingG trainingD : bool)
  (nz dim_embed gen_ch disc_ch N : nat) (z h : Tensor F) :
  0 < gen_ch -> 0 < disc_ch ->
  shape z = [N; nz] -> shape h = [N; dim_embed] ->
  exists x o,
    SnganGenerator.forward thetaG trainingG
      (SnganGenerator.init nz dim_embed gen_ch) z (Some h) = Some x /\
    shape x = [N; 3; 64; 64] /\
    SnganDiscriminator.forward thetaD trainingD
      (SnganDiscriminator.init dim_embed disc_ch) x h = Some o /\
    shape o = [N; 1].
Proof.
  intros HG HD Hz Hh.
  destruct (@SnganGenerator_forward_tanh _ _ thetaG trainingG nz dim_embed
              gen_ch N z (Some h) HG Hz Hh) as (y & Ey & Hy & Wy).
  assert (Hx : shape (Tanh y) = [N; 3; 64; 64]) by exact Hy.
  destruct (@features_64_returns _ _ thetaD trainingD dim_embed disc_ch N
              (Tanh y) Hx) as (f & Ef & Hf & Wf).
  destruct (@forward_tail_returns _ _ thetaD trainingD dim_embed disc_ch N N N
              (Tanh y) h f HD Ef Wf) as (o & Eo & Ho & _).
  - unfold numel. rewrite Hf. cbn [numel_of fold_right]. lia.
  - exact Hh.
  - apply joined_batch_same.
  - exists (Tanh y), o. auto.
Qed.

Lemma generator_then_discriminator_witness :
  exists x o,
    SnganGenerator.forward zero_params true (SnganGenerator.init 256 128 64)
      (zeros [4; 256]) (Some (zeros [4; 128])) = Some x /\
    shape x = [4; 3; 64; 64] /\
    SnganDiscriminator.forward zero_params true
      (SnganDiscriminator.init 128 64) x (zeros [4; 128]) = Some o /\
    shape o = [4; 1].
Proof.
  apply (@generator_then_discriminator R R_Scalar zero_params zero_params
           true true 256 128 64 64 4 (zeros [4; 256]) (zeros [4; 128]));
    [lia | lia | reflexivity | reflexivity].
Defined.

(** X6: the discriminator joins the [N] images and the [M] rows of the
    embedding by broadcasting: a single embedding row serves every image
    (output [(N, 1)]), a single image is scored against every row (output
    [(M, 1)]), and when [N] and [M] differ and neither is 1 the forward pass
    raises. *)
Theorem SnganDiscriminator_embedding_batch
  (F : Type) (SF : Scalar F) (theta : Params (F := F)) (training : bool)
  (dim_embed disc_ch N M : nat) (x h : Tensor F) :
  0 < disc_ch -> shape x = [N; 3; 64; 64] -> shape h = [M; dim_embed] ->
  let run := SnganDiscriminator.forward theta training
               (SnganDiscriminator.init dim_embed disc_ch) x h in
  (M = 1 -> returns run [N; 1]) /\
  (N = 1 -> returns run [M; 1]) /\
  (N <> M -> N <> 1 -> M <> 1 -> run = None).
Proof.
  intros Hch Hx Hh run.
  destruct (@features_64_returns _ _ theta training dim_embed disc_ch N x Hx)
    as (f & Ef & Hf & Wf).
  assert (Nf : numel f = N * (disc_ch * 16 * 4 * 4))
    by (unfold numel; rewrite Hf; cbn [numel_of fold_right]; lia).
  split; [|split].
  - intros ->.
    apply (@forward_tail_returns _ _ theta training dim_embed disc_ch N 1 N
             x h f); try assumption.
    unfold joined_batch. destruct (Nat.eqb_spec N 1) as [->|_]; [reflexivity|].
    destruct (N =? 1); reflexivity.
  - intros ->.
    apply (@forward_tail_returns _ _ theta training dim_embed disc_ch 1 M M
             x h f); try assumption.
    unfold joined_batch. destruct (Nat.eqb_spec 1 M) as [<-|_]; reflexivity.
  - intros HNM HN HM.
    apply (@forward_tail_raises _ _ theta training dim_embed disc_ch N M
             x h f); try assumption.
    unfold joined_batch.
    destruct (Nat.eqb_spec N M); [contradiction|].
    destruct (Nat.eqb_spec N 1); [contradiction|].
    destruct (Nat.eqb_spec M 1); [contradiction | reflexivity].
Qed.

Lemma SnganDiscriminator_embedding_batch_witness :
  returns (SnganDiscriminator.forward zero_params true
             (SnganDiscriminator.init 3 1)
             (zeros [4; 3; 64; 64]) (zeros [1; 3]))
          [4; 1] /\
  SnganDiscriminator.forward zero_params true (SnganDiscriminator.init 3 1)
    (zeros [4; 3; 64; 64]) (zeros [3; 3]) = None.
Proof.
  split.
  - destruct (@SnganDiscriminator_embedding_batch R R_Scalar zero_params true
                3 1 4 1 (zeros [4; 3; 64; 64]) (zeros [1; 3]))
      as (A & _); [lia | reflexivity | reflexivity |].
    apply A. reflexivity.
  - destruct (@SnganDiscriminator_embedding_batch R R_Scalar zero_params true
                3 1 4 3 (zeros [4; 3; 64; 64]) (zeros [3; 3]))
      as (_ & _ & C); [lia | reflexivity | reflexivity |].
    apply C; discriminate.
Defined.

(** X7: the discriminator raises on a batch of images whose number of
    channels is not 3, whatever their size (the first convolution expects
    [channels] planes). *)
Theorem SnganDiscriminator_channels_raises
  (F : Type) (SF : Scalar F) (theta : Params (F := F)) (training : bool)
  (dim_embed disc_ch N C H W : nat) (x h : Tensor F) :
  shape x = [N; C; H; W] -> C <> 3 ->
  SnganDiscriminator.forward theta training
    (SnganDiscriminator.init dim_embed disc_ch) x h = None.
Proof.
  intros Hx Hc. unfold SnganDiscriminator.forward.
  apply bind_raises. apply features_channel_raises with (1 := Hx). exact Hc.
Qed.

Lemma SnganDiscriminator_channels_raises_witness :
  SnganDiscriminator.forward zero_params true (SnganDiscriminator.init 128 64)
    (zeros [4; 1; 64; 64]) (zeros [4; 128]) = None.
Proof.
  apply (@SnganDiscriminator_channels_raises R R_Scalar zero_params true
           128 64 4 1 64 64 (zeros [4; 1; 64; 64]) (zeros [4; 128]));
    [reflexivity | discriminate].
Defined.

(** X8: the discriminator raises when the width of the label embedding is
    not [dim_embed] (at [linear2], after the features were computed). *)
Theorem SnganDiscriminator_bad_embedding_raises
  (F : Type) (SF : Scalar F) (theta : Params (F := F)) (training : bool)
  (dim_embed disc_ch N M E : nat) (x h : Tensor F) :
  0 < disc_ch -> shape x = [N; 3; 64; 64] -> shape h = [M; E] ->
  E <> dim_embed ->
  SnganDiscriminator.forward theta training
    (SnganDiscriminator.init dim_embed disc_ch) x h = None.
Proof.
  intros Hch Hx Hh HE.
  destruct (@features_64_returns _ _ theta training dim_embed disc_ch N x Hx)
    as (f & Ef & Hf & Wf).
  rewrite (@forward_after_features _ _ theta training _ x h f Ef).
  cbn [SnganDiscriminator.init SnganDiscriminator.disc_ch
       SnganDiscriminator.linear2].
  apply returns_bind_None with (s1 := [N; disc_ch * 16 * 4 * 4]).
  { apply (@view_infer_returns _ f [disc_ch * 16 * 4 * 4] N Wf).
    - cbn [numel_of fold_right]. lia.
    - unfold numel. rewrite Hf. cbn [numel_of fold_right]. lia. }
  intros flat _ _.
  apply bind_raises.
  apply (@Linear_width_raises _ _ theta training _ h M E Hh).
  exact HE.
Qed.

Lemma SnganDiscriminator_bad_embedding_raises_witness :
  SnganDiscriminator.forward zero_params true (SnganDiscriminator.init 128 64)
    (zeros [4; 3; 64; 64]) (zeros [4; 100]) = None.
Proof.
  apply (@SnganDiscriminator_bad_embedding_raises R R_Scalar zero_params true
           128 64 4 4 100 (zeros [4; 3; 64; 64]) (zeros [4; 100]));
    [lia | reflexivity | reflexivity | discriminate].
Defined.

(** X9: a standard discriminator block built with any positive stride [s]
    other than 1 pools both its main path and its bypass with
    [AvgPool2d(2, stride=s)], so that the two always agree and the block
    returns height [(H - 2) / s + 1] and width [(W - 2) / s + 1] (integer
    division) on every input of height and width at least 2. *)
Theorem ResBlockDiscriminator_any_stride
  (F : Type) (SF : Scalar F) (theta : Params (F := F)) (training : bool)
  (name : string) (in_ch out_ch stride N H W : nat) (x : Tensor F) :
  shape x = [N; in_ch; H; W] -> stride <> 1 -> 0 < stride ->
  2 <= H -> 2 <= W ->
  let B := ResBlockDiscriminator.init name in_ch out_ch stride in
  ResBlockDiscriminator.model B =
    [ L_ReLU; L_Conv2d (ResBlockDiscriminator.conv1 B); L_ReLU;
      L_Conv2d (ResBlockDiscriminator.conv2 B);
      L_AvgPool2d 2 (Some stride) 0 ] /\
  ResBlockDiscriminator.bypass B =
    [ L_Conv2d (ResBlockDiscriminator.bypass_conv B);
      L_AvgPool2d 2 (Some stride) 0 ] /\
  returns (ResBlockDiscriminator.forward theta training B x)
          [N; out_ch; (H - 2) / stride + 1; (W - 2) / stride + 1].
Proof.
  intros Hx Hs1 Hs Hh Hw B. subst B.
  split; [|split].
  - cbn [ResBlockDiscriminator.init ResBlockDiscriminator.model
         ResBlockDiscriminator.conv1 ResBlockDiscriminator.conv2].
    destruct (Nat.eqb_spec stride 1); [contradiction | reflexivity].
  - cbn [ResBlockDiscriminator.init ResBlockDiscriminator.bypass
         ResBlockDiscriminator.bypass_conv].
    destruct (Nat.eqb_spec stride 1); [contradiction | reflexivity].
  - apply ResBlockDiscriminator_strided_returns; assumption.
Qed.

Lemma ResBlockDiscriminator_any_stride_witness :
  returns (ResBlockDiscriminator.forward zero_params true
             (ResBlockDiscriminator.init "block" 4 8 3)
             (zeros [2; 4; 11; 8]))
          [2; 8; 4; 3].
Proof.
  apply (@ResBlockDiscriminator_any_stride R R_Scalar zero_params true
           "block" 4 8 3 2 11 8 (zeros [2; 4; 11; 8]));
    [reflexivity | discriminate | lia | lia | lia].
Defined.

(** X10: the discriminator raises on every batch of 3-channel images with a
    height or a width below 16: one of the four poolings meets a map with a
    side below 2. *)
Theorem SnganDiscriminator_small_image_raises
  (F : Type) (SF : Scalar F) (theta : Params (F := F)) (training : bool)
  (dim_embed disc_ch N H W : nat) (x h : Tensor F) :
  shape x = [N; 3; H; W] -> H < 16 \/ W < 16 ->
  SnganDiscriminator.forward theta training
    (SnganDiscriminator.init dim_embed disc_ch) x h = None.
Proof.
  intros Hx Hsmall. unfold SnganDiscriminator.forward.
  apply bind_raises. apply features_raises with (1 := Hx). exact Hsmall.
Qed.

Lemma SnganDiscriminator_small_image_raises_witness :
  SnganDiscriminator.forward zero_params true (SnganDiscriminator.init 128 64)
    (zeros [4; 3; 15; 64]) (zeros [4; 128]) = None.
Proof.
  apply (@SnganDiscriminator_small_image_raises R R_Scalar zero_params true
           128 64 4 15 64 (zeros [4; 3; 15; 64]) (zeros [4; 128]));
    [reflexivity | left; lia].
Defined.

(** ** Batch statistics and activations *)

Section SingleValue.

Context {F : Type} {SF : Scalar F}.
Variable theta : Params (F := F).

(** While training, batch normalisation refuses a single value per
    channel. *)
Lemma BatchNorm2d_single_raises (b : BatchNorm2d) (x : Tensor F)
  (N C H W : nat) :
  shape x = [N; C; H; W] -> N * H * W = 1 ->
  BatchNorm2d_forward theta true b x = None.
Proof.
  intros Hx Hcnt. unfold BatchNorm2d_forward. rewrite Hx, Hcnt.
  destruct (negb (C =? num_features b)); reflexivity.
Qed.

Lemma features_is_activation (training : bool) (D : SnganDiscriminator.t)
  (b : ResBlockDiscriminator.t) (x f : Tensor F) :
  SnganDiscriminator.discblock3 D
  = [SnganDiscriminator.B_Res b; SnganDiscriminator.B_ReLU] ->
  SnganDiscriminator.features theta training D x = Some f ->
  exists y, f = ReLU y.
Proof.
  intros E3 Ef. unfold SnganDiscriminator.features in Ef.
  destruct (bind_Some_inv _ _ Ef) as (o3 & _ & Ef1).
  destruct (bind_Some_inv _ _ Ef1) as (o4 & _ & Ef2).
  rewrite E3 in Ef2.
  cbn [SnganDiscriminator.Blocks_forward SnganDiscriminator.Block_forward]
    in Ef2.
  destruct (bind_Some_inv _ _ Ef2) as (o5 & _ & Ef3).
  cbn [bind] in Ef3. injection Ef3 as <-. exists o5. reflexivity.
Qed.

End SingleValue.

(** X14: the features the discriminator flattens are outputs of the ReLU that
    ends the last block group: on every 3-channel image of at least 16x16 the
    feature map handed to [view] is [ReLU] of a tensor, so each of its values
    has whatever property all values of ReLU have: being [>= 0] over the
    reals, being [>= 0] or NaN in floating point.  This holds for any
    scalars. *)
Theorem SnganDiscriminator_features_rectified
  (F : Type) (SF : Scalar F) (theta : Params (F := F)) (training : bool)
  (dim_embed disc_ch N H W : nat) (x : Tensor F) :
  shape x = [N; 3; H; W] -> 16 <= H -> 16 <= W ->
  exists y f,
    SnganDiscriminator.features theta training
      (SnganDiscriminator.init dim_embed disc_ch) x = Some f /\
    f = ReLU y /\
    shape f = [N; disc_ch * 16; H / 16; W / 16] /\
    forall P : F -> Prop, (forall v, P (fmax fzero v)) -> Forall P (data f).
Proof.
  intros Hx Hh Hw.
  destruct (@features_returns _ _ theta training dim_embed disc_ch N H W x
              Hx Hh Hw) as (f & Ef & Hf & _).
  destruct (@features_is_activation _ _ theta training
              (SnganDiscriminator.init dim_embed disc_ch) _ x f eq_refl Ef)
    as (y & Ey).
  exists y, f. split; [exact Ef|]. split; [exact Ey|]. split.
  - rewrite Hf, !sixteenth. reflexivity.
  - intros P HP. rewrite Ey. apply tensor_map_Forall. exact HP.
Qed.

Lemma SnganDiscriminator_features_rectified_witness :
  exists f,
    SnganDiscriminator.features unit_params true
      (SnganDiscriminator.init 3 1) (full [2; 3; 64; 64] (Finite 0)) = Some f /\
    shape f = [2; 16; 4; 4] /\
    Forall nonnegative_or_nan (data f).
Proof.
  destruct (@SnganDiscriminator_features_rectified ieee IEEE_Scalar
              unit_params true 3 1 2 64 64 (full [2; 3; 64; 64] (Finite 0)))
    as (y & f & E & _ & S & R); [reflexivity | lia | lia |].
  exists f. split; [exact E|]. split; [exact S|].
  apply R. exact ieee_relu_nonnegative_or_nan.
Defined.

(** X15: in training mode the conditional normalisation layer, and with it
    a generator block with or without an embedding, raises on an input with a
    single value per channel ([N * H * W = 1]): batch statistics need more
    than one value. *)
Theorem single_value_per_channel_raises
  (F : Type) (SF : Scalar F) (theta : Params (F := F))
  (name : string) (num_features in_ch out_ch dim_embed : nat) (b : bool)
  (N C H W : nat) (x y : Tensor F) (h : option (Tensor F)) :
  shape x = [N; C; H; W] -> N * H * W = 1 ->
  ConditionalBatchNorm2d.forward theta true
    (ConditionalBatchNorm2d.init name num_features dim_embed) x y = None /\
  ResBlockGenerator.forward theta true
    (ResBlockGenerator.init name in_ch out_ch dim_embed b) x h = None.
Proof.
  intros Hx Hcnt. split.
  - unfold ConditionalBatchNorm2d.forward. apply bind_raises.
    apply BatchNorm2d_single_raises with (1 := Hx). exact Hcnt.
  - unfold ResBlockGenerator.forward. destruct h as [h|].
    + apply bind_raises. unfold ConditionalBatchNorm2d.forward.
      apply bind_raises.
      apply BatchNorm2d_single_raises with (1 := Hx). exact Hcnt.
    + apply bind_raises.
      cbn [ResBlockGenerator.init ResBlockGenerator.model Sequential_forward
           Layer_forward].
      apply bind_raises.
      apply BatchNorm2d_single_raises with (1 := Hx). exact Hcnt.
Qed.

Lemma single_value_per_channel_raises_witness :
  ConditionalBatchNorm2d.forward zero_params true
    (ConditionalBatchNorm2d.init "condgn1" 8 3)
    (zeros [1; 8; 1; 1]) (zeros [1; 3]) = None.
Proof.
  apply (@single_value_per_channel_raises R R_Scalar zero_params
           "condgn1" 8 8 4 3 true 1 8 1 1
           (zeros [1; 8; 1; 1]) (zeros [1; 3]) None);
    reflexivity.
Defined.

(** ** The parameters the generator reads *)

Section GeneratorReads.

Context {F : Type} {SF : Scalar F}.
Variable training : bool.

Lemma ResBlockGenerator_forward_ext (theta theta' : Params (F := F))
  (name : string) (Ci Co E : nat) (b : bool) (x : Tensor F)
  (h : option (Tensor F)) :
  block_agree name (conditioned h) theta theta' ->
  ResBlockGenerator.forward theta training
    (ResBlockGenerator.init name Ci Co E b) x h
  = ResBlockGenerator.forward theta' training
      (ResBlockGenerator.init name Ci Co E b) x h.
Proof.
  intros (A1 & A2 & A3 & A4 & A5). destruct h as [h|].
  - apply ResBlockGenerator_cond_ext; assumption.
  - apply ResBlockGenerator_uncond_ext; assumption.
Qed.

Lemma SnganGenerator_forward_ext (theta theta' : Params (F := F))
  (nz E ch : nat) (z : Tensor F) (h : option (Tensor F)) :
  agree_under "dense" theta theta' ->
  agree_under "final.0" theta theta' ->
  agree_under "final.2" theta theta' ->
  (forall blk, In blk ["genblock0"; "genblock1"; "genblock2"; "genblock3"]%string ->
               block_agree blk (conditioned h) theta theta') ->
  SnganGenerator.forward theta training (SnganGenerator.init nz E ch) z h
  = SnganGenerator.forward theta' training (SnganGenerator.init nz E ch) z h.
Proof.
  intros Ad A0 A2 Ab. unfold SnganGenerator.forward.
  cbn [SnganGenerator.init SnganGenerator.dense SnganGenerator.gen_ch
       SnganGenerator.genblock0 SnganGenerator.genblock1
       SnganGenerator.genblock2 SnganGenerator.genblock3
       SnganGenerator.final].
  destruct (size z 0) as [n|]; [|reflexivity]. cbn [bind].
  destruct (size z 1) as [d|]; [|reflexivity]. cbn [bind].
  destruct (view z [Z.of_nat n; Z.of_nat d]) as [z'|]; [|reflexivity].
  cbn [bind].
  rewrite (@Linear_forward_ext _ _ training theta theta'
             (mkLinear "dense" nz (4 * 4 * ch * 16) true false) z' Ad).
  destruct (Linear_forward theta' training _ z') as [o|]; [|reflexivity].
  cbn [bind].
  destruct (view o _) as [o0|]; [|reflexivity]. cbn [bind].
  rewrite (@ResBlockGenerator_forward_ext theta theta' "genblock0"
             (ch * 16) (ch * 8) E true o0 h)
    by (apply Ab; cbn [In]; auto).
  destruct (ResBlockGenerator.forward theta' training _ o0 h) as [o1|];
    [|reflexivity]. cbn [bind].
  rewrite (@ResBlockGenerator_forward_ext theta theta' "genblock1"
             (ch * 8) (ch * 4) E true o1 h)
    by (apply Ab; cbn [In]; auto).
  destruct (ResBlockGenerator.forward theta' training _ o1 h) as [o2|];
    [|reflexivity]. cbn [bind].
  rewrite (@ResBlockGenerator_forward_ext theta theta' "genblock2"
             (ch * 4) (ch * 2) E true o2 h)
    by (apply Ab; cbn [In]; auto 6).
  destruct (ResBlockGenerator.forward theta' training _ o2 h) as [o3|];
    [|reflexivity]. cbn [bind].
  rewrite (@ResBlockGenerator_forward_ext theta theta' "genblock3"
             (ch * 2) ch E true o3 h)
    by (apply Ab; cbn [In]; auto 6).
  destruct (ResBlockGenerator.forward theta' training _ o3 h) as [o4|];
    [|reflexivity]. cbn [bind].
  apply Sequential_forward_ext.
  repeat constructor; assumption.
Qed.

End GeneratorReads.

(** An entry whose name does not start with the name of a module is none
    of the module's. *)
Lemma prefix_append (m sfx : string) : String.prefix m (m ++ sfx) = true.
Proof.
  induction m as [|a m IH]; cbn [String.prefix append];
    [destruct sfx; reflexivity|].
  destruct (Ascii.ascii_dec a a) as [_|Hn]; [exact IH | contradiction].
Qed.

Lemma override_agree_prefix (F : Type) (theta : Params (F := F))
  (k m : string) (v : nat -> F) :
  String.prefix m k = false -> agree_under m (override theta k v) theta.
Proof.
  intros Hp. apply override_agree. intros sfx ->.
  rewrite prefix_append in Hp. discriminate.
Qed.

(** X12: every parameter and buffer of the conditional normalisation layers
    ([genblockK.condgn1], [genblockK.condgn2]) is dead when the generator is
    called without an embedding, and every parameter and buffer of the plain
    batch-norm layers of the blocks ([genblockK.model.0], [genblockK.model.4])
    is dead when it is called with one: replacing such an entry of the store
    by anything leaves the result of the forward pass as it was. *)
Theorem SnganGenerator_dead_normalisation_parameters
  (F : Type) (SF : Scalar F) (theta : Params (F := F)) (training : bool)
  (nz dim_embed gen_ch : nat) (z h : Tensor F)
  (blk k : string) (v : nat -> F) :
  In blk ["genblock0"; "genblock1"; "genblock2"; "genblock3"]%string ->
  let G := SnganGenerator.init nz dim_embed gen_ch in
  (under (blk ++ ".condgn1") k \/ under (blk ++ ".condgn2") k ->
   SnganGenerator.forward (override theta k v) training G z None
   = SnganGenerator.forward theta training G z None) /\
  (under (blk ++ ".model.0") k \/ under (blk ++ ".model.4") k ->
   SnganGenerator.forward (override theta k v) training G z (Some h)
   = SnganGenerator.forward theta training G z (Some h)).
Proof.
  intros Hblk G. subst G. cbn [In] in Hblk.
  split; intros Hk;
    (apply SnganGenerator_forward_ext;
     [ apply override_agree_prefix
     | apply override_agree_prefix
     | apply override_agree_prefix
     | intros blk' Hin; cbn [In] in Hin; unfold block_agree;
       cbn [conditioned];
       repeat split; apply override_agree_prefix ]);
    destruct Hblk as [<- | [<- | [<- | [<- | []]]]];
    destruct Hk as [[s ->] | [s ->]];
    try (destruct Hin as [<- | [<- | [<- | [<- | []]]]]);
    reflexivity.
Qed.

Lemma SnganGenerator_dead_normalisation_parameters_witness :
  SnganGenerator.forward
    (override zero_params "genblock2.condgn1.embed_gamma.weight"
              (fun _ => 1%R))
    true (SnganGenerator.init 4 3 1) (zeros [2; 4]) None
  = SnganGenerator.forward zero_params true (SnganGenerator.init 4 3 1)
      (zeros [2; 4]) None.
Proof.
  destruct (@SnganGenerator_dead_normalisation_parameters R R_Scalar
              zero_params true 4 3 1 (zeros [2; 4]) (zeros [2; 3])
              "genblock2" "genblock2.condgn1.embed_gamma.weight"
              (fun _ => 1%R)) as (A & _).
  - cbn [In]. auto.
  - apply A. left. exists ".embed_gamma.weight"%string. reflexivity.
Defined.

(** ** Conditional normalisation over the reals *)

Section ConditionalNormValues.

Context {F : Type} {SF : Scalar F}.
Variables (theta : Params (F := F)) (training : bool).

(** The value of the conditional normalisation at every position, in the
    order in which the layer computes it. *)
Lemma ConditionalBatchNorm2d_values (name : string) (C E N H W : nat)
  (x y : Tensor F) :
  shape x = [N; C; H; W] -> shape y = [N; E] -> 0 < C ->
  training = false \/ N * H * W <> 1 ->
  exists out,
    ConditionalBatchNorm2d.forward theta training
      (ConditionalBatchNorm2d.init name C E) x y = Some out /\
    shape out = [N; C; H; W] /\
    forall n c i j, n < N -> c < C -> i < H -> j < W ->
      get4 out n c i j =
      fadd (fadd (bn_normalized theta training
                    (mkBatchNorm2d (name ++ ".bn") C false) x N C H W n c i j)
                 (fmul (bn_normalized theta training
                          (mkBatchNorm2d (name ++ ".bn") C false)
                          x N C H W n c i j)
                       (dot E (fun k => item y (n * E + k))
                            (fun k => theta ((name ++ ".embed_gamma") ++ ".weight")%string
                                            (c * E + k)))))
           (dot E (fun k => item y (n * E + k))
                (fun k => theta ((name ++ ".embed_beta") ++ ".weight")%string
                                (c * E + k))).
Proof.
  intros Hx Hy Hc Hcnt.
  unfold ConditionalBatchNorm2d.forward.
  cbn [ConditionalBatchNorm2d.init ConditionalBatchNorm2d.bn
       ConditionalBatchNorm2d.embed_gamma ConditionalBatchNorm2d.embed_beta
       ConditionalBatchNorm2d.num_features].
  rewrite (@BatchNorm2d_forward_eq _ _ theta training
             (mkBatchNorm2d (name ++ ".bn") C false) x N C H W Hx eq_refl Hcnt).
  cbn [bind affine].
  set (out0 := tabulate4 N C H W _).
  destruct (@projection_view _ _ theta training (name ++ ".embed_gamma")
              E C N y Hy Hc) as (gamma & Eg & Hg & Vg).
  destruct (bind_Some_inv _ _ Eg) as (g & Eg1 & Eg2).
  rewrite Eg1. cbn [bind]. rewrite Eg2. cbn [bind].
  destruct (@projection_view _ _ theta training (name ++ ".embed_beta")
              E C N y Hy Hc) as (beta & Eb & Hb & Vb).
  destruct (bind_Some_inv _ _ Eb) as (b & Eb1 & Eb2).
  rewrite Eb1. cbn [bind]. rewrite Eb2. cbn [bind].
  destruct (@broadcast2_channel_get4 _ _ fmul out0 gamma N C H W eq_refl Hg)
    as (scaled & Es & Hs & _ & Vs).
  unfold tensor_mul. rewrite Es. cbn [bind].
  destruct (@broadcast2_same_get4 _ _ fadd out0 scaled N C H W eq_refl Hs)
    as (acc & Ea & Ha & _ & Va).
  unfold tensor_add. rewrite Ea. cbn [bind].
  destruct (@broadcast2_channel_get4 _ _ fadd acc beta N C H W Ha Hb)
    as (out & Eo & Ho & _ & Vo).
  exists out. split; [exact Eo|]. split; [exact Ho|].
  intros n c i j Hn Hc' Hi Hj.
  rewrite Vo, Va, Vs, Vg, Vb by assumption.
  unfold out0. rewrite get4_tabulate4 by assumption.
  reflexivity.
Qed.

End ConditionalNormValues.

Lemma Rsum_zeros (l : list R) (acc : R) :
  Forall (fun v => v = 0%R) l -> fold_left Rplus l acc = acc.
Proof.
  intros Hl. revert acc. induction Hl as [|v l -> _ IH]; intros acc;
    cbn [fold_left]; [reflexivity|].
  rewrite IH. lra.
Qed.

Lemma Rdot_zero_l (n : nat) (a b : nat -> R) :
  (forall k, a k = 0%R) -> dot n a b = 0%R.
Proof.
  intros Ha. unfold dot, fsum. cbn [fadd fmul fzero R_Scalar].
  apply Rsum_zeros. apply Forall_forall. intros v Hv.
  apply in_map_iff in Hv. destruct Hv as (k & <- & _). rewrite Ha. lra.
Qed.

Lemma item_of_zeros (y : Tensor R) (o : nat) :
  Forall (fun v => v = 0%R) (data y) -> item y o = 0%R.
Proof.
  intros Hy. unfold item. cbn [fzero R_Scalar].
  destruct (Nat.lt_ge_cases o (length (data y))) as [Ho|Ho].
  - rewrite Forall_forall in Hy. apply Hy. apply nth_In. exact Ho.
  - apply nth_overflow. exact Ho.
Qed.

(** X13: over the reals the conditional normalisation is the scale and
    shift [normalized * (1 + gamma) + beta]; a zero embedding therefore gives
    back the plain normalisation [(x - mean) / sqrt(var + eps)] (and not
    zero, as [gamma * normalized + beta] would). *)
Theorem ConditionalBatchNorm2d_scale_shift
  (theta : Params (F := R)) (training : bool)
  (name : string) (C E N H W : nat) (x y : Tensor R) :
  shape x = [N; C; H; W] -> shape y = [N; E] -> 0 < C ->
  training = false \/ N * H * W <> 1 ->
  let self := ConditionalBatchNorm2d.init name C E in
  exists out,
    ConditionalBatchNorm2d.forward theta training self x y = Some out /\
    forall n c i j, n < N -> c < C -> i < H -> j < W ->
      let normalized :=
        bn_normalized theta training (ConditionalBatchNorm2d.bn self)
                      x N C H W n c i j in
      let gamma :=
        dot E (fun k => item y (n * E + k))
              (fun k => theta ((name ++ ".embed_gamma") ++ ".weight")%string
                              (c * E + k)) in
      let beta :=
        dot E (fun k => item y (n * E + k))
              (fun k => theta ((name ++ ".embed_beta") ++ ".weight")%string
                              (c * E + k)) in
      get4 out n c i j = (normalized * (1 + gamma) + beta)%R /\
      (Forall (fun v => v = 0%R) (data y) -> get4 out n c i j = normalized).
Proof.
  intros Hx Hy Hc Hcnt self. subst self.
  destruct (@ConditionalBatchNorm2d_values _ _ theta training name C E N H W
              x y Hx Hy Hc Hcnt) as (out & Eo & _ & Vo).
  exists out. split; [exact Eo|].
  intros n c i j Hn Hc' Hi Hj. cbv zeta.
  rewrite (Vo n c i j Hn Hc' Hi Hj).
  cbn [ConditionalBatchNorm2d.init ConditionalBatchNorm2d.bn].
  cbn [fadd fmul R_Scalar].
  split; [ring|].
  intros Hzero.
  rewrite !Rdot_zero_l by (intros k; apply item_of_zeros; exact Hzero).
  ring.
Qed.

Lemma ConditionalBatchNorm2d_scale_shift_witness :
  exists out,
    ConditionalBatchNorm2d.forward zero_params false
      (ConditionalBatchNorm2d.init "condgn2" 2 3)
      (zeros [1; 2; 1; 1]) (zeros [1; 3]) = Some out.
Proof.
  destruct (@ConditionalBatchNorm2d_scale_shift zero_params false "condgn2"
              2 3 1 1 1 (zeros [1; 2; 1; 1]) (zeros [1; 3]))
    as (out & E & _);
    [reflexivity | reflexivity | lia | left; reflexivity |].
  exists out. exact E.
Defined.

(** ** Counting parameters *)

Lemma generator_total (nz dim_embed gen_ch : nat) :
  Total (get_parameter_number
           (SnganGenerator_parameters (SnganGenerator.init nz dim_embed gen_ch)))
  = 2465 * gen_ch * gen_ch + 90 * dim_embed * gen_ch + 256 * gen_ch * nz
    + 420 * gen_ch + 3.
Proof. cbv -[Nat.mul Nat.add]. lia. Qed.

Lemma discriminator_total (dim_embed disc_ch : nat) :
  Total (get_parameter_number
           (SnganDiscriminator_parameters
              (SnganDiscriminator.init dim_embed disc_ch)))
  = 4769 * disc_ch * disc_ch + 256 * disc_ch * dim_embed + 379 * disc_ch + 1.
Proof. cbv -[Nat.mul Nat.add]. lia. Qed.

(** X11: [get_parameter_number] depends on the constructor arguments only.
    The generator holds 62 parameter tensors (the convolutions shared by the
    two paths of a block counted once) with
    [2465 gen_ch^2 + 90 dim_embed gen_ch + 256 gen_ch nz + 420 gen_ch + 3]
    values, the discriminator 33 tensors with
    [4769 disc_ch^2 + 256 disc_ch dim_embed + 379 disc_ch + 1] values; all of
    them are trainable; with the default arguments the totals are 15055107
    and 21655233. *)
Theorem parameter_numbers (nz dim_embed gen_ch disc_ch : nat) :
  let G := SnganGenerator_parameters (SnganGenerator.init nz dim_embed gen_ch) in
  let D := SnganDiscriminator_parameters
             (SnganDiscriminator.init dim_embed disc_ch) in
  length G = 62 /\ length D = 33 /\
  Total (get_parameter_number G)
  = 2465 * gen_ch * gen_ch + 90 * dim_embed * gen_ch + 256 * gen_ch * nz
    + 420 * gen_ch + 3 /\
  Trainable (get_parameter_number G) = Total (get_parameter_number G) /\
  Total (get_parameter_number D)
  = 4769 * disc_ch * disc_ch + 256 * disc_ch * dim_embed + 379 * disc_ch + 1 /\
  Trainable (get_parameter_number D) = Total (get_parameter_number D) /\
  Z.of_nat (Total (get_parameter_number
                     (SnganGenerator_parameters SnganGenerator.default)))
  = 15055107%Z /\
  Z.of_nat (Total (get_parameter_number
                     (SnganDiscriminator_parameters SnganDiscriminator.default)))
  = 21655233%Z.
Proof.
  intros G D.
  split; [vm_compute; reflexivity|]. split; [vm_compute; reflexivity|].
  split; [apply generator_total|].
  split; [cbv -[Nat.mul Nat.add]; reflexivity|].
  split; [apply discriminator_total|].
  split; [cbv -[Nat.mul Nat.add]; reflexivity|].
  unfold SnganGenerator.default, SnganDiscriminator.default.
  rewrite generator_total, discriminator_total. split; lia.
Qed.

(** ** A label embedding with its own number of rows *)

Lemma joined_batch_left (N M B : nat) :
  joined_batch N M = Some B -> joined_batch B M = Some B.
Proof.
  unfold joined_batch.
  destruct (Nat.eqb_spec N M) as [->|Hnm].
  - intros [= <-]. now rewrite Nat.eqb_refl.
  - destruct (Nat.eqb_spec N 1) as [->|Hn1].
    + intros [= <-]. now rewrite Nat.eqb_refl.
    + destruct (Nat.eqb_spec M 1) as [->|Hm1]; [|discriminate].
      intros [= <-].
      destruct (Nat.eqb_spec N 1); [contradiction|].
      reflexivity.
Qed.

Lemma joined_batch_right (N M B : nat) :
  joined_batch N M = Some B -> joined_batch B N = Some B.
Proof.
  unfold joined_batch.
  destruct (Nat.eqb_spec N M) as [->|Hnm].
  - intros [= <-]. now rewrite Nat.eqb_refl.
  - destruct (Nat.eqb_spec N 1) as [->|Hn1].
    + intros [= <-].
      destruct (Nat.eqb_spec M 1) as [E|_]; [congruence|].
      reflexivity.
    + destruct (Nat.eqb_spec M 1) as [->|Hm1]; [|discriminate].
      intros [= <-]. now rewrite Nat.eqb_refl.
Qed.

Lemma broadcast_shapes_channel_rows (N M C H W : nat) :
  broadcast_shapes [N; C; H; W] [M; C; 1; 1]
  = option_map (fun B => [B; C; H; W]) (joined_batch N M).
Proof.
  unfold broadcast_shapes, joined_batch. cbn [rev app broadcast_rev bind].
  destruct (N =? M); cbn [bind option_map];
    [|destruct (N =? 1); cbn [bind option_map];
      [|destruct (M =? 1); cbn [bind option_map]; [|reflexivity]]];
    rewrite !Nat.eqb_refl; cbn [bind];
    destruct (Nat.eqb_spec H 1) as [->|_], (Nat.eqb_spec W 1) as [->|_];
    reflexivity.
Qed.

Lemma broadcast_shapes_batch (N B C H W : nat) :
  broadcast_shapes [N; C; H; W] [B; C; H; W]
  = option_map (fun K => [K; C; H; W]) (joined_batch N B).
Proof.
  unfold broadcast_shapes, joined_batch. cbn [rev app broadcast_rev bind].
  destruct (N =? B); cbn [bind option_map];
    [|destruct (N =? 1); cbn [bind option_map];
      [|destruct (B =? 1); cbn [bind option_map]; [|reflexivity]]];
    rewrite !Nat.eqb_refl; reflexivity.
Qed.

Section EmbeddingRows.

Context {F : Type} {SF : Scalar F}.
Variables (theta : Params (F := F)) (training : bool).

Lemma ConditionalBatchNorm2d_rows_returns (name : string) (C E N M B H W : nat)
  (x y : Tensor F) :
  shape x = [N; C; H; W] -> shape y = [M; E] ->
  0 < C -> N * H * W <> 1 -> joined_batch N M = Some B ->
  returns (ConditionalBatchNorm2d.forward theta training
             (ConditionalBatchNorm2d.init name C E) x y)
          [B; C; H; W].
Proof.
  intros Hx Hy Hc Hcnt HB. unfold ConditionalBatchNorm2d.forward.
  cbn [ConditionalBatchNorm2d.init ConditionalBatchNorm2d.bn
       ConditionalBatchNorm2d.embed_gamma ConditionalBatchNorm2d.embed_beta
       ConditionalBatchNorm2d.num_features].
  apply returns_bind with (s1 := [N; C; H; W]).
  { apply BatchNorm2d_returns; [exact Hx | reflexivity | exact Hcnt]. }
  intros out Hout _.
  apply returns_bind with (s1 := [M; C]).
  { apply (Linear_returns theta training
             (mkLinear (name ++ ".embed_gamma") E C false false)); exact Hy. }
  intros g Hg Wg.
  apply returns_bind with (s1 := [M; C; 1; 1]).
  { apply channel_view_returns; assumption. }
  intros gamma Hgamma _.
  apply returns_bind with (s1 := [M; C]).
  { apply (Linear_returns theta training
             (mkLinear (name ++ ".embed_beta") E C false false)); exact Hy. }
  intros b Hb Wb.
  apply returns_bind with (s1 := [M; C; 1; 1]).
  { apply channel_view_returns; assumption. }
  intros beta Hbeta _.
  apply returns_bind with (s1 := [B; C; H; W]).
  { apply broadcast2_returns.
    rewrite Hout, Hgamma, broadcast_shapes_channel_rows, HB. reflexivity. }
  intros scaled Hscaled _.
  apply returns_bind with (s1 := [B; C; H; W]).
  { apply broadcast2_returns.
    rewrite Hout, Hscaled, broadcast_shapes_batch.
    rewrite (joined_batch_absorb _ _ HB). reflexivity. }
  intros acc Hacc _.
  apply broadcast2_returns.
  rewrite Hacc, Hbeta, broadcast_shapes_channel_rows.
  rewrite (joined_batch_left _ _ HB). reflexivity.
Qed.

Lemma ConditionalBatchNorm2d_rows_raises (name : string) (C E N M H W : nat)
  (x y : Tensor F) :
  shape x = [N; C; H; W] -> shape y = [M; E] ->
  0 < C -> N * H * W <> 1 -> joined_batch N M = None ->
  ConditionalBatchNorm2d.forward theta training
    (ConditionalBatchNorm2d.init name C E) x y = None.
Proof.
  intros Hx Hy Hc Hcnt HB. unfold ConditionalBatchNorm2d.forward.
  cbn [ConditionalBatchNorm2d.init ConditionalBatchNorm2d.bn
       ConditionalBatchNorm2d.embed_gamma ConditionalBatchNorm2d.embed_beta
       ConditionalBatchNorm2d.num_features].
  apply returns_bind_None with (s1 := [N; C; H; W]).
  { apply BatchNorm2d_returns; [exact Hx | reflexivity | exact Hcnt]. }
  intros out Hout _.
  apply returns_bind_None with (s1 := [M; C]).
  { apply (Linear_returns theta training
             (mkLinear (name ++ ".embed_gamma") E C false false)); exact Hy. }
  intros g Hg Wg.
  apply returns_bind_None with (s1 := [M; C; 1; 1]).
  { apply channel_view_returns; assumption. }
  intros gamma Hgamma _.
  apply returns_bind_None with (s1 := [M; C]).
  { apply (Linear_returns theta training
             (mkLinear (name ++ ".embed_beta") E C false false)); exact Hy. }
  intros b Hb Wb.
  apply returns_bind_None with (s1 := [M; C; 1; 1]).
  { apply channel_view_returns; assumption. }
  intros beta Hbeta _.
  unfold tensor_mul, broadcast2.
  rewrite Hout, Hgamma, broadcast_shapes_channel_rows, HB. reflexivity.
Qed.

Lemma ResBlockGenerator_rows_returns (name : string) (Ci Co E : nat) (b : bool)
  (N M B H W : nat) (x h : Tensor F) :
  shape x = [N; Ci; H; W] -> shape h = [M; E] ->
  0 < Ci -> 0 < Co -> 0 < H -> 0 < W -> N * H * W <> 1 ->
  joined_batch N M = Some B ->
  returns (ResBlockGenerator.forward theta training
             (ResBlockGenerator.init name Ci Co E b) x (Some h))
          [B; Co; H * 2; W * 2].
Proof.
  intros Hx Hh Hci Hco HH HW Hcnt HB. unfold ResBlockGenerator.forward.
  cbn [ResBlockGenerator.init ResBlockGenerator.condgn1 ResBlockGenerator.condgn2
       ResBlockGenerator.relu ResBlockGenerator.upsample ResBlockGenerator.conv1
       ResBlockGenerator.conv2 Layer_forward].
  apply returns_bind with (s1 := [B; Ci; H; W]).
  { apply ConditionalBatchNorm2d_rows_returns with (N := N) (M := M);
      assumption. }
  intros o1 H1 W1.
  apply returns_bind with (s1 := [B; Ci; H; W]).
  { apply ReLU_returns; assumption. }
  intros o2 H2 _.
  apply returns_bind with (s1 := [B; Ci; H * 2; W * 2]).
  { apply Upsample_returns; (assumption || lia). }
  intros o3 H3 _.
  apply returns_bind with (s1 := [B; Co; H * 2; W * 2]).
  { apply (@Conv2d_same_returns _ _ theta training
             (mkConv2d (name ++ ".conv1") Ci Co 3 1 1 b false)
             o3 B Ci (H * 2) (W * 2)); (exact H3 || reflexivity || lia). }
  intros o4 H4 _.
  apply returns_bind with (s1 := [B; Co; H * 2; W * 2]).
  { apply ConditionalBatchNorm2d_rows_returns with (N := B) (M := M);
      try assumption; [apply count_doubled|].
    apply (joined_batch_left _ _ HB). }
  intros o5 H5 W5.
  apply returns_bind with (s1 := [B; Co; H * 2; W * 2]).
  { apply ReLU_returns; assumption. }
  intros o6 H6 _.
  apply returns_bind with (s1 := [B; Co; H * 2; W * 2]).
  { apply (@Conv2d_same_returns _ _ theta training
             (mkConv2d (name ++ ".conv2") Co Co 3 1 1 b false)
             o6 B Co (H * 2) (W * 2)); (exact H6 || reflexivity || lia). }
  intros o7 H7 _.
  apply returns_bind with (s1 := [N; Co; H * 2; W * 2]).
  { apply (@ResBlockGenerator_bypass_returns _ _ theta training
             name Ci Co E b N H W x); assumption. }
  intros skip Hskip _.
  apply broadcast2_returns.
  rewrite H7, Hskip, broadcast_shapes_batch.
  rewrite (joined_batch_right _ _ HB). reflexivity.
Qed.

End EmbeddingRows.

(** X16: the generator joins the [N] latent rows and the [M] rows of the
    embedding by broadcasting in its conditional normalisations: a single
    embedding row conditions every sample (output [(N, 3, 64, 64)]), a single
    latent is rendered once per embedding row (output [(M, 3, 64, 64)]), and
    when [N] and [M] differ and neither is 1 the forward pass raises. *)
Theorem SnganGenerator_embedding_batch
  (F : Type) (SF : Scalar F) (theta : Params (F := F)) (training : bool)
  (nz dim_embed gen_ch N M : nat) (z h : Tensor F) :
  0 < gen_ch -> shape z = [N; nz] -> shape h = [M; dim_embed] ->
  let run := SnganGenerator.forward theta training
               (SnganGenerator.init nz dim_embed gen_ch) z (Some h) in
  (M = 1 -> returns run [N; 3; 64; 64]) /\
  (N = 1 -> returns run [M; 3; 64; 64]) /\
  (N <> M -> N <> 1 -> M <> 1 -> run = None).
Proof.
  intros Hch Hz Hh run.
  assert (Erun : run =
    (out <- Linear_forward theta training
              (mkLinear "dense" nz (4 * 4 * gen_ch * 16) true false)
              (mkTensor [N; nz] (data z)) ;;
     out <- view out [-1; Z.of_nat (gen_ch * 16); 4; 4]%Z ;;
     out <- ResBlockGenerator.forward theta training
              (ResBlockGenerator.init "genblock0" (gen_ch * 16) (gen_ch * 8)
                 dim_embed true) out (Some h) ;;
     out <- ResBlockGenerator.forward theta training
              (ResBlockGenerator.init "genblock1" (gen_ch * 8) (gen_ch * 4)
                 dim_embed true) out (Some h) ;;
     out <- ResBlockGenerator.forward theta training
              (ResBlockGenerator.init "genblock2" (gen_ch * 4) (gen_ch * 2)
                 dim_embed true) out (Some h) ;;
     out <- ResBlockGenerator.forward theta training
              (ResBlockGenerator.init "genblock3" (gen_ch * 2) gen_ch
                 dim_embed true) out (Some h) ;;
     Sequential_forward theta training
       (SnganGenerator.final (SnganGenerator.init nz dim_embed gen_ch)) out)).
  { unfold run.
    apply (@generator_after_view _ _ theta training
             (SnganGenerator.init nz dim_embed gen_ch) z
             (mkTensor [N; nz] (data z)) (Some h)).
    apply (@latent_view _ z N nz [] Hz). reflexivity. }
  assert (Joined : forall B, joined_batch N M = Some B ->
                             returns run [B; 3; 64; 64]).
  { intros B HB. rewrite Erun.
    apply returns_bind with (s1 := [N; 4 * 4 * gen_ch * 16]).
    { apply (Linear_returns theta training
               (mkLinear "dense" nz (4 * 4 * gen_ch * 16) true false)).
      reflexivity. }
    intros d Hd Wd.
    apply returns_bind with (s1 := [N; gen_ch * 16; 4; 4]).
    { apply (@view_infer_returns _ d [gen_ch * 16; 4; 4] N Wd).
      - cbn [numel_of fold_right]. lia.
      - unfold numel. rewrite Hd. cbn [numel_of fold_right]. lia. }
    intros o0 H0 _.
    pose proof (joined_batch_left _ _ HB) as HB'.
    apply returns_bind with (s1 := [B; gen_ch * 8; 8; 8]).
    { apply (@ResBlockGenerator_rows_returns _ _ theta training "genblock0"
               (gen_ch * 16) (gen_ch * 8) dim_embed true N M B 4 4 o0 h);
        (assumption || lia). }
    intros o1 H1 _.
    apply returns_bind with (s1 := [B; gen_ch * 4; 16; 16]).
    { apply (@ResBlockGenerator_rows_returns _ _ theta training "genblock1"
               (gen_ch * 8) (gen_ch * 4) dim_embed true B M B 8 8 o1 h);
        (assumption || lia). }
    intros o2 H2 _.
    apply returns_bind with (s1 := [B; gen_ch * 2; 32; 32]).
    { apply (@ResBlockGenerator_rows_returns _ _ theta training "genblock2"
               (gen_ch * 4) (gen_ch * 2) dim_embed true B M B 16 16 o2 h);
        (assumption || lia). }
    intros o3 H3 _.
    apply returns_bind with (s1 := [B; gen_ch; 64; 64]).
    { apply (@ResBlockGenerator_rows_returns _ _ theta training "genblock3"
               (gen_ch * 2) gen_ch dim_embed true B M B 32 32 o3 h);
        (assumption || lia). }
    intros o4 H4 _.
    destruct (@final_returns _ _ theta training nz dim_embed gen_ch B o4 H4)
      as (y & Ey & Hy & Wy).
    rewrite Ey. apply returns_Some; [exact Hy | apply tensor_map_wf; exact Wy]. }
  split; [|split].
  - intros ->. apply Joined. unfold joined_batch.
    destruct (Nat.eqb_spec N 1) as [->|_]; [reflexivity|].
    destruct (N =? 1); reflexivity.
  - intros ->. apply Joined. unfold joined_batch.
    destruct (Nat.eqb_spec 1 M) as [<-|_]; reflexivity.
  - intros HNM HN HM. rewrite Erun.
    apply returns_bind_None with (s1 := [N; 4 * 4 * gen_ch * 16]).
    { apply (Linear_returns theta training
               (mkLinear "dense" nz (4 * 4 * gen_ch * 16) true false)).
      reflexivity. }
    intros d Hd Wd.
    apply returns_bind_None with (s1 := [N; gen_ch * 16; 4; 4]).
    { apply (@view_infer_returns _ d [gen_ch * 16; 4; 4] N Wd).
      - cbn [numel_of fold_right]. lia.
      - unfold numel. rewrite Hd. cbn [numel_of fold_right]. lia. }
    intros o0 H0 _.
    apply bind_raises. unfold ResBlockGenerator.forward.
    cbn [ResBlockGenerator.init ResBlockGenerator.condgn1].
    apply bind_raises.
    apply (@ConditionalBatchNorm2d_rows_raises _ _ theta training
             ("genblock0" ++ ".condgn1") (gen_ch * 16) dim_embed N M 4 4 o0 h);
      try assumption; try lia.
    unfold joined_batch.
    destruct (Nat.eqb_spec N M); [contradiction|].
    destruct (Nat.eqb_spec N 1); [contradiction|].
    destruct (Nat.eqb_spec M 1); [contradiction | reflexivity].
Qed.

Lemma SnganGenerator_embedding_batch_witness :
  returns (SnganGenerator.forward zero_params true (SnganGenerator.init 4 3 1)
             (zeros [5; 4]) (Some (zeros [1; 3])))
          [5; 3; 64; 64] /\
  SnganGenerator.forward zero_params true (SnganGenerator.init 4 3 1)
    (zeros [5; 4]) (Some (zeros [2; 3])) = None.
Proof.
  split.
  - destruct (@SnganGenerator_embedding_batch R R_Scalar zero_params true
                4 3 1 5 1 (zeros [5; 4]) (zeros [1; 3]))
      as (A & _); [lia | reflexivity | reflexivity |].
    apply A. reflexivity.
  - destruct (@SnganGenerator_embedding_batch R R_Scalar zero_params true
                4 3 1 5 2 (zeros [5; 4]) (zeros [2; 3]))
      as (_ & _ & C); [lia | reflexivity | reflexivity |].
    apply C; discriminate.
Defined.
